(** * Dermatology clinic directory: classification, collection and client
      search pipeline

    A shallow embedding of the logic of the clinic directory:
    - the comprehensive collection script (address parser, dermatology
      classifier, place transformer, grid and city discovery, request
      budget);
    - the batch collection script [collectAllStates.ts];
    - the client page of the clinic list (text search, location search,
      filters and sort).

    Conventions.
    - A JavaScript string is a [string]: the sequence of the bytes of its
      UTF-8 encoding.  Trimming and [\s] cover the white space of the
      language in full.  The collection scripts fold case with
      [JS.toLowerCase], written out for the letters A to Z; the client
      page takes the case folding of the platform as a parameter.
    - A JavaScript number that the code only stores, compares or
      subtracts is a rational [Q]; counters are binary naturals [N]; a
      setting read from the environment is a [JsNumber].
    - [undefined] and [null] are [None].
    - The effects of a script (waiting, calls to the external source,
      files written) are recorded in a history, newest first; the
      external source is a function from the number of the call to its
      answer, and the file system a function that tells which of its
      calls fail. *)

From Stdlib Require Import List String Ascii Bool Arith ZArith QArith Lia.
From Stdlib Require Import DecimalString Qabs.
From Stdlib Require Import Sorting.Sorted Sorting.Permutation.
Import ListNotations.

Open Scope string_scope.
Open Scope list_scope.
Open Scope nat_scope.

Set Implicit Arguments.

(* ===================================================================== *)
(** ** JavaScript primitives used by the code *)
(* ===================================================================== *)

Module JS.

(** Truthiness of a string value: every string but the empty one. *)
Definition truthy (s : string) : bool := negb (String.eqb s "").

(** Truthiness of a possibly missing string. *)
Definition truthyOpt (o : option string) : bool :=
  match o with
  | Some s => truthy s
  | None => false
  end.

(** [o || ''] *)
Definition orEmpty (o : option string) : string :=
  match o with
  | Some s => if truthy s then s else ""
  | None => ""
  end.

Definition isUpper (c : ascii) : bool :=
  let n := nat_of_ascii c in (65 <=? n) && (n <=? 90).

Definition isLower (c : ascii) : bool :=
  let n := nat_of_ascii c in (97 <=? n) && (n <=? 122).

Definition isDigit (c : ascii) : bool :=
  let n := nat_of_ascii c in (48 <=? n) && (n <=? 57).

(** The white space and the line terminators of the ASCII range: TAB, LF,
    VT, FF, CR and SPACE. *)
Definition isSpace (c : ascii) : bool :=
  let n := nat_of_ascii c in ((9 <=? n) && (n <=? 13)) || (n =? 32).

(** The white space of two bytes: U+00A0 (C2 A0). *)
Definition isSpace2 (a b : ascii) : bool :=
  (nat_of_ascii a =? 194) && (nat_of_ascii b =? 160).

(** The white space and the line terminators of three bytes: U+1680
    (E1 9A 80), U+2000 to U+200A (E2 80 80 to E2 80 8A), U+2028 and U+2029
    (E2 80 A8, E2 80 A9), U+202F (E2 80 AF), U+205F (E2 81 9F), U+3000
    (E3 80 80) and U+FEFF (EF BB BF). *)
Definition isSpace3 (a b c : ascii) : bool :=
  let x := nat_of_ascii a in
  let y := nat_of_ascii b in
  let z := nat_of_ascii c in
  ((x =? 225) && (y =? 154) && (z =? 128))
  || ((x =? 226) && (y =? 128)
      && (((128 <=? z) && (z <=? 138)) || (z =? 168) || (z =? 169)
          || (z =? 175)))
  || ((x =? 226) && (y =? 129) && (z =? 159))
  || ((x =? 227) && (y =? 128) && (z =? 128))
  || ((x =? 239) && (y =? 187) && (z =? 191)).

(** [\w] *)
Definition isWord (c : ascii) : bool :=
  isUpper c || isLower c || isDigit c || (nat_of_ascii c =? 95).

Definition lowerChar (c : ascii) : ascii :=
  if isUpper c then ascii_of_nat (nat_of_ascii c + 32) else c.

(** [String.prototype.toLowerCase] *)
Fixpoint toLowerCase (s : string) : string :=
  match s with
  | EmptyString => EmptyString
  | String c s' => String (lowerChar c) (toLowerCase s')
  end.

(** [String.prototype.trimStart]: the characters of [\s] at the start
    are dropped, whatever the number of bytes of each. *)
Fixpoint trimStart (s : string) : string :=
  match s with
  | EmptyString => EmptyString
  | String a s1 =>
      if isSpace a then trimStart s1
      else
        match s1 with
        | EmptyString => s
        | String b s2 =>
            if isSpace2 a b then trimStart s2
            else
              match s2 with
              | EmptyString => s
              | String c s3 => if isSpace3 a b c then trimStart s3 else s
              end
        end
  end.

(** [s] is made of characters of [\s] only. *)
Definition isBlank (s : string) : bool := String.eqb (trimStart s) "".

(** [\s] matches at the start of [s]. *)
Definition startsWithSpace (s : string) : bool :=
  negb (String.eqb (trimStart s) s).

(** [String.prototype.trimEnd]: the longest blank end of [s] is dropped. *)
Fixpoint trimEnd (s : string) : string :=
  match s with
  | EmptyString => EmptyString
  | String c s' => if isBlank s then EmptyString else String c (trimEnd s')
  end.

(** [String.prototype.trim] *)
Definition trim (s : string) : string := trimEnd (trimStart s).

(** [s.includes(t)]: [t] occurs in [s] as a contiguous run. *)
Fixpoint includes (s t : string) : bool :=
  String.prefix t s ||
  match s with
  | EmptyString => false
  | String _ s' => includes s' t
  end.

(** [Array.prototype.includes] on an array of strings. *)
Definition arrayIncludes (l : list string) (x : string) : bool :=
  existsb (String.eqb x) l.

(** [Array.prototype.join] *)
Definition join (sep : string) (l : list string) : string :=
  String.concat sep l.

Fixpoint allChars (p : ascii -> bool) (s : string) : bool :=
  match s with
  | EmptyString => true
  | String c s' => p c && allChars p s'
  end.

(** [/^\d{5}$/.test(s)] *)
Definition isFiveDigits (s : string) : bool :=
  (String.length s =? 5) && allChars isDigit s.

End JS.

(* ===================================================================== *)
(** ** Raw place records of the external source *)
(* ===================================================================== *)

Record AddressComponent : Type := mkAddressComponent {
  ac_types : list string;
  shortText : option string;
  longText : option string
}.

Record LocalizedText : Type := mkLocalizedText { text : option string }.

Record LatLng : Type := mkLatLng { latitude : option Q; longitude : option Q }.

Record OpeningHours : Type := mkOpeningHours {
  openNow : option bool;
  weekdayDescriptions : option (list string)
}.

Record Photo : Type := mkPhoto {
  photo_name : option string;
  widthPx : option nat;
  heightPx : option nat
}.

(** An option group (accessibility, parking, payment): named boolean
    flags, copied as they are. *)
Definition Flags : Type := list (string * bool).

(** The fields of a place that the scripts read.  Every field may be
    missing. *)
Module Place.

Record t : Type := make {
  id : option string;
  displayName : option LocalizedText;
  formattedAddress : option string;
  addressComponents : option (list AddressComponent);
  location : option LatLng;
  primaryType : option string;
  types : option (list string);
  rating : option Q;
  userRatingCount : option nat;
  currentOpeningHours : option OpeningHours;
  regularOpeningHours : option OpeningHours;
  nationalPhoneNumber : option string;
  internationalPhoneNumber : option string;
  websiteUri : option string;
  googleMapsUri : option string;
  businessStatus : option string;
  accessibilityOptions : option Flags;
  parkingOptions : option Flags;
  paymentOptions : option Flags;
  priceLevel : option string;
  photos : option (list Photo)
}.

(** A place with every field missing, to build examples from. *)
Definition empty : t :=
  make None None None None None None None None None None None
       None None None None None None None None None None.

End Place.

(* ===================================================================== *)
(** ** Scripts: sequential code with exceptions over a world *)
(* ===================================================================== *)

(** How a call ends: with a value, with a thrown [Error] (its message), or
    cut short because the model ran out of steps. *)
Inductive Outcome (A : Type) : Type :=
| Ok (a : A)
| Throw (message : string)
| OutOfFuel.

Arguments Ok {A} a.
Arguments Throw {A} message.
Arguments OutOfFuel {A}.

Module Script.

Section WithWorld.

Variable W : Type.

Definition M (A : Type) : Type := W -> Outcome A * W.

Definition ret {A} (a : A) : M A := fun w => (Ok a, w).

Definition throw {A} (message : string) : M A := fun w => (Throw message, w).

Definition bind {A B} (m : M A) (k : A -> M B) : M B :=
  fun w =>
    match m w with
    | (Ok a, w') => k a w'
    | (Throw e, w') => (Throw e, w')
    | (OutOfFuel, w') => (OutOfFuel, w')
    end.

(** [try { m } catch (error) { handler(error.message) }] *)
Definition tryCatch {A} (m : M A) (handler : string -> M A) : M A :=
  fun w =>
    match m w with
    | (Throw e, w') => handler e w'
    | r => r
    end.

(** A computation that cannot throw. *)
Definition lift {A} (f : W -> A * W) : M A :=
  fun w => let (a, w') := f w in (Ok a, w').

(** [for (const x of l) { acc = body(x, acc) }], left by the first throw. *)
Fixpoint forOf {A S} (body : A -> S -> M S) (l : list A) (acc : S) : M S :=
  match l with
  | [] => ret acc
  | x :: l' => bind (body x acc) (fun acc' => forOf body l' acc')
  end.

End WithWorld.

Arguments ret {W A} a.
Arguments throw {W A} message.
Arguments bind {W A B} m k.
Arguments tryCatch {W A} m handler.
Arguments lift {W A} f.
Arguments forOf {W A S} body l acc.

End Script.

Import Script.

Declare Scope script_scope.
Delimit Scope script_scope with script.
Notation "x <- c1 ;; c2" := (Script.bind c1 (fun x => c2))
  (at level 61, c1 at next level, right associativity) : script_scope.
Notation "c1 ;;; c2" := (Script.bind c1 (fun _ => c2))
  (at level 61, right associativity) : script_scope.
Open Scope script_scope.

(** [error.message.includes('Request limit')] *)
Definition isRequestLimit (message : string) : bool :=
  JS.includes message "Request limit".

(** [`${n}`] for a non-negative integer. *)
Definition decimal (n : N) : string :=
  NilEmpty.string_of_uint (N.to_uint n).

(** What the external source answers to a call. *)
Inductive Response (A : Type) : Type :=
| NetworkError (message : string)
| HttpError (status : N)
| HttpOk (body : A).

Arguments NetworkError {A} message.
Arguments HttpError {A} status.
Arguments HttpOk {A} body.

Record SearchBody : Type := mkSearchBody {
  places : option (list Place.t);
  nextPageToken : option string
}.

(* ===================================================================== *)
(** ** The comprehensive collection script *)
(* ===================================================================== *)

Module Comprehensive.

(** *** Configuration and state tables *)

(** A number of the language as [Number(...)] gives one for a setting of
    the environment: not a number, an infinity, or a finite value. *)
Inductive JsNumber : Type :=
| NaN
| Infinity (negative : bool)
| Finite (q : Q).

(** [total >= max], for a counter [total]. *)
Definition reaches (total : N) (max : JsNumber) : bool :=
  match max with
  | NaN => false
  | Infinity negative => negative
  | Finite q => Qle_bool q (inject_Z (Z.of_N total))
  end.

(** The values read from the environment when the script starts, each
    [Number(process.env... || default)], and the date of the run. *)
Record Config : Type := mkConfig {
  QPS : JsNumber;
  MAX_REQUESTS : JsNumber;
  NEXT_PAGE_DELAY_MS : JsNumber;
  today : string
}.

(** The argument of a [sleep]: a number of milliseconds, or the pacing
    [Math.ceil(1000 / qps)], which is recorded as written. *)
Inductive Delay : Type :=
| Ms (n : JsNumber)
| Pace (qps : JsNumber).

(** Bounding box of a state, in hundredths of a degree (every bound of
    the table has at most two decimals). *)
Record Bounds : Type := mkBounds {
  minLat : Z; maxLat : Z; minLng : Z; maxLng : Z
}.

Record StateInfo : Type := mkStateInfo {
  code : string;
  name : string;
  bounds : Bounds;
  majorCities : list string
}.

Definition US_STATES : list (string * StateInfo) :=
  [ ("CA", mkStateInfo "CA" "California"
       (mkBounds 3250 4200 (-12450) (-11410))
       ["Los Angeles"; "San Francisco"; "San Diego"; "San Jose";
        "Sacramento"; "Oakland"; "Fresno"; "Long Beach"; "Bakersfield";
        "Anaheim"]);
    ("TX", mkStateInfo "TX" "Texas"
       (mkBounds 2580 3650 (-10670) (-9350))
       ["Houston"; "Dallas"; "Austin"; "San Antonio"; "Fort Worth";
        "El Paso"; "Arlington"; "Corpus Christi"; "Plano"; "Lubbock"]);
    ("FL", mkStateInfo "FL" "Florida"
       (mkBounds 2450 3100 (-8760) (-8000))
       ["Miami"; "Tampa"; "Orlando"; "Jacksonville"; "St. Petersburg";
        "Hialeah"; "Tallahassee"; "Fort Lauderdale"; "Port St. Lucie";
        "Cape Coral"]);
    ("NY", mkStateInfo "NY" "New York"
       (mkBounds 4050 4500 (-7980) (-7190))
       ["New York City"; "Buffalo"; "Rochester"; "Syracuse"; "Albany";
        "Yonkers"; "New Rochelle"; "Mount Vernon"; "Schenectady";
        "Utica"]);
    ("PA", mkStateInfo "PA" "Pennsylvania"
       (mkBounds 3970 4230 (-8050) (-7470))
       ["Philadelphia"; "Pittsburgh"; "Allentown"; "Erie"; "Reading";
        "Scranton"; "Bethlehem"; "Lancaster"; "Harrisburg"; "Altoona"]);
    ("IL", mkStateInfo "IL" "Illinois"
       (mkBounds 3700 4250 (-9150) (-8750))
       ["Chicago"; "Aurora"; "Naperville"; "Joliet"; "Rockford";
        "Springfield"; "Peoria"; "Elgin"; "Waukegan"; "Champaign"]);
    ("OH", mkStateInfo "OH" "Ohio"
       (mkBounds 3840 4230 (-8480) (-8050))
       ["Columbus"; "Cleveland"; "Cincinnati"; "Toledo"; "Akron";
        "Dayton"; "Parma"; "Canton"; "Youngstown"; "Lorain"]);
    ("GA", mkStateInfo "GA" "Georgia"
       (mkBounds 3040 3500 (-8560) (-8080))
       ["Atlanta"; "Augusta"; "Columbus"; "Macon"; "Savannah"; "Athens";
        "Sandy Springs"; "Roswell"; "Johns Creek"; "Albany"]);
    ("NC", mkStateInfo "NC" "North Carolina"
       (mkBounds 3380 3660 (-8430) (-7540))
       ["Charlotte"; "Raleigh"; "Greensboro"; "Durham"; "Winston-Salem";
        "Fayetteville"; "Cary"; "Wilmington"; "High Point"; "Asheville"]);
    ("MI", mkStateInfo "MI" "Michigan"
       (mkBounds 4170 4830 (-9040) (-8240))
       ["Detroit"; "Grand Rapids"; "Warren"; "Sterling Heights";
        "Ann Arbor"; "Lansing"; "Flint"; "Dearborn"; "Livonia"; "Troy"])
  ].

(** [US_STATES[stateCode]] *)
Definition lookupState (stateCode : string) : option StateInfo :=
  match find (fun kv => String.eqb (fst kv) stateCode) US_STATES with
  | Some kv => Some (snd kv)
  | None => None
  end.

(** [new Set(Object.keys(US_STATES))] *)
Definition VALID_US_STATES : list string := map fst US_STATES.

(** *** The world the script runs in *)

Inductive Request : Type :=
| SearchNearby (lat lng : Z) (radiusMeters : N)
| SearchText (textQuery : string) (pageToken : option string)
| PlaceDetails (placeId : option string).

(** A normalized clinic record, as [transformPlace] builds it. *)
Module Clinic.
Record Location : Type := mkLocation { lat : option Q; lng : option Q }.
Record Hours : Type := mkHours {
  open_now : option bool;
  weekday_text : list string
}.
Record t : Type := make {
  place_id : option string;
  display_name : option string;
  formatted_address : option string;
  location : option Location;
  primary_type : option string;
  types : list string;
  rating : option Q;
  user_rating_count : option nat;
  current_open_now : option bool;
  phone : option string;
  international_phone_number : option string;
  opening_hours : option Hours;
  website : option string;
  google_maps_uri : option string;
  business_status : option string;
  accessibility_options : option Flags;
  parking_options : option Flags;
  payment_options : option Flags;
  price_level : option string;
  city : option string;
  state_code : option string;
  postal_code : option string;
  photos : list Photo;
  last_fetched_at : string
}.
End Clinic.

(** What the script does to the outside, newest first: it waits, calls the
    external source, announces the collection of a state, writes the file
    of a state.  [Refused] marks a call that the budget did not let
    through. *)
Inductive Event : Type :=
| Sleep (ms : Delay)
| Fetch (r : Request)
| Refused
| Collecting (stateCode : string)
| WriteFile (stateCode : string) (clinics : list Clinic.t).

(** The three global counters and the history of effects. *)
Record World : Type := mkWorld {
  TOTAL_REQUESTS : N;
  REJECTED_NON_US : N;
  REJECTED_NON_DERM : N;
  trace : list Event
}.

Definition initialWorld : World := mkWorld 0%N 0%N 0%N [].

Definition bumpRequests (w : World) : World :=
  mkWorld (N.succ (TOTAL_REQUESTS w)) (REJECTED_NON_US w) (REJECTED_NON_DERM w)
          (trace w).

Definition bumpNonUS (w : World) : World :=
  mkWorld (TOTAL_REQUESTS w) (N.succ (REJECTED_NON_US w)) (REJECTED_NON_DERM w)
          (trace w).

Definition bumpNonDerm (w : World) : World :=
  mkWorld (TOTAL_REQUESTS w) (REJECTED_NON_US w) (N.succ (REJECTED_NON_DERM w))
          (trace w).

Definition emit (e : Event) (w : World) : World :=
  mkWorld (TOTAL_REQUESTS w) (REJECTED_NON_US w) (REJECTED_NON_DERM w)
          (e :: trace w).

(** *** Address component parser *)

Record ParsedAddress : Type := mkParsedAddress {
  pa_state_code : option string;
  pa_city : option string;
  pa_postal_code : option string;
  pa_country_code : option string
}.

(** [components?.find(c => c.types?.includes(type))] *)
Definition get (components : list AddressComponent) (type : string)
  : option AddressComponent :=
  find (fun c => JS.arrayIncludes (ac_types c) type) components.

(** [get(type)?.shortText] and [get(type)?.longText] *)
Definition getShort (components : list AddressComponent) (type : string)
  : option string :=
  match get components type with Some c => shortText c | None => None end.

Definition getLong (components : list AddressComponent) (type : string)
  : option string :=
  match get components type with Some c => longText c | None => None end.

Definition parseAddressComponents (components : list AddressComponent)
  : ParsedAddress :=
  {| pa_state_code := getShort components "administrative_area_level_1";
     pa_city :=
       match getLong components "locality" with
       | Some s => Some s
       | None => getLong components "postal_town"
       end;
     pa_postal_code := getLong components "postal_code";
     pa_country_code := getShort components "country" |}.

(** [place.addressComponents ?? []] *)
Definition componentsOf (place : Place.t) : list AddressComponent :=
  match Place.addressComponents place with Some l => l | None => [] end.

(** [ac.country_code && ac.country_code !== 'US'] *)
Definition foreignCountry (ac : ParsedAddress) : bool :=
  match pa_country_code ac with
  | Some c => JS.truthy c && negb (String.eqb c "US")
  | None => false
  end.

(** [!ac.state_code || !VALID_US_STATES.has(ac.state_code)] *)
Definition invalidState (ac : ParsedAddress) : bool :=
  match pa_state_code ac with
  | Some s => negb (JS.truthy s) || negb (JS.arrayIncludes VALID_US_STATES s)
  | None => true
  end.

(** *** Dermatology filter *)

Definition excludeTerms : list string :=
  ["dental"; "dentist"; "orthodont";
   "veterinary"; "animal"; "pet";
   "massage"; "spa resort"; "nail salon"].

Definition coreTerms : list string :=
  ["dermatology"; "dermatologist"; "dermatologic"].

Definition relatedTerms : list string :=
  ["skin clinic"; "skin center"; "skin care clinic";
   "skin doctor"; "skin specialist"; "skin health";
   "medical dermatology"; "cosmetic dermatology";
   "mohs surgery"; "skin cancer"].

Definition nameOf (place : Place.t) : string :=
  JS.toLowerCase
    (JS.orEmpty (match Place.displayName place with
                 | Some d => text d
                 | None => None
                 end)).

Definition websiteOf (place : Place.t) : string :=
  JS.toLowerCase (JS.orEmpty (Place.websiteUri place)).

Definition typesOf (place : Place.t) : string :=
  JS.toLowerCase
    (JS.join " " (match Place.types place with Some l => l | None => [] end)).

Definition searchText (place : Place.t) : string :=
  (nameOf place ++ " " ++ websiteOf place ++ " " ++ typesOf place)%string.

Definition isDermatologyClinic (place : Place.t) (w : World)
  : bool * World :=
  let name := nameOf place in
  let website := websiteOf place in
  let types := typesOf place in
  let searchText := searchText place in
  let ac := parseAddressComponents (componentsOf place) in
  if foreignCountry ac then (false, bumpNonUS w)
  else if invalidState ac then (false, bumpNonUS w)
  else if existsb (JS.includes searchText) excludeTerms
       then (false, bumpNonDerm w)
  else if JS.includes types "skin_care_clinic" then (true, w)
  else if existsb (JS.includes searchText) coreTerms then (true, w)
  else if existsb (fun term => JS.includes name term
                               || JS.includes website term) relatedTerms
       then (true, w)
  else
    let hasDerm := JS.includes searchText "derm" in
    let hasSkin := JS.includes name "skin" || JS.includes website "skin" in
    let medicalContext :=
      JS.includes types "doctor" || JS.includes types "health"
      || JS.includes searchText "medical"
      || JS.includes searchText "clinic" in
    if (hasDerm || hasSkin) && medicalContext then (true, w)
    else (false, bumpNonDerm w).

(** *** Place transformer *)

Definition transformPlace (cfg : Config) (place : Place.t)
  : option Clinic.t :=
  let ac := parseAddressComponents (componentsOf place) in
  if foreignCountry ac then None
  else if invalidState ac then None
  else
    let openNowOf :=
      match Place.currentOpeningHours place with
      | Some h => openNow h
      | None => None
      end in
    Some {|
      Clinic.place_id := Place.id place;
      Clinic.display_name :=
        match Place.displayName place with
        | Some d => text d
        | None => None
        end;
      Clinic.formatted_address := Place.formattedAddress place;
      Clinic.location :=
        match Place.location place with
        | Some l => Some (Clinic.mkLocation (latitude l) (longitude l))
        | None => None
        end;
      Clinic.primary_type := Place.primaryType place;
      Clinic.types :=
        match Place.types place with Some l => l | None => [] end;
      Clinic.rating := Place.rating place;
      Clinic.user_rating_count := Place.userRatingCount place;
      Clinic.current_open_now := openNowOf;
      Clinic.phone := Place.nationalPhoneNumber place;
      Clinic.international_phone_number :=
        Place.internationalPhoneNumber place;
      Clinic.opening_hours :=
        match Place.regularOpeningHours place with
        | Some h =>
            Some (Clinic.mkHours openNowOf
                    (match weekdayDescriptions h with
                     | Some l => l
                     | None => []
                     end))
        | None => None
        end;
      Clinic.website := Place.websiteUri place;
      Clinic.google_maps_uri := Place.googleMapsUri place;
      Clinic.business_status := Place.businessStatus place;
      Clinic.accessibility_options := Place.accessibilityOptions place;
      Clinic.parking_options := Place.parkingOptions place;
      Clinic.payment_options := Place.paymentOptions place;
      Clinic.price_level := Place.priceLevel place;
      Clinic.city := pa_city ac;
      Clinic.state_code := pa_state_code ac;
      Clinic.postal_code := pa_postal_code ac;
      Clinic.photos :=
        map (fun ph => mkPhoto (photo_name ph) (widthPx ph) (heightPx ph))
            (match Place.photos place with Some l => l | None => [] end);
      Clinic.last_fetched_at := today cfg
    |}.

(** *** Effects: the request budget and the external source *)

Definition M (A : Type) : Type := Script.M World A.

Definition effect (e : Event) : M unit := fun w => (Ok tt, emit e w).

(** The message of the budget error. *)
Definition limitMessage : string := "⛔ Request limit reached".

(** [Math.ceil(1000 / QPS)] *)
Definition rateDelay (cfg : Config) : Delay := Pace (QPS cfg).

(** The throw of the budget error is recorded in the history, as
    [Refused]. *)
Definition checkRequestLimit (cfg : Config) : M unit :=
  fun w =>
    if reaches (TOTAL_REQUESTS w) (MAX_REQUESTS cfg)
    then (Throw limitMessage, emit Refused w)
    else (Ok tt, emit (Sleep (rateDelay cfg)) (bumpRequests w)).

(** The external source: its answer to the call number [n] of the run
    (the value of the request counter when the call is made). *)
Record Source : Type := mkSource {
  search : N -> Request -> Response SearchBody;
  details : N -> Request -> Response Place.t
}.

(** [await fetch(...)] followed by [response.ok] and [response.json()]. *)
Definition fetchSearch (src : Source) (r : Request) : M (Response SearchBody) :=
  fun w => (Ok (search src (TOTAL_REQUESTS w) r), emit (Fetch r) w).

Definition fetchDetails (src : Source) (r : Request) : M (Response Place.t) :=
  fun w => (Ok (details src (TOTAL_REQUESTS w) r), emit (Fetch r) w).

(** [places.filter(isDermatologyClinic)] *)
Fixpoint filterDermatology (l : list Place.t) (w : World)
  : list Place.t * World :=
  match l with
  | [] => ([], w)
  | p :: l' =>
      let (keep, w1) := isDermatologyClinic p w in
      let (rest, w2) := filterDermatology l' w1 in
      (if keep then p :: rest else rest, w2)
  end.

(** [.map(transformPlace).filter(c => c !== null)] *)
Fixpoint transformAll (cfg : Config) (l : list Place.t) : list Clinic.t :=
  match l with
  | [] => []
  | p :: l' =>
      match transformPlace cfg p with
      | Some c => c :: transformAll cfg l'
      | None => transformAll cfg l'
      end
  end.

(** [(data.places || []).filter(isDermatologyClinic).map(transformPlace)
     .filter(c => c !== null)] *)
Definition clinicsOf (cfg : Config) (body : SearchBody) : M (list Clinic.t) :=
  lift (fun w =>
          let (kept, w') :=
            filterDermatology
              (match places body with Some l => l | None => [] end) w in
          (transformAll cfg kept, w')).

(** *** Sets of identifiers, in insertion order *)

Definition IdSet : Type := list (option string).

Definition idEqb (a b : option string) : bool :=
  match a, b with
  | Some x, Some y => String.eqb x y
  | None, None => true
  | _, _ => false
  end.

Definition setHas (s : IdSet) (x : option string) : bool := existsb (idEqb x) s.

Definition setAdd (x : option string) (s : IdSet) : IdSet :=
  if setHas s x then s else s ++ [x].

(** [for (const x of xs) s.add(x)] *)
Definition setAddAll (xs : list (option string)) (s : IdSet) : IdSet :=
  fold_left (fun acc x => setAdd x acc) xs s.

(** *** Strategy 1: grid-based nearby search *)

Definition nearbySearchAtPoint (cfg : Config) (src : Source)
  (lat lng : Z) (radiusMeters : N) : M (list Clinic.t) :=
  checkRequestLimit cfg ;;;
  response <- fetchSearch src (SearchNearby lat lng radiusMeters) ;;
  match response with
  | NetworkError e => throw e
  | HttpError status => throw ("Nearby search failed: " ++ decimal status)%string
  | HttpOk data => clinicsOf cfg data
  end.

(** [for (let x = lo; x <= hi; x += step)]: the values [x] takes. *)
Fixpoint sweep (fuel : nat) (x hi step : Z) : list Z :=
  match fuel with
  | O => []
  | S fuel' => if (x <=? hi)%Z then x :: sweep fuel' (x + step)%Z hi step else []
  end.

Definition axis (lo hi step : Z) : list Z :=
  sweep (Z.to_nat (hi - lo) + 1) lo hi step.

(** Steps of the lattice: 0.25 and 0.35 degrees. *)
Definition latStep : Z := 25.
Definition lngStep : Z := 35.

Definition gridOf (b : Bounds) : list (Z * Z) :=
  flat_map (fun lat => map (fun lng => (lat, lng))
                           (axis (minLng b) (maxLng b) lngStep))
           (axis (minLat b) (maxLat b) latStep).

Definition gridSearchForState (cfg : Config) (src : Source)
  (stateInfo : StateInfo) : M IdSet :=
  forOf (fun (point : Z * Z) (clinicIds : IdSet) =>
           tryCatch
             (clinics <- nearbySearchAtPoint cfg src (fst point) (snd point) 25000%N ;;
              ret (setAddAll (map Clinic.place_id clinics) clinicIds))
             (fun e =>
                if isRequestLimit e then throw e else ret clinicIds))
        (gridOf (bounds stateInfo)) [].

(** *** Strategy 2: city-level text search *)

(** The [do ... while (pageToken && pages < 3)] loop of one query. *)
Fixpoint pageLoop (fuel : nat) (cfg : Config) (src : Source) (query : string)
  (pageToken : option string) (pages : nat) (allClinics : list Clinic.t)
  : M (list Clinic.t) :=
  match fuel with
  | O => fun w => (OutOfFuel, w)
  | S fuel' =>
      checkRequestLimit cfg ;;;
      response <- fetchSearch src
                    (SearchText query
                       (if JS.truthyOpt pageToken then pageToken else None)) ;;
      match response with
      | NetworkError e => throw e
      | HttpError status => throw ("Text search failed: " ++ decimal status)%string
      | HttpOk data =>
          found <- clinicsOf cfg data ;;
          let allClinics := allClinics ++ found in
          let pages := pages + 1 in
          let pageToken := nextPageToken data in
          (if JS.truthyOpt pageToken
           then effect (Sleep (Ms (NEXT_PAGE_DELAY_MS cfg)))
           else ret tt) ;;;
          if JS.truthyOpt pageToken && (pages <? 3)
          then pageLoop fuel' cfg src query pageToken pages allClinics
          else ret allClinics
      end
  end.

(** Steps given to [pageLoop]; any larger number gives the same runs. *)
Definition pageFuel : nat := 3.

Definition queriesFor (city stateCode : string) : list string :=
  [("dermatology clinic in " ++ city ++ " " ++ stateCode)%string;
   ("dermatologist " ++ city ++ " " ++ stateCode)%string;
   ("skin clinic " ++ city ++ " " ++ stateCode)%string].

Definition textSearchCity (cfg : Config) (src : Source)
  (city stateCode : string) : M (list Clinic.t) :=
  forOf (fun query allClinics =>
           pageLoop pageFuel cfg src query None 0 allClinics)
        (queriesFor city stateCode) [].

Definition citySearchForState (cfg : Config) (src : Source)
  (stateInfo : StateInfo) : M IdSet :=
  forOf (fun (city : string) (clinicIds : IdSet) =>
           tryCatch
             (clinics <- textSearchCity cfg src city (code stateInfo) ;;
              ret (setAddAll (map Clinic.place_id clinics) clinicIds))
             (fun e =>
                if isRequestLimit e then throw e else ret clinicIds))
        (majorCities stateInfo) [].

(** *** Collection of one state, and the run *)

(** The final pass: one detail call per unique identifier. *)
Definition fetchDetailsFor (cfg : Config) (src : Source)
  (placeId : option string) (clinics : list Clinic.t) : M (list Clinic.t) :=
  tryCatch
    (checkRequestLimit cfg ;;;
     response <- fetchDetails src (PlaceDetails placeId) ;;
     match response with
     | NetworkError e => throw e
     | HttpError _ => ret clinics
     | HttpOk place =>
         keep <- lift (isDermatologyClinic place) ;;
         if keep
         then match transformPlace cfg place with
              | Some clinic => ret (clinics ++ [clinic])
              | None => ret clinics
              end
         else ret clinics
     end)
    (fun e => if isRequestLimit e then throw e else ret clinics).

(** The file system: whether [fs.mkdir] of [main] fails and whether a
    [fs.writeFile] fails, each with the message of its error ([None] when
    it succeeds); a write is told by the world it happens in and by the
    state it is for. *)
Record FileSystem : Type := mkFileSystem {
  mkdirError : option string;
  writeError : World -> string -> option string
}.

(** [await fs.writeFile(outPath, JSON.stringify(payload, null, 2))] *)
Definition writeFile (fs : FileSystem) (stateCode : string)
  (clinics : list Clinic.t) : M unit :=
  fun w =>
    match writeError fs w stateCode with
    | Some e => (Throw e, w)
    | None => (Ok tt, emit (WriteFile stateCode clinics) w)
    end.

Definition collectStateData (cfg : Config) (src : Source) (fs : FileSystem)
  (stateCode : string) : M unit :=
  match lookupState stateCode with
  | None => ret tt
  | Some stateInfo =>
      effect (Collecting stateCode) ;;;
      allClinicIds <-
        tryCatch
          (gridIds <- gridSearchForState cfg src stateInfo ;;
           ret (setAddAll gridIds []))
          (fun e => if isRequestLimit e then throw e else ret []) ;;
      allClinicIds <-
        tryCatch
          (cityIds <- citySearchForState cfg src stateInfo ;;
           ret (setAddAll cityIds allClinicIds))
          (fun e => if isRequestLimit e then throw e else ret allClinicIds) ;;
      clinics <- forOf (fetchDetailsFor cfg src) allClinicIds [] ;;
      writeFile fs stateCode clinics
  end.

(** The loop of [main] over the states to process; [break] on the budget
    error, [continue] on an unknown state or any other error. *)
Fixpoint mainLoop (cfg : Config) (src : Source) (fs : FileSystem)
  (statesToProcess : list string) : M unit :=
  match statesToProcess with
  | [] => ret tt
  | stateCode :: rest =>
      match lookupState stateCode with
      | None => mainLoop cfg src fs rest
      | Some _ =>
          fun w =>
            match collectStateData cfg src fs stateCode w with
            | (Throw e, w') =>
                if isRequestLimit e then (Ok tt, w')
                else mainLoop cfg src fs rest w'
            | (Ok _, w') => mainLoop cfg src fs rest w'
            | (OutOfFuel, w') => (OutOfFuel, w')
            end
      end
  end.

(** [main], for the states of its argument: [fs.mkdir] stands before the
    loop and outside every [try]. *)
Definition main (cfg : Config) (src : Source) (fs : FileSystem)
  (statesToProcess : list string) : M unit :=
  fun w =>
    match mkdirError fs with
    | Some e => (Throw e, w)
    | None => mainLoop cfg src fs statesToProcess w
    end.

End Comprehensive.

(* ===================================================================== *)
(** ** The batch collection script [collectAllStates.ts] *)
(* ===================================================================== *)

(** A JavaScript [Map] with string keys: the entries in insertion order.
    Setting a key that is present replaces its value where it stands. *)
Module JsMap.

Section WithValue.

Variable V : Type.

Definition t : Type := list (string * V).

Definition empty : t := [].

Fixpoint set (k : string) (v : V) (m : t) : t :=
  match m with
  | [] => [(k, v)]
  | (k', v') :: m' =>
      if String.eqb k' k then (k, v) :: m' else (k', v') :: set k v m'
  end.

Definition has (m : t) (k : string) : bool :=
  existsb (fun kv => String.eqb (fst kv) k) m.

Definition keys (m : t) : list string := map fst m.

Definition values (m : t) : list V := map snd m.

Definition size (m : t) : nat := List.length m.

End WithValue.

Arguments empty {V}.

End JsMap.

Module AllStates.

Definition RATE_LIMIT_QPS : N := 3.

(** [Math.ceil(1000 / RATE_LIMIT_QPS)] *)
Definition REQUEST_DELAY_MS : N := ((1000 + RATE_LIMIT_QPS - 1) / RATE_LIMIT_QPS)%N.

Definition MAX_REQUESTS : N := 50000.

Record StateInfo : Type := mkStateInfo {
  name : string;
  cities : list string
}.

Definition ALL_STATES : list (string * StateInfo) :=
[
  ("AL", mkStateInfo "Alabama"
     ["Birmingham"; "Montgomery"; "Mobile"; "Huntsville"; "Tuscaloosa"]);
  ("AK", mkStateInfo "Alaska"
     ["Anchorage"; "Fairbanks"; "Juneau"; "Wasilla"; "Sitka"]);
  ("AZ", mkStateInfo "Arizona"
     ["Phoenix"; "Tucson"; "Mesa"; "Chandler"; "Scottsdale"; "Glendale";
      "Tempe"]);
  ("AR", mkStateInfo "Arkansas"
     ["Little Rock"; "Fort Smith"; "Fayetteville"; "Springdale";
      "Jonesboro"]);
  ("CA", mkStateInfo "California"
     ["Los Angeles"; "San Francisco"; "San Diego"; "San Jose";
      "Sacramento"; "Oakland"; "Fresno"; "Long Beach"; "Bakersfield";
      "Anaheim"; "Santa Ana"; "Riverside"; "Stockton"; "Irvine";
      "Chula Vista"; "Fremont"; "San Bernardino"; "Modesto"; "Fontana";
      "Oxnard"; "Moreno Valley"; "Huntington Beach"; "Glendale";
      "Santa Clarita"; "Garden Grove"]);
  ("CO", mkStateInfo "Colorado"
     ["Denver"; "Colorado Springs"; "Aurora"; "Fort Collins"; "Lakewood";
      "Thornton"; "Boulder"]);
  ("CT", mkStateInfo "Connecticut"
     ["Bridgeport"; "New Haven"; "Hartford"; "Stamford"; "Waterbury"]);
  ("DE", mkStateInfo "Delaware"
     ["Wilmington"; "Dover"; "Newark"; "Middletown"; "Bear"]);
  ("FL", mkStateInfo "Florida"
     ["Jacksonville"; "Miami"; "Tampa"; "Orlando"; "St. Petersburg";
      "Hialeah"; "Tallahassee"; "Fort Lauderdale"; "Port St. Lucie";
      "Cape Coral"; "Pembroke Pines"; "Hollywood"; "Miramar";
      "Gainesville"; "Coral Springs"]);
  ("GA", mkStateInfo "Georgia"
     ["Atlanta"; "Augusta"; "Columbus"; "Savannah"; "Athens";
      "Sandy Springs"; "Macon"]);
  ("HI", mkStateInfo "Hawaii"
     ["Honolulu"; "Pearl City"; "Hilo"; "Kailua"; "Waipahu"]);
  ("ID", mkStateInfo "Idaho"
     ["Boise"; "Meridian"; "Nampa"; "Idaho Falls"; "Pocatello"]);
  ("IL", mkStateInfo "Illinois"
     ["Chicago"; "Aurora"; "Rockford"; "Joliet"; "Naperville";
      "Springfield"; "Peoria"]);
  ("IN", mkStateInfo "Indiana"
     ["Indianapolis"; "Fort Wayne"; "Evansville"; "South Bend"; "Carmel"]);
  ("IA", mkStateInfo "Iowa"
     ["Des Moines"; "Cedar Rapids"; "Davenport"; "Sioux City"; "Iowa City"]);
  ("KS", mkStateInfo "Kansas"
     ["Wichita"; "Overland Park"; "Kansas City"; "Olathe"; "Topeka"]);
  ("KY", mkStateInfo "Kentucky"
     ["Louisville"; "Lexington"; "Bowling Green"; "Owensboro"; "Covington"]);
  ("LA", mkStateInfo "Louisiana"
     ["New Orleans"; "Baton Rouge"; "Shreveport"; "Lafayette";
      "Lake Charles"]);
  ("ME", mkStateInfo "Maine"
     ["Portland"; "Lewiston"; "Bangor"; "South Portland"; "Auburn"]);
  ("MD", mkStateInfo "Maryland"
     ["Baltimore"; "Frederick"; "Rockville"; "Gaithersburg"; "Bowie"]);
  ("MA", mkStateInfo "Massachusetts"
     ["Boston"; "Worcester"; "Springfield"; "Cambridge"; "Lowell";
      "Brockton"]);
  ("MI", mkStateInfo "Michigan"
     ["Detroit"; "Grand Rapids"; "Warren"; "Sterling Heights"; "Ann Arbor";
      "Lansing"]);
  ("MN", mkStateInfo "Minnesota"
     ["Minneapolis"; "St. Paul"; "Rochester"; "Duluth"; "Bloomington"]);
  ("MS", mkStateInfo "Mississippi"
     ["Jackson"; "Gulfport"; "Southaven"; "Hattiesburg"; "Biloxi"]);
  ("MO", mkStateInfo "Missouri"
     ["Kansas City"; "St. Louis"; "Springfield"; "Columbia";
      "Independence"]);
  ("MT", mkStateInfo "Montana"
     ["Billings"; "Missoula"; "Great Falls"; "Bozeman"; "Butte"]);
  ("NE", mkStateInfo "Nebraska"
     ["Omaha"; "Lincoln"; "Bellevue"; "Grand Island"; "Kearney"]);
  ("NV", mkStateInfo "Nevada"
     ["Las Vegas"; "Henderson"; "Reno"; "North Las Vegas"; "Sparks"]);
  ("NH", mkStateInfo "New Hampshire"
     ["Manchester"; "Nashua"; "Concord"; "Derry"; "Rochester"]);
  ("NJ", mkStateInfo "New Jersey"
     ["Newark"; "Jersey City"; "Paterson"; "Elizabeth"; "Edison";
      "Trenton"]);
  ("NM", mkStateInfo "New Mexico"
     ["Albuquerque"; "Las Cruces"; "Rio Rancho"; "Santa Fe"; "Roswell"]);
  ("NY", mkStateInfo "New York"
     ["New York"; "Buffalo"; "Rochester"; "Yonkers"; "Syracuse"; "Albany";
      "New Rochelle"; "Mount Vernon"; "Schenectady"; "Utica";
      "White Plains"; "Troy"; "Niagara Falls"; "Binghamton"; "Freeport"]);
  ("NC", mkStateInfo "North Carolina"
     ["Charlotte"; "Raleigh"; "Greensboro"; "Durham"; "Winston-Salem";
      "Fayetteville"]);
  ("ND", mkStateInfo "North Dakota"
     ["Fargo"; "Bismarck"; "Grand Forks"; "Minot"; "West Fargo"]);
  ("OH", mkStateInfo "Ohio"
     ["Columbus"; "Cleveland"; "Cincinnati"; "Toledo"; "Akron"; "Dayton"]);
  ("OK", mkStateInfo "Oklahoma"
     ["Oklahoma City"; "Tulsa"; "Norman"; "Broken Arrow"; "Lawton"]);
  ("OR", mkStateInfo "Oregon"
     ["Portland"; "Salem"; "Eugene"; "Gresham"; "Hillsboro"; "Beaverton"]);
  ("PA", mkStateInfo "Pennsylvania"
     ["Philadelphia"; "Pittsburgh"; "Allentown"; "Erie"; "Reading";
      "Scranton"; "Bethlehem"; "Lancaster"; "Harrisburg"; "Altoona";
      "York"; "State College"; "Wilkes-Barre"]);
  ("RI", mkStateInfo "Rhode Island"
     ["Providence"; "Warwick"; "Cranston"; "Pawtucket"; "East Providence"]);
  ("SC", mkStateInfo "South Carolina"
     ["Charleston"; "Columbia"; "North Charleston"; "Mount Pleasant";
      "Rock Hill"]);
  ("SD", mkStateInfo "South Dakota"
     ["Sioux Falls"; "Rapid City"; "Aberdeen"; "Brookings"; "Watertown"]);
  ("TN", mkStateInfo "Tennessee"
     ["Nashville"; "Memphis"; "Knoxville"; "Chattanooga"; "Clarksville"]);
  ("TX", mkStateInfo "Texas"
     ["Houston"; "San Antonio"; "Dallas"; "Austin"; "Fort Worth";
      "El Paso"; "Arlington"; "Corpus Christi"; "Plano"; "Laredo";
      "Lubbock"; "Garland"; "Irving"; "Amarillo"; "Grand Prairie";
      "Brownsville"; "McKinney"; "Frisco"; "Pasadena"; "Mesquite"]);
  ("UT", mkStateInfo "Utah"
     ["Salt Lake City"; "West Valley City"; "Provo"; "West Jordan"; "Orem"]);
  ("VT", mkStateInfo "Vermont"
     ["Burlington"; "South Burlington"; "Rutland"; "Barre"; "Montpelier"]);
  ("VA", mkStateInfo "Virginia"
     ["Virginia Beach"; "Norfolk"; "Chesapeake"; "Richmond";
      "Newport News"; "Alexandria"]);
  ("WA", mkStateInfo "Washington"
     ["Seattle"; "Spokane"; "Tacoma"; "Vancouver"; "Bellevue"; "Kent";
      "Everett"]);
  ("WV", mkStateInfo "West Virginia"
     ["Charleston"; "Huntington"; "Morgantown"; "Parkersburg"; "Wheeling"]);
  ("WI", mkStateInfo "Wisconsin"
     ["Milwaukee"; "Madison"; "Green Bay"; "Kenosha"; "Racine"]);
  ("WY", mkStateInfo "Wyoming"
     ["Cheyenne"; "Casper"; "Laramie"; "Gillette"; "Rock Springs"])
].

(** [ALL_STATES[stateCode]] *)
Definition lookupState (stateCode : string) : option StateInfo :=
  match find (fun kv => String.eqb (fst kv) stateCode) ALL_STATES with
  | Some kv => Some (snd kv)
  | None => None
  end.

Module Clinic.
Record t : Type := make {
  id : string;
  name : string;
  formattedAddress : option string;
  location : option LatLng;
  phone : option string;
  website : option string;
  rating : option Q;
  userRatingCount : option nat;
  types : option (list string);
  businessStatus : option string
}.
End Clinic.

(** What the script does to the outside, newest first.  [Refused] marks
    the throw of [makeRequest]. *)
Inductive Event : Type :=
| Sleep (ms : N)
| Fetch (textQuery : string)
| Refused
| Collecting (stateCode : string)
| WriteFile (stateCode : string) (clinics : list Clinic.t).

(** The [stats] object and the history of effects. *)
Record World : Type := mkWorld {
  totalRequests : N;
  rejectedNonUS : N;
  rejectedNonDerm : N;
  statesCompleted : list string;
  statesFailed : list string;
  trace : list Event
}.

Definition initialWorld : World := mkWorld 0%N 0%N 0%N [] [] [].

Definition bumpRequests (w : World) : World :=
  mkWorld (N.succ (totalRequests w)) (rejectedNonUS w) (rejectedNonDerm w)
          (statesCompleted w) (statesFailed w) (trace w).

Definition bumpNonUS (w : World) : World :=
  mkWorld (totalRequests w) (N.succ (rejectedNonUS w)) (rejectedNonDerm w)
          (statesCompleted w) (statesFailed w) (trace w).

Definition bumpNonDerm (w : World) : World :=
  mkWorld (totalRequests w) (rejectedNonUS w) (N.succ (rejectedNonDerm w))
          (statesCompleted w) (statesFailed w) (trace w).

Definition pushCompleted (stateCode : string) (w : World) : World :=
  mkWorld (totalRequests w) (rejectedNonUS w) (rejectedNonDerm w)
          (statesCompleted w ++ [stateCode]) (statesFailed w) (trace w).

Definition pushFailed (stateCode : string) (w : World) : World :=
  mkWorld (totalRequests w) (rejectedNonUS w) (rejectedNonDerm w)
          (statesCompleted w) (statesFailed w ++ [stateCode]) (trace w).

Definition emit (e : Event) (w : World) : World :=
  mkWorld (totalRequests w) (rejectedNonUS w) (rejectedNonDerm w)
          (statesCompleted w) (statesFailed w) (e :: trace w).

Definition M (A : Type) : Type := Script.M World A.

Definition effect (e : Event) : M unit := fun w => (Ok tt, emit e w).

Definition update (f : World -> World) : M unit := fun w => (Ok tt, f w).

Definition limitMessage : string :=
  ("Request limit reached (" ++ decimal MAX_REQUESTS ++ ")")%string.

Definition makeRequest : M unit :=
  fun w =>
    let w := bumpRequests w in
    if (MAX_REQUESTS <=? totalRequests w)%N
    then (Throw limitMessage, emit Refused w)
    else (Ok tt, emit (Sleep REQUEST_DELAY_MS) w).

Definition isDermatologyClinic (name : string) : bool :=
  let lowerName := JS.toLowerCase name in
  JS.includes lowerName "derm" || JS.includes lowerName "skin"
  || JS.includes lowerName "derma".

(** [\d{5}\b] at the start of [s]. *)
Definition fiveDigitsAndBoundary (s : string) : bool :=
  match s with
  | String d1 (String d2 (String d3 (String d4 (String d5 rest)))) =>
      JS.isDigit d1 && JS.isDigit d2 && JS.isDigit d3 && JS.isDigit d4
      && JS.isDigit d5
      && match rest with
         | EmptyString => true
         | String c _ => negb (JS.isWord c)
         end
  | _ => false
  end.

(** [\s+\d{5}\b] at the start of [s]. *)
Definition spacesAndZip (s : string) : bool :=
  JS.startsWithSpace s && fiveDigitsAndBoundary (JS.trimStart s).

(** [/\b[A-Z]{2}\s+\d{5}\b/.test(s)], where [prev] tells whether the
    character before [s] is a word character. *)
Fixpoint stateZipFrom (prev : bool) (s : string) : bool :=
  match s with
  | EmptyString => false
  | String c s' =>
      (negb prev
       && match s with
          | String u1 (String u2 rest) =>
              JS.isUpper u1 && JS.isUpper u2 && spacesAndZip rest
          | _ => false
          end)
      || stateZipFrom (JS.isWord c) s'
  end.

Definition isUSAddress (address : option string) : bool :=
  match address with
  | None => false
  | Some address =>
      if negb (JS.truthy address) then false
      else
        let lowerAddress := JS.toLowerCase address in
        let hasUSA := JS.includes lowerAddress "usa"
                      || JS.includes lowerAddress "united states" in
        let hasStateZip := stateZipFrom false address in
        let stateNames :=
          map (fun kv => JS.toLowerCase (name (snd kv))) ALL_STATES in
        let hasStateName := existsb (JS.includes lowerAddress) stateNames in
        hasUSA || hasStateZip || hasStateName
  end.

Definition parseClinicFromPlace (place : Place.t) (w : World)
  : option Clinic.t * World :=
  match Place.id place with
  | None => (None, w)
  | Some placeId =>
      if negb (JS.truthy placeId) then (None, w)
      else
        let name := JS.orEmpty (match Place.displayName place with
                                | Some d => text d
                                | None => None
                                end) in
        let address := Place.formattedAddress place in
        if negb (isDermatologyClinic name) then (None, bumpNonDerm w)
        else if negb (isUSAddress address) then (None, bumpNonUS w)
        else
          (Some {| Clinic.id := placeId;
                   Clinic.name := name;
                   Clinic.formattedAddress := address;
                   Clinic.location := Place.location place;
                   Clinic.phone := Place.nationalPhoneNumber place;
                   Clinic.website := Place.websiteUri place;
                   Clinic.rating := Place.rating place;
                   Clinic.userRatingCount := Place.userRatingCount place;
                   Clinic.types := Place.types place;
                   Clinic.businessStatus := Place.businessStatus place |},
           w)
  end.

(** The aggregator:
    [places.forEach(place => { const clinic = parseClinicFromPlace(place);
                               if (clinic) clinics.set(clinic.id, clinic) })] *)
Fixpoint addPlaces (places : list Place.t) (clinics : JsMap.t Clinic.t)
  (w : World) : JsMap.t Clinic.t * World :=
  match places with
  | [] => (clinics, w)
  | place :: rest =>
      match parseClinicFromPlace place w with
      | (Some clinic, w') =>
          addPlaces rest (JsMap.set (Clinic.id clinic) clinic clinics) w'
      | (None, w') => addPlaces rest clinics w'
      end
  end.

(** The external source: its answer to a text search, given the value of
    the request counter when the call is made. *)
Definition Source : Type := N -> string -> Response SearchBody.

Definition fetchSearch (src : Source) (textQuery : string)
  : M (Response SearchBody) :=
  fun w => (Ok (src (totalRequests w) textQuery), emit (Fetch textQuery) w).

Definition queries : list string := ["dermatology"; "dermatologist"; "skin doctor"].

(** One query for one city. *)
Definition runQuery (src : Source) (stateCode city query : string)
  (clinics : JsMap.t Clinic.t) : M (JsMap.t Clinic.t) :=
  makeRequest ;;;
  tryCatch
    (response <- fetchSearch src
                   (query ++ " in " ++ city ++ " " ++ stateCode)%string ;;
     match response with
     | NetworkError e => throw e
     | HttpError _ => ret clinics
     | HttpOk data =>
         lift (addPlaces (match places data with Some l => l | None => [] end)
                         clinics)
     end)
    (fun _ => ret clinics).

Definition collectStateData (src : Source) (stateCode : string)
  (stateInfo : StateInfo) : M bool :=
  effect (Collecting stateCode) ;;;
  clinics <-
    forOf (fun city clinics =>
             forOf (runQuery src stateCode city) queries clinics)
          (cities stateInfo) JsMap.empty ;;
  let clinicArray := JsMap.values clinics in
  if (List.length clinicArray =? 0)%nat then ret false
  else effect (WriteFile stateCode clinicArray) ;;; ret true.

(** The loop of [main] over the states to process. *)
Fixpoint mainLoop (src : Source) (statesToProcess : list string) : M unit :=
  match statesToProcess with
  | [] => ret tt
  | stateCode :: rest =>
      match lookupState stateCode with
      | None => update (pushFailed stateCode) ;;; mainLoop src rest
      | Some stateInfo =>
          tryCatch
            (success <- collectStateData src stateCode stateInfo ;;
             if success then update (pushCompleted stateCode)
             else update (pushFailed stateCode))
            (fun _ => update (pushFailed stateCode)) ;;;
          mainLoop src rest
      end
  end.

End AllStates.

(* ===================================================================== *)
(** ** The clinic list page: search, location search, filters and sort *)
(* ===================================================================== *)

Module Client.

(** The record type [Clinic] of the page.  Its declaration is not part of
    the sources at hand: the fields are the ones the page reads.  The
    records come from the data of the collection scripts, where
    [location] is [null] for a place without coordinates; the page reads
    it without a check.  [distance] is the derived field that the
    location search adds. *)
Module Clinic.
Record Location : Type := mkLocation { lat : Q; lng : Q }.
Record Hours : Type := mkHours { open_now : option bool }.
Record t : Type := make {
  place_id : string;
  display_name : option string;
  formatted_address : option string;
  city : option string;
  state_code : option string;
  postal_code : option string;
  types : option (list string);
  primary_type : option string;
  location : option Location;
  rating : option Q;
  user_rating_count : option nat;
  website : option string;
  phone : option string;
  accessibility_options : option Flags;
  parking_options : option Flags;
  current_open_now : option bool;
  opening_hours : option Hours;
  distance : option Q
}.

(** [{ ...clinic, distance: d }] *)
Definition withDistance (clinic : t) (d : Q) : t :=
  make (place_id clinic) (display_name clinic) (formatted_address clinic)
       (city clinic) (state_code clinic) (postal_code clinic) (types clinic)
       (primary_type clinic) (location clinic) (rating clinic)
       (user_rating_count clinic) (website clinic) (phone clinic)
       (accessibility_options clinic) (parking_options clinic)
       (current_open_now clinic) (opening_hours clinic) (Some d).
End Clinic.

Record FilterOptions : Type := mkFilterOptions {
  rating_min : option Q;
  has_website : option bool;
  has_phone : option bool;
  wheelchair_accessible : option bool;
  free_parking : option bool;
  open_now : option bool;
  states : option (list string);
  sort_by : option string;
  sort_order : option string
}.

Definition noFilters : FilterOptions :=
  mkFilterOptions None None None None None None None None None.

(** *** Arrays as objects: a store of arrays and references into it *)

Definition Ref : Type := nat.

Definition Heap : Type := list (list Clinic.t).

Definition read (h : Heap) (r : Ref) : list Clinic.t := nth r h [].

(** A new array. *)
Definition alloc (l : list Clinic.t) (h : Heap) : Ref * Heap :=
  (List.length h, h ++ [l]).

(** The array at [r] replaced in place. *)
Fixpoint write (r : Ref) (l : list Clinic.t) (h : Heap) : Heap :=
  match h, r with
  | [], _ => []
  | _ :: h', O => l :: h'
  | x :: h', S r' => x :: write r' l h'
  end.

(** [Array.prototype.sort] on a list: a stable insertion sort driven by
    the sign of the comparator.  For a consistent comparator every stable
    sort gives this list. *)
Definition isPositive (q : Q) : bool := (0 <? Qnum q)%Z.

Fixpoint insertBy {A} (cmp : A -> A -> Q) (x : A) (l : list A) : list A :=
  match l with
  | [] => [x]
  | y :: l' => if isPositive (cmp x y) then y :: insertBy cmp x l' else x :: l
  end.

Definition jsSort {A} (cmp : A -> A -> Q) (l : list A) : list A :=
  fold_right (insertBy cmp) [] l.

(** [arr.filter(p)] and [[...arr]] each make a new array; [arr.sort(cmp)]
    sorts [arr] itself and returns it. *)
Definition arrayFilter (p : Clinic.t -> bool) (r : Ref) (h : Heap) : Ref * Heap :=
  alloc (filter p (read h r)) h.

Definition arrayCopy (r : Ref) (h : Heap) : Ref * Heap := alloc (read h r) h.

Definition arraySort (cmp : Clinic.t -> Clinic.t -> Q) (r : Ref) (h : Heap)
  : Ref * Heap :=
  (r, write r (jsSort cmp (read h r)) h).

(** The state of the page component. *)
Record State : Type := mkState {
  heap : Heap;
  clinics : Ref;
  filteredClinics : Ref;
  filters : FilterOptions
}.

(** [setFilteredClinics(r)] in the store [h]. *)
Definition setFilteredClinics (r : Ref) (h : Heap) (st : State) : State :=
  mkState h (clinics st) r (filters st).

(** The end of [loadClinics]: both state variables get the loaded array. *)
Definition loadClinics (loadedClinics : list Clinic.t) (st : State) : State :=
  let (r, h) := alloc loadedClinics (heap st) in
  mkState h r r (filters st).

(** The clinics on display. *)
Definition displayed (st : State) : list Clinic.t :=
  read (heap st) (filteredClinics st).

(** The loaded clinics. *)
Definition source (st : State) : list Clinic.t := read (heap st) (clinics st).

(** [setFilters(f)], the handler that the two filter panels are given. *)
Definition setFilters (f : FilterOptions) (st : State) : State :=
  mkState (heap st) (clinics st) (filteredClinics st) f.

(** *** Text search *)

Definition nl : string := String "010" EmptyString.

(** [o === s] for a possibly missing string [o]. *)
Definition strictEq (o : option string) (s : string) : bool :=
  match o with
  | Some x => String.eqb x s
  | None => false
  end.

Section TextSearch.

(** [String.prototype.toLowerCase] of the platform, on every string. *)
Variable toLowerCase : string -> string.

Definition searchableText (clinic : Clinic.t) : string :=
  toLowerCase
    (nl ++ "        " ++ JS.orEmpty (Clinic.display_name clinic) ++ " "
     ++ nl ++ "        " ++ JS.orEmpty (Clinic.formatted_address clinic) ++ " "
     ++ nl ++ "        " ++ JS.orEmpty (Clinic.city clinic)
     ++ nl ++ "        " ++ JS.orEmpty (Clinic.state_code clinic)
     ++ nl ++ "        "
     ++ match Clinic.types clinic with
        | Some l => JS.join " " l
        | None => ""
        end
     ++ nl ++ "        " ++ JS.orEmpty (Clinic.primary_type clinic)
     ++ nl ++ "      ")%string.

Definition handleSearch (query : string) (st : State) : State :=
  if negb (JS.truthy query) || String.eqb (JS.trim query) ""
  then setFilteredClinics (clinics st) (heap st) st
  else
    let trimmedQuery := JS.trim query in
    let lowerQuery := toLowerCase trimmedQuery in
    let isZipCode := JS.isFiveDigits trimmedQuery in
    let (filtered, h) :=
      arrayFilter
        (fun clinic =>
           if isZipCode then strictEq (Clinic.postal_code clinic) trimmedQuery
           else JS.includes (searchableText clinic) lowerQuery)
        (clinics st) (heap st) in
    setFilteredClinics filtered h st.

End TextSearch.

(** *** Location search *)

Section LocationSearch.

(** Modelled from the spec: [calculateDistance] of [lib/utils] is not part
    of the sources at hand; the spec has it compute the great-circle
    distance between two points.  It is a parameter here, with its result
    among the numbers that the comparator subtracts. *)
Variable calculateDistance : Clinic.Location -> Clinic.Location -> Q.

(** [a.distance - b.distance] *)
Definition byDistance (a b : Clinic.t) : Q :=
  match Clinic.distance a, Clinic.distance b with
  | Some x, Some y => x - y
  | _, _ => 0
  end.

(** The callback of [clinics.map] over the whole array: reading
    [clinic.location.lat] of a record whose [location] is [null] throws a
    [TypeError], and then there is no array. *)
Fixpoint withDistances (lat lng : Q) (l : list Clinic.t)
  : option (list Clinic.t) :=
  match l with
  | [] => Some []
  | clinic :: rest =>
      match Clinic.location clinic with
      | None => None
      | Some location =>
          match withDistances lat lng rest with
          | Some rest' =>
              Some (Clinic.withDistance clinic
                      (calculateDistance
                         (Clinic.mkLocation lat lng)
                         (Clinic.mkLocation (Clinic.lat location)
                                            (Clinic.lng location)))
                    :: rest')
          | None => None
          end
      end
  end.

(** [None] when the handler throws: no state variable is set then. *)
Definition handleLocationSearch (lat lng : Q) (st : State) : option State :=
  match withDistances lat lng (read (heap st) (clinics st)) with
  | None => None
  | Some l =>
      let (clinicsWithDistance, h) := alloc l (heap st) in
      let (sorted, h) := arraySort byDistance clinicsWithDistance h in
      Some (setFilteredClinics sorted h st)
  end.

End LocationSearch.

(** *** Filters and sort *)

Definition isTrue (o : option bool) : bool :=
  match o with Some true => true | _ => false end.

(** [group?.[key] === true] *)
Fixpoint flagOf (key : string) (flags : Flags) : option bool :=
  match flags with
  | [] => None
  | (k, v) :: rest => if String.eqb k key then Some v else flagOf key rest
  end.

Definition flagIsTrue (group : option Flags) (key : string) : bool :=
  match group with
  | Some flags => isTrue (flagOf key flags)
  | None => false
  end.

(** [x || 0] *)
Definition orZero (o : option Q) : Q := match o with Some q => q | None => 0 end.

Definition orZeroNat (o : option nat) : nat :=
  match o with Some n => n | None => O end.

Definition Qltb (a b : Q) : bool := negb (Qle_bool b a).

(** [s && s.trim() !== ''] *)
Definition nonBlank (o : option string) : bool :=
  match o with
  | Some s => JS.truthy s && negb (String.eqb (JS.trim s) "")
  | None => false
  end.

(** The two bodies of the comparator, for keys ordered by [ltb]. *)
Definition compareKeys {K} (ltb : K -> K -> bool) (asc : bool) (aVal bVal : K)
  : Q :=
  if asc
  then if ltb aVal bVal then -1 else if ltb bVal aVal then 1 else 0
  else if ltb bVal aVal then -1 else if ltb aVal bVal then 1 else 0.

Section FiltersAndSort.

(** [String.prototype.toLowerCase] of the platform, on every string. *)
Variable toLowerCase : string -> string.

Definition sortComparator (filters : FilterOptions) (a b : Clinic.t) : Q :=
  let asc := strictEq (sort_order filters) "asc" in
  match sort_by filters with
  | Some key =>
      if String.eqb key "rating"
      then compareKeys Qltb asc (orZero (Clinic.rating a))
                                (orZero (Clinic.rating b))
      else if String.eqb key "reviews"
      then compareKeys Nat.ltb asc (orZeroNat (Clinic.user_rating_count a))
                                   (orZeroNat (Clinic.user_rating_count b))
      else if String.eqb key "name"
      then compareKeys String.ltb asc
             (toLowerCase (JS.orEmpty (Clinic.display_name a)))
             (toLowerCase (JS.orEmpty (Clinic.display_name b)))
      else 0
  | None => 0
  end.

(** [if (cond) filtered = filtered.filter(p)] *)
Definition filterWhen (cond : bool) (p : Clinic.t -> bool)
  (cur : Ref * Heap) : Ref * Heap :=
  if cond then arrayFilter p (fst cur) (snd cur) else cur.

Definition applyFilters (st : State) : State :=
  let filters := filters st in
  let cur := arrayCopy (clinics st) (heap st) in
  let cur :=
    filterWhen
      (match rating_min filters with
       | Some m => negb (Qeq_bool m 0)
       | None => false
       end)
      (fun c => Qle_bool (orZero (rating_min filters))
                         (orZero (Clinic.rating c)))
      cur in
  let cur := filterWhen (isTrue (has_website filters))
               (fun c => nonBlank (Clinic.website c)) cur in
  let cur := filterWhen (isTrue (has_phone filters))
               (fun c => nonBlank (Clinic.phone c)) cur in
  let cur := filterWhen (isTrue (wheelchair_accessible filters))
               (fun c => flagIsTrue (Clinic.accessibility_options c)
                                    "wheelchair_accessible_entrance") cur in
  let cur := filterWhen (isTrue (free_parking filters))
               (fun c => flagIsTrue (Clinic.parking_options c)
                                    "free_parking_lot") cur in
  let cur := filterWhen (isTrue (open_now filters))
               (fun c => isTrue (Clinic.current_open_now c)
                         || isTrue (match Clinic.opening_hours c with
                                    | Some h => Clinic.open_now h
                                    | None => None
                                    end)) cur in
  let cur :=
    filterWhen
      (match states filters with
       | Some l => (0 <? List.length l)%nat
       | None => false
       end)
      (fun c => match Clinic.state_code c, states filters with
                | Some s, Some l => JS.truthy s && JS.arrayIncludes l s
                | _, _ => false
                end) cur in
  let cur :=
    if JS.truthyOpt (sort_by filters)
    then arraySort (sortComparator filters) (fst cur) (snd cur)
    else cur in
  setFilteredClinics (fst cur) (snd cur) st.

End FiltersAndSort.

End Client.

(* ===================================================================== *)
(** ** Sample records *)
(* ===================================================================== *)

Module Samples.

Definition component (type short long : string) : AddressComponent :=
  mkAddressComponent [type; "political"] (Some short) (Some long).

(** A place with an identifier, a name, category tags and an address made
    of a state and a country. *)
Definition place (ident name : string) (tags : list string)
  (state stateName country countryName : string) : Place.t :=
  Place.make (Some ident) (Some (mkLocalizedText (Some name))) None
    (Some [component "administrative_area_level_1" state stateName;
           component "country" country countryName])
    None None (Some tags) None None None None None None None None None
    None None None None None.

(** A dermatology practice in Seattle, Washington. *)
Definition seattleClinic : Place.t :=
  place "ChIJ-seattle-derm" "Seattle Dermatology Clinic" ["doctor"; "health"]
        "WA" "Washington" "US" "United States".

(** A Californian place whose name has a core term and an exclusion term,
    tagged [skin_care_clinic]. *)
Definition dermSpaResort : Place.t :=
  place "ChIJ-derm-spa" "Glow Dermatology & Spa Resort"
        ["skin_care_clinic"; "health"]
        "CA" "California" "US" "United States".

(** A dermatology practice in Belem, state of Para ("PA"), Brazil. *)
Definition belemClinic : Place.t :=
  place "ChIJ-belem-derm" "Clinica Dermatologica Belem" ["doctor"]
        "PA" "Para" "BR" "Brazil".

(** A Californian dermatology practice. *)
Definition pasadenaClinic : Place.t :=
  place "ChIJ-pasadena" "Pasadena Skin Clinic" ["doctor"]
        "CA" "California" "US" "United States".

Definition cfg : Comprehensive.Config :=
  Comprehensive.mkConfig (Comprehensive.Finite 3) (Comprehensive.Finite 5000)
    (Comprehensive.Finite 1200) "2025-01-15".

End Samples.

(* ===================================================================== *)
(** ** Vocabulary of the statements *)
(* ===================================================================== *)


(** The no-break space U+00A0 and the ideographic space U+3000, in
    UTF-8. *)
Definition nbsp : string := String "194" (String "160" EmptyString).

Definition ideographicSpace : string :=
  String "227" (String "128" (String "128" EmptyString)).

Module ClientSamples.

Definition clinic (ident name address zip : string) (lat lng : Q)
  (stars : option Q) : Client.Clinic.t :=
  Client.Clinic.make ident (Some name) (Some address) (Some "Los Angeles")
    (Some "CA") (Some zip) (Some ["doctor"; "health"]) (Some "doctor")
    (Some (Client.Clinic.mkLocation lat lng)) stars (Some 12%nat)
    (Some "https://example.org") (Some "(310) 555-0100") None None None None
    None.

(** In Beverly Hills, postal code 90210. *)
Definition beverlyHills : Client.Clinic.t :=
  clinic "c-1" "Beverly Hills Dermatology"
         "436 N Bedford Dr, Beverly Hills, CA 90210" "90210"
         (34 # 1) (-118 # 1) (Some (9 # 2)).

(** Downtown, postal code 90012; its name and its address contain the
    digits 90210. *)
Definition downtown : Client.Clinic.t :=
  clinic "c-2" "Skin Clinic 90210 Downtown"
         "90210 W 1st St, Los Angeles, CA 90012" "90012"
         (35 # 1) (-117 # 1) (Some (4 # 1)).

(** A page state whose two state variables hold two different arrays. *)
Definition page : Client.State :=
  Client.mkState [[downtown; beverlyHills]; [downtown]] 0 1 Client.noFilters.

(** A record as the comprehensive script writes it for a place without
    coordinates: its [location] is [null]. *)
Definition unlocated : Client.Clinic.t :=
  Client.Clinic.make "c-3" (Some "Harbor Skin Center")
    (Some "12 Harbor Way, San Pedro, CA 90731") (Some "San Pedro")
    (Some "CA") (Some "90731") (Some ["doctor"; "health"]) (Some "doctor")
    None (Some (5 # 1)) (Some 3%nat) None None None None None None None.

(** A page that has loaded three records, one of them without
    coordinates, and displays them. *)
Definition pageOfThree : Client.State :=
  Client.mkState [[downtown; unlocated; beverlyHills]] 0 0 Client.noFilters.

End ClientSamples.

(** The handlers that the page defines over its list: the text search and
    the location search, which the search bar calls, and [applyFilters],
    which the page defines and calls nowhere. *)
Inductive Action : Type :=
| TextSearch (query : string)
| LocationSearch (lat lng : Q)
| ApplyFilters.

(** The state of the page after a handler has run; a handler that throws
    leaves the state as it was. *)
Definition perform
  (toLowerCase : string -> string)
  (calculateDistance : Client.Clinic.Location -> Client.Clinic.Location -> Q)
  (action : Action) (st : Client.State) : Client.State :=
  match action with
  | TextSearch query => Client.handleSearch toLowerCase query st
  | LocationSearch lat lng =>
      match Client.handleLocationSearch calculateDistance lat lng st with
      | Some st' => st'
      | None => st
      end
  | ApplyFilters => Client.applyFilters toLowerCase st
  end.

(** A text search that takes the first branch of [handleSearch]. *)
Definition isBlankSearch (action : Action) : bool :=
  match action with
  | TextSearch query => String.eqb (JS.trim query) ""
  | _ => false
  end.

(** The record has coordinates. *)
Definition hasLocation (clinic : Client.Clinic.t) : bool :=
  match Client.Clinic.location clinic with
  | Some _ => true
  | None => false
  end.

(** A location search over a loaded list that holds a record without
    coordinates. *)
Definition isFailedLocationSearch (action : Action) (st : Client.State)
  : bool :=
  match action with
  | LocationSearch _ _ => negb (forallb hasLocation (Client.source st))
  | _ => false
  end.

(** Both records carry a distance, and the first is not farther than the
    second. *)
Definition distanceLe (a b : Client.Clinic.t) : Prop :=
  match Client.Clinic.distance a, Client.Clinic.distance b with
  | Some x, Some y => (x <= y)%Q
  | _, _ => False
  end.

(** The record [clinic] with its distance from the point [(lat, lng)]. *)
Definition located
  (calculateDistance : Client.Clinic.Location -> Client.Clinic.Location -> Q)
  (lat lng : Q) (clinic : Client.Clinic.t) : Client.Clinic.t :=
  match Client.Clinic.location clinic with
  | Some location =>
      Client.Clinic.withDistance clinic
        (calculateDistance (Client.Clinic.mkLocation lat lng) location)
  | None => clinic
  end.

(** The distance field of the record is the distance from the point
    [(lat, lng)] to the coordinates of the record. *)
Definition distanceFrom
  (calculateDistance : Client.Clinic.Location -> Client.Clinic.Location -> Q)
  (lat lng : Q) (clinic : Client.Clinic.t) : Prop :=
  exists location,
    Client.Clinic.location clinic = Some location
    /\ Client.Clinic.distance clinic
       = Some (calculateDistance (Client.Clinic.mkLocation lat lng) location).

(** A distance function to run examples with; any other would do. *)
Definition taxicab (a b : Client.Clinic.Location) : Q :=
  Qabs (Client.Clinic.lat a - Client.Clinic.lat b)
  + Qabs (Client.Clinic.lng a - Client.Clinic.lng b).

(** [cur] is an array made after the store [h0], in a store that still
    holds every array of [h0] as it was. *)
Definition madeAfter (h0 : Client.Heap) (cur : Client.Ref * Client.Heap)
  : Prop :=
  List.length h0 <= fst cur
  /\ fst cur < List.length (snd cur)
  /\ forall r, r < List.length h0 ->
               Client.read (snd cur) r = Client.read h0 r.

(** A script keeps the invariant [I] of the world, however it ends, and
    returns values that satisfy [P]. *)
Definition keeps {W A} (I : W -> Prop) (P : A -> Prop) (m : Script.M W A)
  : Prop :=
  forall w, I w ->
    I (snd (m w)) /\ match fst (m w) with Ok a => P a | _ => True end.

(** Every entry of the map is filed under the identifier of its record. *)
Definition keyedById (m : JsMap.t AllStates.Clinic.t) : Prop :=
  Forall (fun kv => fst kv = AllStates.Clinic.id (snd kv)) m.

(** The map holds one record per identifier. *)
Definition oneRecordPerId (m : JsMap.t AllStates.Clinic.t) : Prop :=
  NoDup (JsMap.keys m) /\ keyedById m.

(** Every file written so far holds no two records with the same
    identifier. *)
Definition filesUnique (w : AllStates.World) : Prop :=
  forall stateCode clinics,
    In (AllStates.WriteFile stateCode clinics) (AllStates.trace w) ->
    NoDup (map AllStates.Clinic.id clinics).

(** A source that answers every text search with the same places. *)
Definition constantSource (found : list Place.t) : AllStates.Source :=
  fun _ _ => HttpOk (mkSearchBody (Some found) None).

(** A place as the text search returns it to the batch script. *)
Definition listing (ident name address : string) : Place.t :=
  Place.make (Some ident) (Some (mkLocalizedText (Some name))) (Some address)
    None None None None None None None None None None None None None
    None None None None None.

Definition twiceFound : list Place.t :=
  [listing "p-1" "Austin Dermatology" "1 Main St, Austin, TX 78701, USA";
   listing "p-2" "Hill Country Skin Care" "2 Oak St, Austin, TX 78702, USA";
   listing "p-1" "Austin Dermatology" "1 Main St, Austin, TX 78701, USA"].

(** The number of calls to the external source in a history. *)
Fixpoint fetches (t : list Comprehensive.Event) : nat :=
  match t with
  | [] => O
  | Comprehensive.Fetch _ :: rest => S (fetches rest)
  | _ :: rest => fetches rest
  end.

(** In a history (newest first), every text search that carries a page
    token comes right after the pacing sleep of its request, which comes
    right after a sleep of [NEXT_PAGE_DELAY_MS]. *)
Fixpoint continuationsDelayed (cfg : Comprehensive.Config)
  (t : list Comprehensive.Event) : Prop :=
  match t with
  | [] => True
  | Comprehensive.Fetch (Comprehensive.SearchText _ (Some _)) :: rest =>
      match rest with
      | Comprehensive.Sleep pace :: Comprehensive.Sleep delay :: _ =>
          pace = Comprehensive.rateDelay cfg
          /\ delay = Comprehensive.Ms (Comprehensive.NEXT_PAGE_DELAY_MS cfg)
      | _ => False
      end
      /\ continuationsDelayed cfg rest
  | _ :: rest => continuationsDelayed cfg rest
  end.

(** A source whose every answer to a search announces a further page. *)
Definition endlessSource : Comprehensive.Source :=
  Comprehensive.mkSource
    (fun _ _ => HttpOk (mkSearchBody (Some [Samples.pasadenaClinic])
                                     (Some "next"%string)))
    (fun _ _ => HttpError 404).

(** A file system where nothing fails. *)
Definition workingFileSystem : Comprehensive.FileSystem :=
  Comprehensive.mkFileSystem None (fun _ _ => None).

(** The Pasadena practice as listed under a former identifier. *)
Definition pasadenaFormerListing : Place.t :=
  Samples.place "ChIJ-pasadena-former" "Pasadena Skin Clinic" ["doctor"]
                "CA" "California" "US" "United States".

(** A source that lists the Pasadena practice under its two identifiers in
    every search, and that answers a details call for either identifier
    with the current listing, as the service does for an identifier that
    it has replaced. *)
Definition mergedListingsSource : Comprehensive.Source :=
  Comprehensive.mkSource
    (fun _ _ => HttpOk (mkSearchBody
                          (Some [Samples.pasadenaClinic; pasadenaFormerListing])
                          None))
    (fun _ _ => HttpOk Samples.pasadenaClinic).

(** The files of a history, oldest first: the state of each file and the
    identifiers of its records. *)
Fixpoint comprehensiveFiles (t : list Comprehensive.Event)
  : list (string * list (option string)) :=
  match t with
  | [] => []
  | Comprehensive.WriteFile stateCode clinics :: rest =>
      comprehensiveFiles rest
      ++ [(stateCode, map Comprehensive.Clinic.place_id clinics)]
  | _ :: rest => comprehensiveFiles rest
  end.

(** The identifiers of the details calls of a history, oldest first. *)
Fixpoint detailCalls (t : list Comprehensive.Event)
  : list (option string) :=
  match t with
  | [] => []
  | Comprehensive.Fetch (Comprehensive.PlaceDetails placeId) :: rest =>
      detailCalls rest ++ [placeId]
  | _ :: rest => detailCalls rest
  end.

(** A source that is down: every call fails with status 503. *)
Definition downSource : AllStates.Source := fun _ _ => HttpError 503.

(** The command line [--states=CA,CA,...,CA,AL], with "CA" 667 times. *)
Definition californiaThenAlabama : list string :=
  repeat "CA"%string 667 ++ ["AL"%string].

(** In a history (newest first), a refusal of the budget, if there is one,
    is the last thing that happened, and the only refusal. *)
Definition refusedLast (t : list Comprehensive.Event) : Prop :=
  In Comprehensive.Refused t ->
  exists t', t = Comprehensive.Refused :: t' /\ ~ In Comprehensive.Refused t'.

(** From a world without a refusal, the script never runs out of steps,
    and if the budget refuses a call then the script ends right there, by
    throwing the budget error. *)
Definition haltsOnLimit {A} (m : Comprehensive.M A) : Prop :=
  forall w, ~ In Comprehensive.Refused (Comprehensive.trace w) ->
    fst (m w) <> OutOfFuel
    /\ (In Comprehensive.Refused (Comprehensive.trace (snd (m w))) ->
        (exists e, fst (m w) = Throw e /\ isRequestLimit e = true)
        /\ exists t', Comprehensive.trace (snd (m w))
                      = Comprehensive.Refused :: t'
                      /\ ~ In Comprehensive.Refused t').

(** A handler that throws the budget error again. *)
Definition rethrowsLimit {A} (handler : string -> Comprehensive.M A) : Prop :=
  forall e, isRequestLimit e = true -> handler e = throw e.

(** The calls of a history are all counted, and the ceiling allowed the
    last of them: the count before it had not reached [MAX_REQUESTS]. *)
Definition budgetKept (cfg : Comprehensive.Config) (w : Comprehensive.World)
  : Prop :=
  N.of_nat (fetches (Comprehensive.trace w)) = Comprehensive.TOTAL_REQUESTS w
  /\ (Comprehensive.TOTAL_REQUESTS w = 0%N
      \/ Comprehensive.reaches (N.pred (Comprehensive.TOTAL_REQUESTS w))
                               (Comprehensive.MAX_REQUESTS cfg) = false).

(** [MAX_REQUESTS] is the whole number [ceiling]. *)
Definition wholeCeiling (cfg : Comprehensive.Config) (ceiling : N) : Prop :=
  exists q, Comprehensive.MAX_REQUESTS cfg = Comprehensive.Finite q
            /\ (q == inject_Z (Z.of_N ceiling))%Q.

(** Whatever the script throws is the budget error (an error whose
    message contains "Request limit"). *)
Definition throwsOnlyLimit {A} (m : Comprehensive.M A) : Prop :=
  forall w, match fst (m w) with
            | Throw e => isRequestLimit e = true
            | _ => True
            end.

(** Whatever the script throws is the budget error, or the error of the
    write of the file of [stateCode], thrown in the world where the write
    failed. *)
Definition throwsLimitOrWrite {A} (fs : Comprehensive.FileSystem)
  (stateCode : string) (m : Comprehensive.M A) : Prop :=
  forall w, match fst (m w) with
            | Throw e =>
                isRequestLimit e = true
                \/ Comprehensive.writeError fs (snd (m w)) stateCode = Some e
            | _ => True
            end.

(** The decision of the classifier, without the counters. *)
Definition accepts (place : Place.t) : bool :=
  fst (Comprehensive.isDermatologyClinic place Comprehensive.initialWorld).

(** An address with two components tagged as first-level areas and a
    locality that has no long text. *)
Definition twoAreas : list AddressComponent :=
  [mkAddressComponent ["locality"; "political"] (Some "LA") None;
   mkAddressComponent ["postal_town"] None (Some "Los Angeles");
   mkAddressComponent ["administrative_area_level_1"; "political"]
                      (Some "CA") (Some "California");
   mkAddressComponent ["administrative_area_level_1"] (Some "NV")
                      (Some "Nevada")].

(** The calls and the refusals in a history of the batch script. *)
Fixpoint batchFetches (t : list AllStates.Event) : nat :=
  match t with
  | [] => O
  | AllStates.Fetch _ :: rest => S (batchFetches rest)
  | _ :: rest => batchFetches rest
  end.

Fixpoint batchRefusals (t : list AllStates.Event) : nat :=
  match t with
  | [] => O
  | AllStates.Refused :: rest => S (batchRefusals rest)
  | _ :: rest => batchRefusals rest
  end.

(** The counter of the batch script counts calls and refusals, and the
    calls stay under the ceiling. *)
Definition batchBudget (w : AllStates.World) : Prop :=
  N.of_nat (batchFetches (AllStates.trace w)
            + batchRefusals (AllStates.trace w))
  = AllStates.totalRequests w
  /\ (N.of_nat (batchFetches (AllStates.trace w)) < AllStates.MAX_REQUESTS)%N.

(** The states whose file was written, oldest first. *)
Fixpoint writtenStates (t : list AllStates.Event) : list string :=
  match t with
  | [] => []
  | AllStates.WriteFile stateCode _ :: rest => writtenStates rest ++ [stateCode]
  | _ :: rest => writtenStates rest
  end.

(** The lists of [stats] and the files written are as given. *)
Definition batchLists (completed failed written : list string)
  (w : AllStates.World) : Prop :=
  AllStates.statesCompleted w = completed
  /\ AllStates.statesFailed w = failed
  /\ writtenStates (AllStates.trace w) = written.

(** [map.get(k)] *)
Fixpoint mapGet {V} (m : JsMap.t V) (k : string) : option V :=
  match m with
  | [] => None
  | (k', v) :: m' => if String.eqb k' k then Some v else mapGet m' k
  end.

(** The record that the batch script makes of a place, if it keeps it. *)
Definition recordOf (place : Place.t) : option AllStates.Clinic.t :=
  fst (AllStates.parseClinicFromPlace place AllStates.initialWorld).

(** The last record of a stream of places that has the identifier [k]. *)
Fixpoint lastRecord (k : string) (places : list Place.t)
  : option AllStates.Clinic.t :=
  match places with
  | [] => None
  | place :: rest =>
      match lastRecord k rest with
      | Some c => Some c
      | None =>
          match recordOf place with
          | Some c => if String.eqb (AllStates.Clinic.id c) k then Some c
                      else None
          | None => None
          end
      end
  end.

(** A source that finds the same two practices in every city. *)
Definition austinSource : AllStates.Source := constantSource twiceFound.

(** The phrases that make [isUSAddress] accept an address: the two names
    of the country and the lower-case names of the states of the table. *)
Definition usPhrases : list string :=
  "usa" :: "united states"
  :: map (fun kv => JS.toLowerCase (AllStates.name (snd kv)))
         AllStates.ALL_STATES.

(** The texts of a clinic that the text search looks into. *)
Definition textFields (c : Client.Clinic.t) : list string :=
  [ JS.orEmpty (Client.Clinic.display_name c);
    JS.orEmpty (Client.Clinic.formatted_address c);
    JS.orEmpty (Client.Clinic.city c);
    JS.orEmpty (Client.Clinic.state_code c);
    match Client.Clinic.types c with
    | Some l => JS.join " " l
    | None => ""%string
    end;
    JS.orEmpty (Client.Clinic.primary_type c) ].

(** A text of the ASCII range. *)
Definition isAscii (s : string) : bool :=
  JS.allChars (fun c => (nat_of_ascii c <? 128)%nat) s.

(** What reaches the state of the list page: the search bar calls
    [handleSearch] and [handleLocationSearch], the two filter panels call
    [setFilters], and a change of the route loads the clinics again. *)
Inductive Gesture : Type :=
| Typed (query : string)
| Located (lat lng : Q)
| FiltersChanged (filters : Client.FilterOptions)
| Loaded (loadedClinics : list Client.Clinic.t).

Definition isFilterChange (g : Gesture) : bool :=
  match g with
  | FiltersChanged _ => true
  | _ => false
  end.

Definition react
  (toLowerCase : string -> string)
  (calculateDistance : Client.Clinic.Location -> Client.Clinic.Location -> Q)
  (st : Client.State) (g : Gesture) : Client.State :=
  match g with
  | Typed query => Client.handleSearch toLowerCase query st
  | Located lat lng =>
      match Client.handleLocationSearch calculateDistance lat lng st with
      | Some st' => st'
      | None => st
      end
  | FiltersChanged filters => Client.setFilters filters st
  | Loaded loadedClinics => Client.loadClinics loadedClinics st
  end.

(** Two states of the page that differ in the filters at most. *)
Definition sameLists (st1 st2 : Client.State) : Prop :=
  Client.heap st1 = Client.heap st2
  /\ Client.clinics st1 = Client.clinics st2
  /\ Client.filteredClinics st1 = Client.filteredClinics st2.


(* ===================================================================== *)
(** * The cleanup script (scripts/cleanNonUSClinics) *)
(* ===================================================================== *)

Module Cleanup.

Definition VALID_US_STATES : list string :=
  ["AL";"AK";"AZ";"AR";"CA";"CO";"CT";"DE";"FL";"GA";"HI";"ID";"IL";"IN";"IA";
   "KS";"KY";"LA";"ME";"MD";"MA";"MI";"MN";"MS";"MO";"MT";"NE";"NV";"NH";"NJ";
   "NM";"NY";"NC";"ND";"OH";"OK";"OR";"PA";"RI";"SC";"SD";"TN";"TX";"UT";"VT";
   "VA";"WA";"WV";"WI";"WY";"DC"].

(** The columns that the script selects. *)
Record Row : Type := mkRow {
  place_id : option string;
  display_name : option string;
  state_code : option string;
  formatted_address : option string
}.

(** [c => !c.state_code || !VALID_US_STATES.includes(c.state_code)] *)
Definition nonUS (c : Row) : bool :=
  match state_code c with
  | Some s => negb (JS.truthy s) || negb (JS.arrayIncludes VALID_US_STATES s)
  | None => true
  end.

(** [clinics?.filter(...) || []] *)
Definition nonUSClinics (clinics : option (list Row)) : list Row :=
  match clinics with
  | Some l => filter nonUS l
  | None => []
  end.

(** The identifiers handed to the delete. *)
Definition placeIds (clinics : option (list Row)) : list (option string) :=
  map place_id (nonUSClinics clinics).

End Cleanup.

(** The row of a record of the comprehensive script: the columns carry
    the fields of the same name. *)
Definition rowOf (c : Comprehensive.Clinic.t) : Cleanup.Row :=
  Cleanup.mkRow (Comprehensive.Clinic.place_id c)
                (Comprehensive.Clinic.display_name c)
                (Comprehensive.Clinic.state_code c)
                (Comprehensive.Clinic.formatted_address c).

(* ===================================================================== *)
(** * The statistics route (app/api/stats/route.ts) *)
(* ===================================================================== *)

Module Stats.

Definition US_STATES_FULL : list (string * string) :=
  [("AL","Alabama"); ("AK","Alaska"); ("AZ","Arizona"); ("AR","Arkansas");
   ("CA","California"); ("CO","Colorado"); ("CT","Connecticut");
   ("DE","Delaware"); ("FL","Florida"); ("GA","Georgia"); ("HI","Hawaii");
   ("ID","Idaho"); ("IL","Illinois"); ("IN","Indiana"); ("IA","Iowa");
   ("KS","Kansas"); ("KY","Kentucky"); ("LA","Louisiana"); ("ME","Maine");
   ("MD","Maryland"); ("MA","Massachusetts"); ("MI","Michigan");
   ("MN","Minnesota"); ("MS","Mississippi"); ("MO","Missouri");
   ("MT","Montana"); ("NE","Nebraska"); ("NV","Nevada");
   ("NH","New Hampshire"); ("NJ","New Jersey"); ("NM","New Mexico");
   ("NY","New York"); ("NC","North Carolina"); ("ND","North Dakota");
   ("OH","Ohio"); ("OK","Oklahoma"); ("OR","Oregon"); ("PA","Pennsylvania");
   ("RI","Rhode Island"); ("SC","South Carolina"); ("SD","South Dakota");
   ("TN","Tennessee"); ("TX","Texas"); ("UT","Utah"); ("VT","Vermont");
   ("VA","Virginia"); ("WA","Washington"); ("WV","West Virginia");
   ("WI","Wisconsin"); ("WY","Wyoming"); ("DC","Washington DC")].

(** [stateCounts[state] || 0] *)
Definition countOf (stateCounts : JsMap.t nat) (state : string) : nat :=
  match mapGet stateCounts state with
  | Some n => n
  | None => O
  end.

(** The body of the [forEach] over the rows, each row being the
    [state_code] of a clinic. *)
Definition countRow (stateCounts : JsMap.t nat) (clinic : option string)
  : JsMap.t nat :=
  match clinic with
  | Some state =>
      if JS.truthy state
      then JsMap.set state (countOf stateCounts state + 1) stateCounts
      else stateCounts
  | None => stateCounts
  end.

(** [stateCounts] is an object used as a map from state codes to counts;
    its entries are listed in the order in which the codes were first
    seen. *)
Definition countStates (data : option (list (option string))) : JsMap.t nat :=
  fold_left countRow (match data with Some l => l | None => [] end)
            JsMap.empty.

Record StateEntry : Type := mkStateEntry {
  code : string;
  name : string;
  clinicCount : nat
}.

(** [US_STATES_FULL[code] || code] *)
Definition nameOf (code : string) : string :=
  match mapGet US_STATES_FULL code with
  | Some n => if JS.truthy n then n else code
  | None => code
  end.

(** [(a, b) => b.clinicCount - a.clinicCount] *)
Definition byCount (a b : StateEntry) : Q :=
  inject_Z (Z.of_nat (clinicCount b) - Z.of_nat (clinicCount a)).

Definition states (data : option (list (option string))) : list StateEntry :=
  Client.jsSort byCount
    (map (fun kv => mkStateEntry (fst kv) (nameOf (fst kv)) (snd kv))
         (countStates data)).

Definition totalClinics (data : option (list (option string))) : nat :=
  fold_left (fun sum count => sum + count)
            (JsMap.values (countStates data)) O.

Definition totalStates (data : option (list (option string))) : nat :=
  List.length (states data).

(** What the database answers to the query of the route. *)
Inductive DbAnswer : Type :=
| DbError (message : string)
| DbData (data : option (list (option string))).

(** The reply of the route: the statistics, or the status 500 with
    [{ error: 'Failed to fetch stats' }]. *)
Inductive Reply : Type :=
| Json (states : list StateEntry) (totalClinics totalStates : nat)
| Failed.

Definition GET (answer : DbAnswer) : Reply :=
  match answer with
  | DbError _ => Failed
  | DbData data => Json (states data) (totalClinics data) (totalStates data)
  end.

End Stats.

(** The state codes that the statistics route counts: those of the rows
    whose [state_code] is present and not empty. *)
Definition countedCodes (rows : list (option string)) : list string :=
  flat_map (fun r => match r with
                     | Some s => if JS.truthy s then [s] else []
                     | None => []
                     end) rows.

(** The order of the statistics: larger counts first. *)
Definition countOrder (a b : Stats.StateEntry) : Prop :=
  Stats.clinicCount b <= Stats.clinicCount a.

(* ===================================================================== *)
(** * The featuring script (scripts/autoFeatureTopClinics.ts) *)
(* ===================================================================== *)

Module AutoFeature.

(** A row of the query of [getAllCitiesWithClinics]; the query leaves out
    the rows without a city or without a state code. *)
Record Row : Type := mkRow { city : string; state_code : string }.

Record CityState : Type := mkCityState { cs_city : string; state : string }.

(** [`${clinic.city}|${clinic.state_code}`] *)
Definition key (clinic : Row) : string :=
  (city clinic ++ "|" ++ state_code clinic)%string.

(** The [forEach] over the rows, with the set of the keys seen and the
    list built so far. *)
Fixpoint collectCities (data : list Row) (cityStateSet : list string)
  (cityStateList : list CityState) : list CityState :=
  match data with
  | [] => cityStateList
  | clinic :: rest =>
      if JS.arrayIncludes cityStateSet (key clinic)
      then collectCities rest cityStateSet cityStateList
      else collectCities rest (cityStateSet ++ [key clinic])
             (cityStateList ++ [mkCityState (city clinic) (state_code clinic)])
  end.

Definition getAllCitiesWithClinics (data : option (list Row))
  : list CityState :=
  collectCities (match data with Some l => l | None => [] end) [] [].

Definition BATCH_SIZE : nat := 100.

(** [arr.slice(i, j)] for [i <= j] *)
Definition slice (i j : nat) (l : list string) : list string :=
  firstn (j - i) (skipn i l).

Record Counts : Type := mkCounts { success : nat; errors : nat }.

(** The loop of [markClinicsAsFeatured].  [update k batch] tells whether
    the database reports an error for the [k]-th update, of [batch];
    [sent] lists the batches handed to the database, oldest first. *)
Fixpoint markLoop (fuel : nat) (update : nat -> list string -> bool)
  (placeIds : list string) (i successCount errorCount : nat)
  (sent : list (list string)) : option (Counts * list (list string)) :=
  if i <? List.length placeIds then
    match fuel with
    | O => None
    | S fuel' =>
        let batch := slice i (i + BATCH_SIZE) placeIds in
        if update (List.length sent) batch
        then markLoop fuel' update placeIds (i + BATCH_SIZE) successCount
               (errorCount + List.length batch) (sent ++ [batch])
        else markLoop fuel' update placeIds (i + BATCH_SIZE)
               (successCount + List.length batch) errorCount (sent ++ [batch])
    end
  else Some (mkCounts successCount errorCount, sent).

Definition markClinicsAsFeatured (update : nat -> list string -> bool)
  (placeIds : list string) : option (Counts * list (list string)) :=
  if (List.length placeIds =? 0)%nat then Some (mkCounts 0 0, [])
  else markLoop (List.length placeIds) update placeIds 0 0 0 [].

End AutoFeature.

(* ===================================================================== *)
(** * The city page (app/state/[code]/city/[slug]/page.tsx) *)
(* ===================================================================== *)

Module CityPage.

Definition upperChar (c : ascii) : ascii :=
  if JS.isLower c then ascii_of_nat (nat_of_ascii c - 32) else c.

Definition hyphen : ascii := "-"%char.

(** [s.split('-')] *)
Fixpoint split (s : string) : list string :=
  match s with
  | EmptyString => [EmptyString]
  | String c s' =>
      if Ascii.eqb c hyphen then EmptyString :: split s'
      else match split s' with
           | word :: words => String c word :: words
           | [] => [String c EmptyString]
           end
  end.

(** [word.charAt(0).toUpperCase() + word.slice(1)] *)
Definition capitalize (word : string) : string :=
  match word with
  | EmptyString => EmptyString
  | String c rest => String (upperChar c) rest
  end.

Definition cityName (slug : string) : string :=
  JS.join " " (map capitalize (split slug)).

End CityPage.

(** No row's state code holds the separator of the key. *)
Definition plainStates (data : list AutoFeature.Row) : Prop :=
  forall row, In row data ->
    JS.includes (AutoFeature.state_code row) "|" = false.

(** The (city, state) pair of a row. *)
Definition pairOf (row : AutoFeature.Row) : AutoFeature.CityState :=
  AutoFeature.mkCityState (AutoFeature.city row) (AutoFeature.state_code row).

(** Every batch holds between 1 and [BATCH_SIZE] identifiers. *)
Definition batchSized (batch : list string) : Prop :=
  1 <= List.length batch <= AutoFeature.BATCH_SIZE.

Definition threeRows : list AutoFeature.Row :=
  [AutoFeature.mkRow "Austin" "TX"; AutoFeature.mkRow "Portland" "OR";
   AutoFeature.mkRow "Austin" "TX"].

(** A character other than the hyphen. *)
Definition notHyphen (c : ascii) : bool := negb (Ascii.eqb c CityPage.hyphen).

(* ===================================================================== *)
(** * The fast script (scripts/collectClinicDataFast.ts) *)
(* ===================================================================== *)

Module Fast.

Definition RATE_LIMIT_QPS : N := 3.

(** [Math.ceil(1000 / RATE_LIMIT_QPS)] *)
Definition REQUEST_DELAY_MS : N := ((1000 + RATE_LIMIT_QPS - 1) / RATE_LIMIT_QPS)%N.

Definition MAX_REQUESTS : N := 8000.

Record StateInfo : Type := mkStateInfo {
  name : string;
  cities : list string
}.

Definition STATES : list (string * StateInfo) :=
  [ ("CA", mkStateInfo "California"
       ["Los Angeles"; "San Francisco"; "San Diego"; "San Jose"; "Sacramento";
        "Oakland"; "Fresno"; "Long Beach"; "Bakersfield"; "Anaheim";
        "Santa Ana"; "Riverside"; "Stockton"; "Irvine"; "Chula Vista";
        "Fremont"; "San Bernardino"; "Modesto"; "Fontana"; "Oxnard";
        "Moreno Valley"; "Huntington Beach"; "Glendale"; "Santa Clarita";
        "Garden Grove"]);
    ("NY", mkStateInfo "New York"
       ["New York"; "Buffalo"; "Rochester"; "Yonkers"; "Syracuse";
        "Albany"; "New Rochelle"; "Mount Vernon"; "Schenectady"; "Utica";
        "White Plains"; "Troy"; "Niagara Falls"; "Binghamton"; "Freeport"]);
    ("TX", mkStateInfo "Texas"
       ["Houston"; "San Antonio"; "Dallas"; "Austin"; "Fort Worth";
        "El Paso"; "Arlington"; "Corpus Christi"; "Plano"; "Laredo";
        "Lubbock"; "Garland"; "Irving"; "Amarillo"; "Grand Prairie";
        "Brownsville"; "McKinney"; "Frisco"; "Pasadena"; "Mesquite"]);
    ("FL", mkStateInfo "Florida"
       ["Jacksonville"; "Miami"; "Tampa"; "Orlando"; "St. Petersburg";
        "Hialeah"; "Tallahassee"; "Fort Lauderdale"; "Port St. Lucie";
        "Cape Coral"; "Pembroke Pines"; "Hollywood"; "Miramar";
        "Gainesville"; "Coral Springs"]);
    ("PA", mkStateInfo "Pennsylvania"
       ["Philadelphia"; "Pittsburgh"; "Allentown"; "Erie"; "Reading";
        "Scranton"; "Bethlehem"; "Lancaster"; "Harrisburg"; "Altoona";
        "York"; "State College"; "Wilkes-Barre"]) ].

(** [STATES[stateCode]] *)
Definition lookupState (stateCode : string) : option StateInfo :=
  match find (fun kv => String.eqb (fst kv) stateCode) STATES with
  | Some kv => Some (snd kv)
  | None => None
  end.

(** What the script does to the outside, newest first.  [Refused] marks
    the throw of the budget error.  The records have the shape of the
    batch script's. *)
Inductive Event : Type :=
| Sleep (ms : N)
| Fetch (textQuery : string)
| Refused
| WriteFile (stateCode : string) (clinics : list AllStates.Clinic.t).

Record World : Type := mkWorld {
  totalRequests : N;
  rejectedNonUS : N;
  rejectedNonDerm : N;
  trace : list Event
}.

Definition initialWorld : World := mkWorld 0%N 0%N 0%N [].

Definition bumpRequests (w : World) : World :=
  mkWorld (N.succ (totalRequests w)) (rejectedNonUS w) (rejectedNonDerm w)
          (trace w).

Definition bumpNonUS (w : World) : World :=
  mkWorld (totalRequests w) (N.succ (rejectedNonUS w)) (rejectedNonDerm w)
          (trace w).

Definition bumpNonDerm (w : World) : World :=
  mkWorld (totalRequests w) (rejectedNonUS w) (N.succ (rejectedNonDerm w))
          (trace w).

Definition emit (e : Event) (w : World) : World :=
  mkWorld (totalRequests w) (rejectedNonUS w) (rejectedNonDerm w)
          (e :: trace w).

Definition M (A : Type) : Type := Script.M World A.

Definition effect (e : Event) : M unit := fun w => (Ok tt, emit e w).

Definition limitMessage : string :=
  ("Request limit reached (" ++ decimal MAX_REQUESTS ++ ")")%string.

Definition makeRequest : M unit :=
  fun w =>
    let w := bumpRequests w in
    if (MAX_REQUESTS <=? totalRequests w)%N
    then (Throw limitMessage, emit Refused w)
    else (Ok tt, emit (Sleep REQUEST_DELAY_MS) w).

Definition isDermatologyClinic (name : string) : bool :=
  let lowerName := JS.toLowerCase name in
  JS.includes lowerName "derm" || JS.includes lowerName "skin"
  || JS.includes lowerName "derma".

(** The pattern [/\b[A-Z]{2}\s+\d{5}\b/] is the batch script's. *)
Definition isUSAddress (address : option string) : bool :=
  match address with
  | None => false
  | Some address =>
      if negb (JS.truthy address) then false
      else
        let lowerAddress := JS.toLowerCase address in
        let hasUSA := JS.includes lowerAddress "usa"
                      || JS.includes lowerAddress "united states" in
        let hasStateZip := AllStates.stateZipFrom false address in
        let stateNames :=
          map (fun kv => JS.toLowerCase (name (snd kv))) STATES in
        let hasStateName := existsb (JS.includes lowerAddress) stateNames in
        hasUSA || hasStateZip || hasStateName
  end.

Definition parseClinicFromPlace (place : Place.t) (w : World)
  : option AllStates.Clinic.t * World :=
  match Place.id place with
  | None => (None, w)
  | Some placeId =>
      if negb (JS.truthy placeId) then (None, w)
      else
        let name := JS.orEmpty (match Place.displayName place with
                                | Some d => text d
                                | None => None
                                end) in
        let address := Place.formattedAddress place in
        if negb (isDermatologyClinic name) then (None, bumpNonDerm w)
        else if negb (isUSAddress address) then (None, bumpNonUS w)
        else
          (Some {| AllStates.Clinic.id := placeId;
                   AllStates.Clinic.name := name;
                   AllStates.Clinic.formattedAddress := address;
                   AllStates.Clinic.location := Place.location place;
                   AllStates.Clinic.phone := Place.nationalPhoneNumber place;
                   AllStates.Clinic.website := Place.websiteUri place;
                   AllStates.Clinic.rating := Place.rating place;
                   AllStates.Clinic.userRatingCount :=
                     Place.userRatingCount place;
                   AllStates.Clinic.types := Place.types place;
                   AllStates.Clinic.businessStatus :=
                     Place.businessStatus place |},
           w)
  end.

(** [places.forEach(place => { const clinic = parseClinicFromPlace(place);
                               if (clinic) clinics.set(clinic.id, clinic) })] *)
Fixpoint addPlaces (places : list Place.t)
  (clinics : JsMap.t AllStates.Clinic.t) (w : World)
  : JsMap.t AllStates.Clinic.t * World :=
  match places with
  | [] => (clinics, w)
  | place :: rest =>
      match parseClinicFromPlace place w with
      | (Some clinic, w') =>
          addPlaces rest
            (JsMap.set (AllStates.Clinic.id clinic) clinic clinics) w'
      | (None, w') => addPlaces rest clinics w'
      end
  end.

(** The external source: its answer to a text search, given the value of
    the request counter when the call is made. *)
Definition Source : Type := N -> string -> Response SearchBody.

Definition fetchSearch (src : Source) (textQuery : string)
  : M (Response SearchBody) :=
  fun w => (Ok (src (totalRequests w) textQuery), emit (Fetch textQuery) w).

Definition queriesFor (city stateCode : string) : list string :=
  [ ("dermatology in " ++ city ++ " " ++ stateCode)%string;
    ("dermatologist " ++ city ++ " " ++ stateCode)%string;
    ("skin doctor " ++ city ++ " " ++ stateCode)%string ].

(** One query: the budget check stands before the [try]. *)
Definition runQuery (src : Source) (query : string)
  (clinics : JsMap.t AllStates.Clinic.t) : M (JsMap.t AllStates.Clinic.t) :=
  makeRequest ;;;
  tryCatch
    (response <- fetchSearch src query ;;
     match response with
     | NetworkError e => throw e
     | HttpError _ => ret clinics
     | HttpOk data =>
         lift (addPlaces (match places data with Some l => l | None => [] end)
                         clinics)
     end)
    (fun _ => ret clinics).

Definition citySearch (src : Source) (stateCode : string)
  (cities : list string) (clinics : JsMap.t AllStates.Clinic.t)
  : M (JsMap.t AllStates.Clinic.t) :=
  forOf (fun city clinics =>
           forOf (runQuery src) (queriesFor city stateCode) clinics)
        cities clinics.

(** The file system when a state is saved: whether the output directory
    exists, and whether [fs.mkdirSync] and [fs.writeFileSync] fail, each
    with the message of its error ([None] when it succeeds). *)
Record FileSystem : Type := mkFileSystem {
  existsSync : World -> bool;
  mkdirError : World -> option string;
  writeError : World -> string -> option string
}.

(** [if (!fs.existsSync(outputDir)) fs.mkdirSync(outputDir, ...);
     fs.writeFileSync(outputPath, JSON.stringify(clinicArray, null, 2))] *)
Definition saveFile (fs : FileSystem) (stateCode : string)
  (clinicArray : list AllStates.Clinic.t) : M unit :=
  fun w =>
    match (if negb (existsSync fs w) then mkdirError fs w else None) with
    | Some e => (Throw e, w)
    | None =>
        match writeError fs w stateCode with
        | Some e => (Throw e, w)
        | None => (Ok tt, emit (WriteFile stateCode clinicArray) w)
        end
    end.

Definition collectStateData (src : Source) (fs : FileSystem)
  (stateCode : string) : M unit :=
  match lookupState stateCode with
  | None => ret tt
  | Some stateInfo =>
      clinics <- citySearch src stateCode (cities stateInfo) JsMap.empty ;;
      saveFile fs stateCode (JsMap.values clinics)
  end.

(** The loop of [main]; nothing catches what a state throws. *)
Definition mainLoop (src : Source) (fs : FileSystem)
  (statesToProcess : list string) : M unit :=
  forOf (fun stateCode _ => collectStateData src fs stateCode)
        statesToProcess tt.

End Fast.

(** The calls in a history of the fast script. *)
Fixpoint fastFetches (t : list Fast.Event) : nat :=
  match t with
  | [] => O
  | Fast.Fetch _ :: rest => S (fastFetches rest)
  | _ :: rest => fastFetches rest
  end.

(** The states whose file the fast script has written, oldest first. *)
Fixpoint fastWritten (t : list Fast.Event) : list string :=
  match t with
  | [] => []
  | Fast.WriteFile stateCode _ :: rest => fastWritten rest ++ [stateCode]
  | _ :: rest => fastWritten rest
  end.

(** A state of the table of the fast script. *)
Definition fastKnown (stateCode : string) : bool :=
  match Fast.lookupState stateCode with
  | Some _ => true
  | None => false
  end.

(** The fast script is running: no call was refused, every request is a
    call, and the count is under the ceiling. *)
Definition fastRunning (w : Fast.World) : Prop :=
  ~ In Fast.Refused (Fast.trace w)
  /\ N.of_nat (fastFetches (Fast.trace w)) = Fast.totalRequests w
  /\ (Fast.totalRequests w < Fast.MAX_REQUESTS)%N.

(** The fast script was stopped by its budget: the refusal is the last
    thing that happened, and 7999 calls were made before it. *)
Definition fastStopped (w : Fast.World) : Prop :=
  exists t', Fast.trace w = Fast.Refused :: t'
             /\ ~ In Fast.Refused t'
             /\ N.of_nat (fastFetches t') = 7999%N
             /\ Fast.totalRequests w = Fast.MAX_REQUESTS.

(** The fast script was stopped by the file system: no call was refused,
    and the error is that of the directory or of the file of [stateCode],
    met in the last world of the run. *)
Definition fastSaveFailed (fs : Fast.FileSystem) (stateCode e : string)
  (w : Fast.World) : Prop :=
  fastRunning w
  /\ ((Fast.existsSync fs w = false /\ Fast.mkdirError fs w = Some e)
      \/ Fast.writeError fs w stateCode = Some e).

(** A step of the fast script that writes no file: from a running world it
    either returns in a running world or throws in a stopped one. *)
Definition fastStep {A} (m : Fast.M A) : Prop :=
  forall w, fastRunning w ->
    fastWritten (Fast.trace (snd (m w))) = fastWritten (Fast.trace w)
    /\ match fst (m w) with
       | Ok _ => fastRunning (snd (m w))
       | Throw _ => fastStopped (snd (m w))
       | OutOfFuel => False
       end.

(** A record whose state code is one of the table of the comprehensive
    script. *)
Definition validRecord (c : Comprehensive.Clinic.t) : Prop :=
  exists s, Comprehensive.Clinic.state_code c = Some s
            /\ JS.truthy s = true
            /\ In s Comprehensive.VALID_US_STATES.

(** A file of the comprehensive script is written for a state of the
    table and holds valid records only. *)
Definition fileValid (e : Comprehensive.Event) : Prop :=
  match e with
  | Comprehensive.WriteFile stateCode clinics =>
      Comprehensive.lookupState stateCode <> None
      /\ Forall validRecord clinics
  | _ => True
  end.

Definition filesValid (w : Comprehensive.World) : Prop :=
  Forall fileValid (Comprehensive.trace w).

(* ===================================================================== *)
(** * The home page (app/page.tsx) *)
(* ===================================================================== *)

Module Home.

Record Shown : Type := mkShown {
  totalClinics : nat;
  totalStates : nat;
  loading : bool
}.

(** [useState({ totalClinics: 0, totalStates: 0, loading: true })] *)
Definition initial : Shown := mkShown 0 0 true.

(** [n || d] for a count [n] that may be missing. *)
Definition orElse (n : option nat) (d : nat) : nat :=
  match n with
  | Some (S k) => S k
  | _ => d
  end.

Definition replyClinics (data : Stats.Reply) : option nat :=
  match data with
  | Stats.Json _ totalClinics _ => Some totalClinics
  | Stats.Failed => None
  end.

Definition replyStates (data : Stats.Reply) : option nat :=
  match data with
  | Stats.Json _ _ totalStates => Some totalStates
  | Stats.Failed => None
  end.

(** [loadStats]: [response] is the reply of /api/stats, or [None] when the
    fetch or [response.json()] throws.  The status is not looked at. *)
Definition loadStats (response : option Stats.Reply) (prev : Shown) : Shown :=
  match response with
  | Some data =>
      mkShown (orElse (replyClinics data) 0) (orElse (replyStates data) 50)
              false
  | None => mkShown (totalClinics prev) (totalStates prev) false
  end.

(** A route: the path and the search parameters, decoded. *)
Definition Route : Type := (string * list (string * string))%type.

(** [router.push(`/clinics?q=${encodeURIComponent(query)}`)] *)
Definition handleSearch (query : string) : Route :=
  ("/clinics"%string, [("q"%string, query)]).

End Home.

(** [searchParams.get(key)] *)
Definition searchParamsGet (route : Home.Route) (key : string)
  : option string :=
  mapGet (snd route) key.

Section UrlOfTheList.

Variable encodeURIComponent : string -> string.

(** The address that [loadClinics] of the clinic list page fetches, for
    the [state] and [city] parameters of its route. *)
Definition listUrl (route : Home.Route) : string :=
  let stateParam := searchParamsGet route "state" in
  let cityParam := searchParamsGet route "city" in
  ("/api/clinics?per_page=5000"
   ++ match stateParam with
      | Some s => if JS.truthy s then "&state=" ++ s else ""
      | None => ""
      end
   ++ match cityParam with
      | Some c => if JS.truthy c then "&city=" ++ encodeURIComponent c else ""
      | None => ""
      end)%string.

End UrlOfTheList.

(** What the home page shows once the statistics of the rows [data] have
    been loaded. *)
Definition shownFor (answer : Stats.DbAnswer) : Home.Shown :=
  Home.loadStats (Some (Stats.GET answer)) Home.initial.

(* ===================================================================== *)
(** * The clinic page (app/clinics/[id]/page.tsx) *)
(* ===================================================================== *)

Module DetailPage.

(** The three groups of options of a clinic row; the other columns pass
    through [normalizeClinicForUI] unchanged. *)
Record Raw : Type := mkRaw {
  accessibility_options : option Flags;
  payment_options : option Flags;
  parking_options : option Flags
}.

(** [group.snake ?? group.camel] *)
Definition pick (group : Flags) (snake camel : string) : option bool :=
  match Client.flagOf snake group with
  | Some v => Some v
  | None => Client.flagOf camel group
  end.

(** [group ? { snake: group.snake ?? group.camel, ... } : undefined], for
    the listed pairs of names; a key whose value is undefined is left
    out. *)
Definition normalizeGroup (keys : list (string * string))
  (group : option Flags) : option Flags :=
  match group with
  | Some g =>
      Some (flat_map (fun k => match pick g (fst k) (snd k) with
                               | Some v => [(fst k, v)]
                               | None => []
                               end) keys)
  | None => None
  end.

Definition accessibilityKeys : list (string * string) :=
  [("wheelchair_accessible_entrance", "wheelchairAccessibleEntrance");
   ("wheelchair_accessible_parking", "wheelchairAccessibleParking");
   ("wheelchair_accessible_restroom", "wheelchairAccessibleRestroom");
   ("wheelchair_accessible_seating", "wheelchairAccessibleSeating")].

Definition paymentKeys : list (string * string) :=
  [("accepts_credit_cards", "acceptsCreditCards");
   ("accepts_debit_cards", "acceptsDebitCards");
   ("accepts_cash_only", "acceptsCashOnly");
   ("accepts_nfc", "acceptsNfc")].

Definition parkingKeys : list (string * string) :=
  [("free_parking_lot", "freeParkingLot");
   ("paid_parking_lot", "paidParkingLot");
   ("free_street_parking", "freeStreetParking");
   ("paid_street_parking", "paidStreetParking");
   ("valet_parking", "valetParking");
   ("free_garage_parking", "freeGarageParking");
   ("paid_garage_parking", "paidGarageParking")].

Definition normalizeClinicForUI (raw : Raw) : Raw :=
  mkRaw (normalizeGroup accessibilityKeys (accessibility_options raw))
        (normalizeGroup paymentKeys (payment_options raw))
        (normalizeGroup parkingKeys (parking_options raw)).

Inductive Tone : Type := green | blue | amber.

Record Chip : Type := mkChip { label : string; icon : string; tone : Tone }.

(** [if (c?.group?.key) chips.push(chip)] *)
Definition chipWhen (group : option Flags) (key : string) (chip : Chip)
  : list Chip :=
  if Client.flagIsTrue group key then [chip] else [].

Definition buildAmenityChips (c : Raw) : list Chip :=
  chipWhen (accessibility_options c) "wheelchair_accessible_entrance"
    (mkChip "Wheelchair Accessible Entrance" "♿️" green)
  ++ chipWhen (accessibility_options c) "wheelchair_accessible_parking"
       (mkChip "Wheelchair Accessible Parking" "🅿️" blue)
  ++ chipWhen (accessibility_options c) "wheelchair_accessible_restroom"
       (mkChip "Wheelchair Accessible Restroom" "🚻" blue)
  ++ chipWhen (accessibility_options c) "wheelchair_accessible_seating"
       (mkChip "Wheelchair Accessible Seating" "♿️" green)
  ++ chipWhen (parking_options c) "free_parking_lot"
       (mkChip "Free Parking Lot" "🅿️" green)
  ++ chipWhen (parking_options c) "paid_parking_lot"
       (mkChip "Paid Parking Lot" "🅿️" amber)
  ++ chipWhen (payment_options c) "accepts_credit_cards"
       (mkChip "Accepts Credit Cards" "💳" green)
  ++ chipWhen (payment_options c) "accepts_cash_only"
       (mkChip "Cash Only" "💵" amber).

Definition toneClasses (t : Tone) : string :=
  match t with
  | green => "bg-green-50/70 border-green-100"
  | blue => "bg-blue-50/70 border-blue-100"
  | amber => "bg-amber-50/70 border-amber-100"
  end.

End DetailPage.

(** The pairs of names of a group are well formed: no snake_case name is
    listed twice, and no camelCase name is also a snake_case name. *)
Definition keysWellFormed (keys : list (string * string)) : Prop :=
  NoDup (map fst keys)
  /\ forall k, In k keys -> ~ In (snd k) (map fst keys).

(** The flag of a raw row, read under either of its two names. *)
Definition flagSet (group : option Flags) (snake camel : string) : bool :=
  match group with
  | Some g => Client.isTrue (DetailPage.pick g snake camel)
  | None => false
  end.

(** The chips of the clinic page: the group, the two names of the flag,
    and the chip shown for it. *)
Definition amenityTable
  : list ((DetailPage.Raw -> option Flags) * (string * string)
          * DetailPage.Chip) :=
  [ (DetailPage.accessibility_options,
     ("wheelchair_accessible_entrance", "wheelchairAccessibleEntrance"),
     DetailPage.mkChip "Wheelchair Accessible Entrance" "♿️" DetailPage.green);
    (DetailPage.accessibility_options,
     ("wheelchair_accessible_parking", "wheelchairAccessibleParking"),
     DetailPage.mkChip "Wheelchair Accessible Parking" "🅿️" DetailPage.blue);
    (DetailPage.accessibility_options,
     ("wheelchair_accessible_restroom", "wheelchairAccessibleRestroom"),
     DetailPage.mkChip "Wheelchair Accessible Restroom" "🚻" DetailPage.blue);
    (DetailPage.accessibility_options,
     ("wheelchair_accessible_seating", "wheelchairAccessibleSeating"),
     DetailPage.mkChip "Wheelchair Accessible Seating" "♿️" DetailPage.green);
    (DetailPage.parking_options,
     ("free_parking_lot", "freeParkingLot"),
     DetailPage.mkChip "Free Parking Lot" "🅿️" DetailPage.green);
    (DetailPage.parking_options,
     ("paid_parking_lot", "paidParkingLot"),
     DetailPage.mkChip "Paid Parking Lot" "🅿️" DetailPage.amber);
    (DetailPage.payment_options,
     ("accepts_credit_cards", "acceptsCreditCards"),
     DetailPage.mkChip "Accepts Credit Cards" "💳" DetailPage.green);
    (DetailPage.payment_options,
     ("accepts_cash_only", "acceptsCashOnly"),
     DetailPage.mkChip "Cash Only" "💵" DetailPage.amber) ].

(** The chips of the flags that are set in a raw row, each flag read
    under its snake_case name or else under its camelCase name. *)
Definition chipsUnderEitherName (raw : DetailPage.Raw)
  : list DetailPage.Chip :=
  flat_map (fun e =>
              if flagSet (fst (fst e) raw) (fst (snd (fst e)))
                         (snd (snd (fst e)))
              then [snd e] else [])
           amenityTable.

(* ===================================================================== *)
(** ** Properties of the classifier and of the transformer *)
(* ===================================================================== *)

Import Comprehensive.

(** The states that the comprehensive script takes for valid. *)
Lemma VALID_US_STATES_table :
  VALID_US_STATES = ["CA"; "TX"; "FL"; "NY"; "PA"; "IL"; "OH"; "GA"; "NC"; "MI"].
Proof. reflexivity. Qed.


(** C1. A US record whose state code is one of the 50 states or DC should
    pass the US-validity step; the script checks the state against its own
    table of ten states, so a clinic in Washington ("WA", country "US") is
    rejected and counted as [non_us]. *)
Theorem washington_clinic_rejected_non_us (w : World) :
  pa_country_code (parseAddressComponents (componentsOf Samples.seattleClinic))
    = Some "US"
  /\ pa_state_code (parseAddressComponents (componentsOf Samples.seattleClinic))
    = Some "WA"
  /\ isDermatologyClinic Samples.seattleClinic w = (false, bumpNonUS w).
Proof. repeat split. Qed.

(** C2. A place that passes the US-validity step and whose combined
    lowercase text contains an exclusion term is rejected and counted as
    [non_dermatology], whatever else the text or the tags contain. *)
Theorem exclusion_wins (place : Place.t) (w : World) (term : string) :
  foreignCountry (parseAddressComponents (componentsOf place)) = false ->
  invalidState (parseAddressComponents (componentsOf place)) = false ->
  In term ["dental"; "dentist"; "orthodont"; "veterinary"; "animal"; "pet";
           "massage"; "spa resort"; "nail salon"] ->
  JS.includes (searchText place) term = true ->
  isDermatologyClinic place w = (false, bumpNonDerm w).
Proof.
  intros Hc Hs Hin Hinc.
  unfold isDermatologyClinic. rewrite Hc, Hs.
  assert (E : existsb (JS.includes (searchText place)) excludeTerms = true).
  { apply existsb_exists. exists term. split; [exact Hin | exact Hinc]. }
  rewrite E. reflexivity.
Qed.

(** The exclusion wins over the tag [skin_care_clinic] and over the core
    term "dermatology". *)
Lemma exclusion_wins_witness :
  JS.includes (searchText Samples.dermSpaResort) "dermatology" = true
  /\ JS.includes (typesOf Samples.dermSpaResort) "skin_care_clinic" = true
  /\ isDermatologyClinic Samples.dermSpaResort initialWorld
     = (false, bumpNonDerm initialWorld).
Proof.
  split; [reflexivity|]. split; [reflexivity|].
  apply (@exclusion_wins Samples.dermSpaResort initialWorld "spa resort").
  - reflexivity.
  - reflexivity.
  - simpl. tauto.
  - reflexivity.
Defined.


(** A place with an identifier and a state code of the table, but a
    country other than "US", gives no record: the US-validity step rejects
    it. *)
Example transformPlace_foreign_country :
  Place.id Samples.belemClinic = Some "ChIJ-belem-derm"
  /\ invalidState (parseAddressComponents (componentsOf Samples.belemClinic))
     = false
  /\ transformPlace Samples.cfg Samples.belemClinic = None.
Proof. repeat split. Qed.

(* ===================================================================== *)
(** ** Properties of the clinic list page *)
(* ===================================================================== *)

Section Store.

Import Client.

Lemma read_alloc (h : Heap) (l : list Clinic.t) :
  read (snd (alloc l h)) (fst (alloc l h)) = l.
Proof.
  unfold read, alloc; simpl.
  rewrite app_nth2 by lia. rewrite Nat.sub_diag. reflexivity.
Qed.

Lemma read_alloc_old (h : Heap) (l : list Clinic.t) (r : Ref) :
  r < List.length h -> read (snd (alloc l h)) r = read h r.
Proof.
  intros H. unfold read, alloc; simpl. apply app_nth1. exact H.
Qed.

Lemma length_write (r : Ref) (l : list Clinic.t) (h : Heap) :
  List.length (write r l h) = List.length h.
Proof.
  revert r; induction h as [|x h IH]; intros r; destruct r; simpl;
    try reflexivity.
  rewrite IH. reflexivity.
Qed.

Lemma read_write_same (r : Ref) (l : list Clinic.t) (h : Heap) :
  r < List.length h -> read (write r l h) r = l.
Proof.
  revert r; induction h as [|x h IH]; intros r H; simpl in *; [lia|].
  destruct r; [reflexivity|]. unfold read in *. simpl. apply IH. lia.
Qed.

Lemma read_write_other (r r' : Ref) (l : list Clinic.t) (h : Heap) :
  r <> r' -> read (write r l h) r' = read h r'.
Proof.
  revert r r'; induction h as [|x h IH]; intros r r' H.
  - destruct r; reflexivity.
  - destruct r, r'; try reflexivity; try lia.
    unfold read in *; simpl. apply IH. lia.
Qed.

End Store.

Lemma trim_five_digits_not_blank (query : string) :
  JS.isFiveDigits (JS.trim query) = true ->
  negb (JS.truthy query) || String.eqb (JS.trim query) "" = false.
Proof.
  intros H. apply orb_false_intro.
  - destruct query; [discriminate H | reflexivity].
  - destruct (JS.trim query); [discriminate H | reflexivity].
Qed.

(** C6. For a query whose trimmed form is five digits, the text search
    displays exactly the loaded clinics whose [postal_code] is the trimmed
    query, in their order: no other field is looked at.  The trimming is
    that of the language, so the query may be wrapped in any of its white
    space, the no-break space included; the case folding of the platform
    plays no part. *)
Theorem zip_search_exact (toLowerCase : string -> string)
  (st : Client.State) (query : string) :
  JS.isFiveDigits (JS.trim query) = true ->
  Client.displayed (Client.handleSearch toLowerCase query st)
  = filter (fun c => Client.strictEq (Client.Clinic.postal_code c)
                                     (JS.trim query))
           (Client.source st)
  /\ forall c,
       In c (Client.displayed (Client.handleSearch toLowerCase query st))
       <-> In c (Client.source st)
           /\ Client.Clinic.postal_code c = Some (JS.trim query).
Proof.
  intros H.
  assert (E : Client.displayed (Client.handleSearch toLowerCase query st)
              = filter (fun c => Client.strictEq (Client.Clinic.postal_code c)
                                                 (JS.trim query))
                       (Client.source st)).
  { unfold Client.handleSearch.
    rewrite (trim_five_digits_not_blank _ H). rewrite H.
    unfold Client.arrayFilter, Client.displayed, Client.source.
    destruct (Client.alloc _ (Client.heap st)) as [r h] eqn:Ea. simpl.
    change r with (fst (r, h)). change h with (snd (r, h)) at 1.
    rewrite <- Ea. apply read_alloc. }
  split; [exact E|].
  intros c. rewrite E, filter_In. unfold Client.strictEq.
  destruct (Client.Clinic.postal_code c) as [z|].
  - rewrite String.eqb_eq. split; intros [Hin Hz]; split; auto; congruence.
  - split; intros [Hin Hz]; discriminate.
Qed.

(** The query "90210" between a no-break space and a space keeps the
    clinic of that postal code and drops the one that has the digits in
    its name and address only. *)
Lemma zip_search_exact_witness :
  Client.displayed
    (Client.handleSearch JS.toLowerCase (nbsp ++ "90210 ") ClientSamples.page)
  = [ClientSamples.beverlyHills]
  /\ JS.includes (Client.searchableText JS.toLowerCase ClientSamples.downtown)
                 "90210" = true.
Proof.
  split; [|reflexivity].
  destruct (@zip_search_exact JS.toLowerCase ClientSamples.page
              (nbsp ++ "90210 ")) as [E _].
  - reflexivity.
  - rewrite E. reflexivity.
Defined.

(** A string of white space trims to the empty string. *)
Lemma trim_blank (s : string) :
  JS.isBlank s = true -> JS.trim s = ""%string.
Proof.
  unfold JS.isBlank, JS.trim. intros H. apply String.eqb_eq in H.
  rewrite H. reflexivity.
Qed.

(** A run of ASCII white space is blank, and so is it after a no-break
    space. *)
Lemma isBlank_spaces (s : string) :
  JS.allChars JS.isSpace s = true ->
  JS.isBlank s = true /\ JS.isBlank (nbsp ++ s) = true.
Proof.
  intros H.
  assert (E : JS.trimStart s = ""%string).
  { induction s as [|c s IH]; [reflexivity|].
    cbn [JS.allChars] in H. apply andb_prop in H. destruct H as [Hc Hs].
    cbn [JS.trimStart]. rewrite Hc. apply IH. exact Hs. }
  unfold JS.isBlank. split.
  - rewrite E. reflexivity.
  - change (JS.trimStart (nbsp ++ s)) with (JS.trimStart s).
    rewrite E. reflexivity.
Qed.

(** C10. A text search with an empty or whitespace-only query (one that
    trims to the empty string: see [trim_blank], for every white space of
    the language) displays the loaded list again: every record, in the
    original order. *)
Theorem blank_search_restores_list (toLowerCase : string -> string)
  (st : Client.State) (query : string) :
  JS.trim query = ""%string ->
  Client.displayed (Client.handleSearch toLowerCase query st)
  = Client.source st.
Proof.
  intros H. unfold Client.handleSearch.
  rewrite H. simpl. rewrite orb_true_r. reflexivity.
Qed.

(** A query made of a space, a no-break space and an ideographic space. *)
Lemma blank_search_restores_list_witness :
  Client.displayed
    (Client.handleSearch JS.toLowerCase (" " ++ nbsp ++ ideographicSpace)
                         ClientSamples.page)
  = [ClientSamples.downtown; ClientSamples.beverlyHills].
Proof.
  apply (@blank_search_restores_list JS.toLowerCase ClientSamples.page
           (" " ++ nbsp ++ ideographicSpace)).
  reflexivity.
Defined.

(** *** The sort *)

Lemma insertBy_perm {A} (cmp : A -> A -> Q) (x : A) (l : list A) :
  Permutation (Client.insertBy cmp x l) (x :: l).
Proof.
  induction l as [|y l IH]; simpl; [apply Permutation_refl|].
  destruct (Client.isPositive (cmp x y)); [|apply Permutation_refl].
  eapply perm_trans; [apply perm_skip, IH | apply perm_swap].
Qed.

Lemma jsSort_perm {A} (cmp : A -> A -> Q) (l : list A) :
  Permutation (Client.jsSort cmp l) l.
Proof.
  induction l as [|x l IH]; simpl; [apply perm_nil|].
  eapply perm_trans; [apply insertBy_perm | apply perm_skip, IH].
Qed.

Section SortedBy.

Variable A : Type.
Variable cmp : A -> A -> Q.
Variable R : A -> A -> Prop.
Variable P : A -> Prop.

Hypothesis cmp_decides :
  forall x y, P x -> P y ->
    if Client.isPositive (cmp x y) then R y x else R x y.
Hypothesis R_trans : forall x y z, R x y -> R y z -> R x z.

Lemma insertBy_sorted (x : A) (l : list A) :
  P x -> Forall P l -> StronglySorted R l ->
  StronglySorted R (Client.insertBy cmp x l).
Proof.
  intros Px Pl Hs. induction Hs as [|y l Hs IH Hy]; simpl.
  - constructor; [constructor | constructor].
  - inversion Pl as [|? ? Py Pl']; subst.
    pose proof (cmp_decides Px Py) as Hd.
    destruct (Client.isPositive (cmp x y)).
    + constructor; [apply IH; exact Pl'|].
      apply Forall_forall. intros z Hz.
      apply (Permutation_in _ (insertBy_perm cmp x l)) in Hz.
      destruct Hz as [<-|Hz]; [exact Hd|].
      rewrite Forall_forall in Hy. apply Hy. exact Hz.
    + constructor; [constructor; assumption|].
      constructor; [exact Hd|].
      apply Forall_forall. intros z Hz.
      rewrite Forall_forall in Hy. eapply R_trans; [exact Hd | apply Hy, Hz].
Qed.

Lemma jsSort_sorted (l : list A) :
  Forall P l -> StronglySorted R (Client.jsSort cmp l).
Proof.
  induction l as [|x l IH]; intros Pl; simpl; [constructor|].
  inversion Pl as [|? ? Px Pl']; subst.
  apply insertBy_sorted; [exact Px | | apply IH; exact Pl'].
  apply Forall_forall. intros z Hz.
  apply (Permutation_in _ (jsSort_perm cmp l)) in Hz.
  rewrite Forall_forall in Pl'. apply Pl'. exact Hz.
Qed.

End SortedBy.

Lemma isPositive_minus (x y : Q) :
  if Client.isPositive (x - y) then (y <= x)%Q else (x <= y)%Q.
Proof.
  unfold Client.isPositive.
  destruct (0 <? Qnum (x - y))%Z eqn:E.
  - apply Z.ltb_lt in E. destruct x as [a b], y as [c d].
    unfold Qle; simpl in *. lia.
  - apply Z.ltb_ge in E. destruct x as [a b], y as [c d].
    unfold Qle; simpl in *. lia.
Qed.

Lemma byDistance_decides (a b : Client.Clinic.t) :
  Client.Clinic.distance a <> None -> Client.Clinic.distance b <> None ->
  if Client.isPositive (Client.byDistance a b)
  then distanceLe b a else distanceLe a b.
Proof.
  intros Ha Hb. unfold Client.byDistance, distanceLe.
  destruct (Client.Clinic.distance a) as [x|]; [|congruence].
  destruct (Client.Clinic.distance b) as [y|]; [|congruence].
  pose proof (isPositive_minus x y) as H.
  destruct (Client.isPositive (x - y)); exact H.
Qed.

Lemma distanceLe_trans (a b c : Client.Clinic.t) :
  distanceLe a b -> distanceLe b c -> distanceLe a c.
Proof.
  unfold distanceLe.
  destruct (Client.Clinic.distance a), (Client.Clinic.distance b),
           (Client.Clinic.distance c); try tauto.
  apply Qle_trans.
Qed.

(** *** Location search *)

Section Location.

Variable calculateDistance :
  Client.Clinic.Location -> Client.Clinic.Location -> Q.

Lemma withDistances_located (lat lng : Q) (l : list Client.Clinic.t) :
  forallb hasLocation l = true ->
  Client.withDistances calculateDistance lat lng l
  = Some (map (located calculateDistance lat lng) l).
Proof.
  induction l as [|c l IH]; intros H; [reflexivity|].
  cbn [forallb] in H. apply andb_prop in H. destruct H as [Hc Hl].
  cbn [Client.withDistances map]. rewrite (IH Hl).
  unfold hasLocation in Hc. unfold located.
  destruct (Client.Clinic.location c) as [[x y]|]; [reflexivity|].
  discriminate Hc.
Qed.

Lemma withDistances_throws (lat lng : Q) (l : list Client.Clinic.t) :
  forallb hasLocation l = false ->
  Client.withDistances calculateDistance lat lng l = None.
Proof.
  induction l as [|c l IH]; intros H; [discriminate H|].
  cbn [forallb] in H. cbn [Client.withDistances].
  unfold hasLocation in H at 1.
  destruct (Client.Clinic.location c); [|reflexivity].
  rewrite (IH H). reflexivity.
Qed.

(** A location search over a list that holds a record without coordinates
    throws. *)
Lemma location_search_throws (lat lng : Q) (st : Client.State) :
  forallb hasLocation (Client.source st) = false ->
  Client.handleLocationSearch calculateDistance lat lng st = None.
Proof.
  intros H. unfold Client.handleLocationSearch.
  unfold Client.source in H. rewrite (withDistances_throws lat lng _ H).
  reflexivity.
Qed.

Lemma location_search_returns (lat lng : Q) (st : Client.State) :
  forallb hasLocation (Client.source st) = true ->
  Client.handleLocationSearch calculateDistance lat lng st
  = Some (let cur := Client.alloc
                       (map (located calculateDistance lat lng)
                            (Client.source st))
                       (Client.heap st) in
          let sorted := Client.arraySort Client.byDistance
                          (fst cur) (snd cur) in
          Client.setFilteredClinics (fst sorted) (snd sorted) st).
Proof.
  intros H. unfold Client.handleLocationSearch.
  unfold Client.source in *. rewrite (withDistances_located lat lng _ H).
  reflexivity.
Qed.

(** Over a list whose records all have coordinates, the location search
    displays the loaded records, each with the distance computed from the
    reference point to its coordinates, in ascending order of that
    distance; the loaded list is left as it was, without the field. *)
Lemma location_search_sorted (lat lng : Q) (st : Client.State) :
  Client.clinics st < List.length (Client.heap st) ->
  forallb hasLocation (Client.source st) = true ->
  exists st',
    Client.handleLocationSearch calculateDistance lat lng st = Some st'
    /\ Permutation (Client.displayed st')
                   (map (located calculateDistance lat lng) (Client.source st))
    /\ Forall (distanceFrom calculateDistance lat lng) (Client.displayed st')
    /\ StronglySorted distanceLe (Client.displayed st')
    /\ Client.source st' = Client.source st.
Proof.
  intros Hwf Hall. eexists. split; [apply location_search_returns, Hall|].
  assert (D : Client.displayed
                (let cur := Client.alloc
                              (map (located calculateDistance lat lng)
                                   (Client.source st))
                              (Client.heap st) in
                 let sorted := Client.arraySort Client.byDistance
                                 (fst cur) (snd cur) in
                 Client.setFilteredClinics (fst sorted) (snd sorted) st)
              = Client.jsSort Client.byDistance
                  (map (located calculateDistance lat lng)
                       (Client.source st))).
  { unfold Client.arraySort, Client.alloc, Client.displayed; simpl.
    rewrite read_write_same by (rewrite length_app; simpl; lia).
    unfold Client.read at 1. rewrite app_nth2 by lia.
    rewrite Nat.sub_diag. reflexivity. }
  rewrite D.
  assert (Hd : Forall (distanceFrom calculateDistance lat lng)
                      (map (located calculateDistance lat lng)
                           (Client.source st))).
  { apply Forall_forall. intros c Hc. apply in_map_iff in Hc.
    destruct Hc as [c0 [<- Hc0]].
    rewrite forallb_forall in Hall. specialize (Hall c0 Hc0).
    unfold hasLocation in Hall. unfold located, distanceFrom.
    destruct (Client.Clinic.location c0) as [loc|] eqn:El;
      [|discriminate Hall].
    exists loc. split; [exact El | reflexivity]. }
  split; [apply jsSort_perm|]. split; [|split].
  - apply Forall_forall. intros c Hc.
    apply (Permutation_in _ (jsSort_perm _ _)) in Hc.
    rewrite Forall_forall in Hd. apply Hd. exact Hc.
  - apply jsSort_sorted
      with (P := fun c => Client.Clinic.distance c <> None).
    + intros x y. apply byDistance_decides.
    + apply distanceLe_trans.
    + eapply Forall_impl; [|exact Hd].
      intros c (loc & _ & Hc). rewrite Hc. discriminate.
  - unfold Client.arraySort, Client.alloc, Client.source; simpl.
    rewrite read_write_other by lia.
    unfold Client.read. apply app_nth1. exact Hwf.
Qed.

End Location.

(** From the point (34.05, -118.24), with the taxicab distance, over the
    two located sample clinics: they come out with their distances,
    nearest first, and the loaded list keeps its order and has no
    distance. *)
Lemma location_search_sorted_example :
  exists st,
    Client.handleLocationSearch taxicab (3405 # 100) (-11824 # 100)
      ClientSamples.page = Some st
    /\ map Client.Clinic.place_id (Client.displayed st)
       = ["c-1"; "c-2"]%string
    /\ StronglySorted distanceLe (Client.displayed st)
    /\ map Client.Clinic.distance (Client.source st) = [None; None].
Proof.
  destruct (@location_search_sorted taxicab (3405 # 100) (-11824 # 100)
              ClientSamples.page) as (st & E & _ & _ & Hs & Hsrc).
  - simpl. lia.
  - reflexivity.
  - exists st. split; [exact E|]. split; [|split; [exact Hs|]].
    + vm_compute in E. injection E as <-. reflexivity.
    + rewrite Hsrc. reflexivity.
Qed.

(** C7. The location search does not return a sorted list for every
    loaded list.  The sample page has loaded three records, the second
    without coordinates, as the comprehensive script writes the record of
    a place that has none: the handler throws, whatever the distance
    function, and the page goes on displaying the loaded list, unsorted
    and without a distance. *)
Theorem location_search_throws_without_coordinates
  (calculateDistance : Client.Clinic.Location -> Client.Clinic.Location -> Q)
  (toLowerCase : string -> string) :
  Client.handleLocationSearch calculateDistance (3405 # 100) (-11824 # 100)
    ClientSamples.pageOfThree = None
  /\ Client.displayed
       (perform toLowerCase calculateDistance
                (LocationSearch (3405 # 100) (-11824 # 100))
                ClientSamples.pageOfThree)
     = [ClientSamples.downtown; ClientSamples.unlocated;
        ClientSamples.beverlyHills]
  /\ map Client.Clinic.distance
         (Client.displayed
            (perform toLowerCase calculateDistance
                     (LocationSearch (3405 # 100) (-11824 # 100))
                     ClientSamples.pageOfThree))
     = [None; None; None].
Proof.
  assert (E : Client.handleLocationSearch calculateDistance
                (3405 # 100) (-11824 # 100) ClientSamples.pageOfThree = None).
  { apply location_search_throws. reflexivity. }
  split; [exact E|]. cbn [perform]. rewrite E. split; reflexivity.
Qed.

(** *** The loaded list is never written to *)

Section Frame.

Import Client.

Variable toLowerCase : string -> string.

Lemma madeAfter_alloc (h0 : Heap) (l : list Clinic.t) :
  madeAfter h0 (alloc l h0).
Proof.
  unfold madeAfter, alloc; simpl. rewrite length_app; simpl.
  repeat split; try lia.
  intros r Hr. unfold read. apply app_nth1. exact Hr.
Qed.

Lemma madeAfter_filter (h0 : Heap) (p : Clinic.t -> bool) (cur : Ref * Heap) :
  madeAfter h0 cur -> madeAfter h0 (arrayFilter p (fst cur) (snd cur)).
Proof.
  intros (H1 & H2 & H3). unfold madeAfter, arrayFilter, alloc; simpl.
  rewrite length_app; simpl. repeat split; try lia.
  intros r Hr. rewrite <- (H3 r Hr). unfold read. apply app_nth1. lia.
Qed.

Lemma madeAfter_filterWhen (h0 : Heap) (cond : bool) (p : Clinic.t -> bool)
  (cur : Ref * Heap) :
  madeAfter h0 cur -> madeAfter h0 (filterWhen cond p cur).
Proof.
  intros H. unfold filterWhen. destruct cond; [|exact H].
  apply madeAfter_filter. exact H.
Qed.

Lemma madeAfter_sort (h0 : Heap) (cmp : Clinic.t -> Clinic.t -> Q)
  (cur : Ref * Heap) :
  madeAfter h0 cur -> madeAfter h0 (arraySort cmp (fst cur) (snd cur)).
Proof.
  intros (H1 & H2 & H3). unfold madeAfter, arraySort; simpl.
  rewrite length_write. repeat split; try lia.
  intros r Hr. rewrite read_write_other by lia. apply H3. exact Hr.
Qed.

Lemma applyFilters_madeAfter (st : State) :
  exists cur,
    madeAfter (heap st) cur
    /\ applyFilters toLowerCase st
       = setFilteredClinics (fst cur) (snd cur) st.
Proof.
  unfold applyFilters. eexists. split; [|reflexivity].
  match goal with
  | |- madeAfter _ (if ?c then _ else _) =>
      destruct c; [apply madeAfter_sort|]
  end;
  repeat apply madeAfter_filterWhen; apply madeAfter_alloc.
Qed.

Lemma handleSearch_madeAfter (query : string) (st : State) :
  String.eqb (JS.trim query) "" = false ->
  exists cur,
    madeAfter (heap st) cur
    /\ handleSearch toLowerCase query st
       = setFilteredClinics (fst cur) (snd cur) st.
Proof.
  intros H. unfold handleSearch.
  assert (T : JS.truthy query = true).
  { destruct query; [discriminate H | reflexivity]. }
  rewrite T, H. cbn [negb orb].
  match goal with
  | |- context [arrayFilter ?p ?r ?h] => exists (arrayFilter p r h)
  end.
  split; [apply madeAfter_alloc|].
  unfold arrayFilter, alloc. reflexivity.
Qed.

Lemma handleLocationSearch_madeAfter
  (d : Clinic.Location -> Clinic.Location -> Q) (lat lng : Q) (st : State) :
  forallb hasLocation (source st) = true ->
  exists cur,
    madeAfter (heap st) cur
    /\ handleLocationSearch d lat lng st
       = Some (setFilteredClinics (fst cur) (snd cur) st).
Proof.
  intros H. rewrite (location_search_returns d lat lng st H). cbv zeta.
  match goal with
  | |- context [alloc ?l ?h] =>
      exists (arraySort byDistance (fst (alloc l h)) (snd (alloc l h)))
  end.
  split; [apply madeAfter_sort, madeAfter_alloc | reflexivity].
Qed.

End Frame.

(** The claim as written fails: after a text search with an empty query
    the displayed list is the loaded array itself, not a new one. *)
Lemma blank_search_aliases_source_counterexample :
  Client.clinics ClientSamples.page
  < List.length (Client.heap ClientSamples.page)
  /\ Client.filteredClinics ClientSamples.page
     <> Client.clinics ClientSamples.page
  /\ Client.filteredClinics
       (Client.handleSearch JS.toLowerCase "" ClientSamples.page)
     = Client.clinics ClientSamples.page
  /\ ~ (List.length (Client.heap ClientSamples.page)
        <= Client.filteredClinics
             (Client.handleSearch JS.toLowerCase "" ClientSamples.page)).
Proof. simpl. repeat split; try lia. Qed.

(** C8, amended.  No handler of the page writes to an array that exists
    when it starts: in particular the loaded list keeps its elements and
    their order, whatever the case folding and the distance function of
    the platform.  The displayed list is a new array, except after a text
    search with an empty or whitespace-only query (any white space of the
    language), where it is the loaded array itself; a location search
    that throws sets nothing. *)
Theorem page_actions_frame
  (toLowerCase : string -> string)
  (calculateDistance : Client.Clinic.Location -> Client.Clinic.Location -> Q)
  (action : Action) (st : Client.State) :
  Client.clinics st < List.length (Client.heap st) ->
  let st' := perform toLowerCase calculateDistance action st in
  Client.clinics st' = Client.clinics st
  /\ (forall r, r < List.length (Client.heap st) ->
                Client.read (Client.heap st') r = Client.read (Client.heap st) r)
  /\ Client.source st' = Client.source st
  /\ (if isFailedLocationSearch action st then st' = st
      else if isBlankSearch action
      then Client.filteredClinics st' = Client.clinics st
      else List.length (Client.heap st) <= Client.filteredClinics st').
Proof.
  intros Hwf st'.
  destruct (isFailedLocationSearch action st) eqn:Hf.
  { destruct action as [query|lat lng|]; try discriminate Hf.
    cbn [isFailedLocationSearch] in Hf. apply negb_true_iff in Hf.
    subst st'. cbn [perform].
    rewrite (location_search_throws calculateDistance lat lng st Hf).
    repeat split; reflexivity. }
  destruct (isBlankSearch action) eqn:Hb.
  - destruct action as [query| |]; try discriminate Hb. simpl in Hb.
    subst st'. simpl. unfold Client.handleSearch.
    rewrite Hb, orb_true_r. simpl. repeat split; reflexivity.
  - assert (E : exists cur,
               madeAfter (Client.heap st) cur
               /\ st' = Client.setFilteredClinics (fst cur) (snd cur) st).
    { subst st'. destruct action as [query|lat lng|]; cbn [perform].
      - apply handleSearch_madeAfter. exact Hb.
      - cbn [isFailedLocationSearch] in Hf. apply negb_false_iff in Hf.
        destruct (@handleLocationSearch_madeAfter calculateDistance lat lng
                    st Hf) as (cur & Hc & E).
        exists cur. rewrite E. split; [exact Hc | reflexivity].
      - apply applyFilters_madeAfter. }
    destruct E as (cur & (H1 & H2 & H3) & ->). simpl.
    split; [reflexivity|]. split; [exact H3|].
    split; [|exact H1].
    unfold Client.source; simpl. apply H3. exact Hwf.
Qed.

(** A search for "beverly" on the sample page leaves the loaded array as
    it was and displays a new array. *)
Lemma page_actions_frame_witness :
  let st' := perform JS.toLowerCase taxicab (TextSearch "Beverly")
               ClientSamples.page in
  Client.source st' = [ClientSamples.downtown; ClientSamples.beverlyHills]
  /\ Client.displayed st' = [ClientSamples.beverlyHills]
  /\ List.length (Client.heap ClientSamples.page)
     <= Client.filteredClinics st'.
Proof.
  intros st'.
  destruct (@page_actions_frame JS.toLowerCase taxicab (TextSearch "Beverly")
              ClientSamples.page) as (_ & _ & Hs & Hf).
  - simpl. lia.
  - split; [exact Hs|]. split; [reflexivity | exact Hf].
Defined.

(* ===================================================================== *)
(** ** Reasoning about scripts *)
(* ===================================================================== *)

Section Keeps.

Variable W : Type.
Variable I : W -> Prop.

Lemma keeps_ret {A} (P : A -> Prop) (a : A) : P a -> keeps I P (ret a).
Proof. intros H w Hw. split; [exact Hw | exact H]. Qed.

Lemma keeps_throw {A} (P : A -> Prop) (e : string) : keeps I P (throw e).
Proof. intros w Hw. split; [exact Hw | exact Logic.I]. Qed.

Lemma keeps_bind {A B} (P : A -> Prop) (Q : B -> Prop)
  (m : Script.M W A) (k : A -> Script.M W B) :
  keeps I P m -> (forall a, P a -> keeps I Q (k a)) -> keeps I Q (bind m k).
Proof.
  intros Hm Hk w Hw. unfold bind.
  specialize (Hm w Hw). destruct (m w) as [[a|e|] w']; simpl in *.
  - destruct Hm as [Hw' Ha]. apply Hk; assumption.
  - split; [tauto | exact Logic.I].
  - split; [tauto | exact Logic.I].
Qed.

Lemma keeps_tryCatch {A} (P : A -> Prop)
  (m : Script.M W A) (h : string -> Script.M W A) :
  keeps I P m -> (forall e, keeps I P (h e)) -> keeps I P (tryCatch m h).
Proof.
  intros Hm Hh w Hw. unfold tryCatch.
  specialize (Hm w Hw). destruct (m w) as [[a|e|] w']; simpl in *.
  - exact Hm.
  - apply Hh. tauto.
  - exact Hm.
Qed.

Lemma keeps_forOf {A S} (P : S -> Prop) (body : A -> S -> Script.M W S)
  (l : list A) :
  (forall x acc, P acc -> keeps I P (body x acc)) ->
  forall acc, P acc -> keeps I P (forOf body l acc).
Proof.
  intros Hb. induction l as [|x l IH]; intros acc Hacc; simpl.
  - apply keeps_ret. exact Hacc.
  - eapply keeps_bind; [apply Hb; exact Hacc | exact IH].
Qed.

Lemma keeps_weaken {A} (P Q : A -> Prop) (m : Script.M W A) :
  (forall a, P a -> Q a) -> keeps I P m -> keeps I Q m.
Proof.
  intros H Hm w Hw. specialize (Hm w Hw). destruct Hm as [H1 H2].
  split; [exact H1|]. destruct (fst (m w)); auto.
Qed.

End Keeps.

(* ===================================================================== *)
(** ** Properties of the aggregators *)
(* ===================================================================== *)

Section MapFacts.

Variable V : Type.

Lemma keys_set (k : string) (v : V) (m : JsMap.t V) :
  JsMap.keys (JsMap.set k v m)
  = if JsMap.has m k then JsMap.keys m else JsMap.keys m ++ [k].
Proof.
  induction m as [|[k' v'] m IH]; simpl; [reflexivity|].
  destruct (String.eqb k' k) eqn:E; simpl.
  - apply String.eqb_eq in E. subst. reflexivity.
  - unfold JsMap.keys in *. rewrite IH.
    destruct (JsMap.has m k); reflexivity.
Qed.

Lemma has_In (k : string) (m : JsMap.t V) :
  JsMap.has m k = true <-> In k (JsMap.keys m).
Proof.
  unfold JsMap.has, JsMap.keys. rewrite existsb_exists, in_map_iff.
  split; intros [kv [H1 H2]]; exists kv.
  - apply String.eqb_eq in H2. tauto.
  - rewrite String.eqb_eq. tauto.
Qed.

Lemma NoDup_keys_set (k : string) (v : V) (m : JsMap.t V) :
  NoDup (JsMap.keys m) -> NoDup (JsMap.keys (JsMap.set k v m)).
Proof.
  intros H. rewrite keys_set. destruct (JsMap.has m k) eqn:E; [exact H|].
  apply NoDup_app; repeat split.
  - exact H.
  - constructor; [intros []|constructor].
  - intros x Hx [<-|[]]. apply has_In in Hx. congruence.
Qed.

Lemma In_keys_set (k k' : string) (v : V) (m : JsMap.t V) :
  In k' (JsMap.keys (JsMap.set k v m)) <-> k' = k \/ In k' (JsMap.keys m).
Proof.
  rewrite keys_set. destruct (JsMap.has m k) eqn:E.
  - apply has_In in E. split; [tauto|]. intros [->|H]; assumption.
  - rewrite in_app_iff. simpl. split; intros H; intuition.
Qed.

Lemma In_set (k : string) (v : V) (kv : string * V) (m : JsMap.t V) :
  In kv (JsMap.set k v m) -> kv = (k, v) \/ In kv m.
Proof.
  induction m as [|[k' v'] m IH]; simpl.
  - intros [H|[]]; auto.
  - destruct (String.eqb k' k); simpl; intros [H|H]; auto.
    destruct (IH H); auto.
Qed.

End MapFacts.

Lemma keyedById_set (c : AllStates.Clinic.t) (m : JsMap.t AllStates.Clinic.t) :
  keyedById m -> keyedById (JsMap.set (AllStates.Clinic.id c) c m).
Proof.
  unfold keyedById. rewrite !Forall_forall. intros H kv Hkv.
  apply In_set in Hkv. destruct Hkv as [->|Hkv]; [reflexivity|].
  apply H. exact Hkv.
Qed.

Lemma oneRecordPerId_set (c : AllStates.Clinic.t)
  (m : JsMap.t AllStates.Clinic.t) :
  oneRecordPerId m -> oneRecordPerId (JsMap.set (AllStates.Clinic.id c) c m).
Proof.
  intros [H1 H2]. split; [apply NoDup_keys_set, H1 | apply keyedById_set, H2].
Qed.

Lemma oneRecordPerId_values (m : JsMap.t AllStates.Clinic.t) :
  oneRecordPerId m -> NoDup (map AllStates.Clinic.id (JsMap.values m)).
Proof.
  intros [H1 H2].
  assert (E : map AllStates.Clinic.id (JsMap.values m) = JsMap.keys m).
  { unfold JsMap.values, JsMap.keys. rewrite map_map.
    apply map_ext_in. intros kv Hkv. unfold keyedById in H2.
    rewrite Forall_forall in H2. symmetry. apply H2. exact Hkv. }
  rewrite E. exact H1.
Qed.

(** Whether a place is kept, and the record made of it, do not depend on
    the counters. *)
Lemma parseClinicFromPlace_fst (place : Place.t) (w w' : AllStates.World) :
  fst (AllStates.parseClinicFromPlace place w)
  = fst (AllStates.parseClinicFromPlace place w').
Proof.
  unfold AllStates.parseClinicFromPlace.
  repeat match goal with
         | |- context [match ?x with _ => _ end] => destruct x
         end; reflexivity.
Qed.

Lemma parseClinicFromPlace_trace (place : Place.t) (w : AllStates.World) :
  AllStates.trace (snd (AllStates.parseClinicFromPlace place w))
  = AllStates.trace w.
Proof.
  unfold AllStates.parseClinicFromPlace.
  repeat match goal with
         | |- context [match ?x with _ => _ end] => destruct x
         end; reflexivity.
Qed.

Lemma addPlaces_oneRecordPerId (places : list Place.t)
  (m : JsMap.t AllStates.Clinic.t) (w : AllStates.World) :
  oneRecordPerId m -> oneRecordPerId (fst (AllStates.addPlaces places m w)).
Proof.
  revert m w. induction places as [|p ps IH]; intros m w H; simpl; [exact H|].
  destruct (AllStates.parseClinicFromPlace p w) as [[c|] w1].
  - apply IH. apply oneRecordPerId_set. exact H.
  - apply IH. exact H.
Qed.

Lemma addPlaces_trace (places : list Place.t)
  (m : JsMap.t AllStates.Clinic.t) (w : AllStates.World) :
  AllStates.trace (snd (AllStates.addPlaces places m w)) = AllStates.trace w.
Proof.
  revert m w. induction places as [|p ps IH]; intros m w; simpl; [reflexivity|].
  pose proof (parseClinicFromPlace_trace p w) as E.
  destruct (AllStates.parseClinicFromPlace p w) as [[c|] w1]; simpl in E;
    rewrite IH; exact E.
Qed.

(** The identifiers already in the map stay, in their places. *)
Lemma addPlaces_keys_incl (places : list Place.t)
  (m : JsMap.t AllStates.Clinic.t) (w : AllStates.World) (k : string) :
  In k (JsMap.keys m) ->
  In k (JsMap.keys (fst (AllStates.addPlaces places m w))).
Proof.
  revert m w. induction places as [|p ps IH]; intros m w H; simpl; [exact H|].
  destruct (AllStates.parseClinicFromPlace p w) as [[c|] w1].
  - apply IH. apply In_keys_set. right. exact H.
  - apply IH. exact H.
Qed.

(** The identifier of every kept place is in the map afterwards. *)
Lemma addPlaces_kept (places : list Place.t)
  (m : JsMap.t AllStates.Clinic.t) (w w0 : AllStates.World)
  (p : Place.t) (c : AllStates.Clinic.t) :
  In p places ->
  fst (AllStates.parseClinicFromPlace p w0) = Some c ->
  In (AllStates.Clinic.id c)
     (JsMap.keys (fst (AllStates.addPlaces places m w))).
Proof.
  revert m w. induction places as [|q ps IH]; intros m w Hin Hc; [destruct Hin|].
  simpl. destruct Hin as [->|Hin].
  - rewrite (parseClinicFromPlace_fst p w0 w) in Hc.
    destruct (AllStates.parseClinicFromPlace p w) as [[c'|] w1];
      simpl in Hc; [|discriminate].
    injection Hc as ->. apply addPlaces_keys_incl.
    apply In_keys_set. left. reflexivity.
  - destruct (AllStates.parseClinicFromPlace q w) as [[c'|] w1];
      apply IH; assumption.
Qed.

(** Places whose identifiers are all in the map add no key. *)
Lemma addPlaces_keys_fixed (places : list Place.t)
  (m : JsMap.t AllStates.Clinic.t) (w : AllStates.World) :
  (forall p c, In p places ->
               fst (AllStates.parseClinicFromPlace p w) = Some c ->
               In (AllStates.Clinic.id c) (JsMap.keys m)) ->
  JsMap.keys (fst (AllStates.addPlaces places m w)) = JsMap.keys m.
Proof.
  revert m w. induction places as [|q ps IH]; intros m w H; simpl; [reflexivity|].
  destruct (AllStates.parseClinicFromPlace q w) as [[c|] w1] eqn:E.
  - assert (Hc : In (AllStates.Clinic.id c) (JsMap.keys m)).
    { apply (H q c); [left; reflexivity | rewrite E; reflexivity]. }
    rewrite IH.
    + rewrite keys_set. apply has_In in Hc. rewrite Hc. reflexivity.
    + intros p c' Hp Hc'. apply In_keys_set. right.
      apply (H p c'); [right; exact Hp|].
      rewrite (parseClinicFromPlace_fst p w w1). exact Hc'.
  - apply IH. intros p c' Hp Hc'.
    apply (H p c'); [right; exact Hp|].
    rewrite (parseClinicFromPlace_fst p w w1). exact Hc'.
Qed.

Lemma addPlaces_twice (places : list Place.t)
  (m : JsMap.t AllStates.Clinic.t) (w w' : AllStates.World) :
  JsMap.keys (fst (AllStates.addPlaces places
                     (fst (AllStates.addPlaces places m w)) w'))
  = JsMap.keys (fst (AllStates.addPlaces places m w)).
Proof.
  apply addPlaces_keys_fixed. intros p c Hp Hc.
  eapply addPlaces_kept; eassumption.
Qed.

(** *** The files of the batch script *)

Lemma filesUnique_emit (e : AllStates.Event) (w : AllStates.World) :
  (forall stateCode clinics,
     e = AllStates.WriteFile stateCode clinics ->
     NoDup (map AllStates.Clinic.id clinics)) ->
  filesUnique w -> filesUnique (AllStates.emit e w).
Proof.
  intros He Hw stateCode clinics [Hin|Hin].
  - apply (He stateCode). exact Hin.
  - apply (Hw stateCode). exact Hin.
Qed.

Lemma filesUnique_same_trace (w w' : AllStates.World) :
  AllStates.trace w' = AllStates.trace w -> filesUnique w -> filesUnique w'.
Proof. unfold filesUnique. intros E H. rewrite E. exact H. Qed.

Lemma makeRequest_keeps : keeps filesUnique (fun _ : unit => True)
                                AllStates.makeRequest.
Proof.
  intros w Hw. unfold AllStates.makeRequest.
  destruct (_ <=? _)%N; simpl; (split; [|exact I]);
    (apply filesUnique_emit; [intros ? ? E; discriminate E|]);
    (eapply filesUnique_same_trace; [reflexivity | exact Hw]).
Qed.

Lemma runQuery_keeps (src : AllStates.Source) (stateCode city query : string)
  (clinics : JsMap.t AllStates.Clinic.t) :
  oneRecordPerId clinics ->
  keeps filesUnique oneRecordPerId
        (AllStates.runQuery src stateCode city query clinics).
Proof.
  intros Hc. unfold AllStates.runQuery.
  eapply keeps_bind; [apply makeRequest_keeps|]. intros _ _.
  apply keeps_tryCatch; [|intros e; apply keeps_ret; exact Hc].
  eapply keeps_bind with (P := fun _ => True).
  - intros w Hw. unfold AllStates.fetchSearch; simpl. split; [|exact I].
    apply filesUnique_emit; [intros ? ? E; discriminate E | exact Hw].
  - intros response _. destruct response as [e|status|data].
    + apply keeps_throw.
    + apply keeps_ret. exact Hc.
    + intros w Hw. unfold lift.
      destruct (AllStates.addPlaces _ clinics w) as [m w'] eqn:E. simpl.
      split.
      * eapply filesUnique_same_trace; [|exact Hw].
        change w' with (snd (m, w')). rewrite <- E. apply addPlaces_trace.
      * change m with (fst (m, w')). rewrite <- E.
        apply addPlaces_oneRecordPerId. exact Hc.
Qed.

Lemma collectStateData_keeps (src : AllStates.Source) (stateCode : string)
  (stateInfo : AllStates.StateInfo) :
  keeps filesUnique (fun _ : bool => True)
        (AllStates.collectStateData src stateCode stateInfo).
Proof.
  unfold AllStates.collectStateData.
  eapply keeps_bind with (P := fun _ => True).
  { intros w Hw. simpl. split; [|exact I].
    apply filesUnique_emit; [intros ? ? E; discriminate E | exact Hw]. }
  intros _ _.
  eapply keeps_bind with (P := oneRecordPerId).
  { apply keeps_forOf.
    - intros city acc Hacc. apply keeps_forOf; [|exact Hacc].
      intros query acc' Hacc'. apply runQuery_keeps. exact Hacc'.
    - split; [constructor | constructor]. }
  intros clinics Hc.
  destruct (List.length (JsMap.values clinics) =? 0)%nat.
  - apply keeps_ret. exact I.
  - eapply keeps_bind with (P := fun _ => True);
      [|intros; apply keeps_ret; exact I].
    intros w Hw. simpl. split; [|exact I].
    apply filesUnique_emit; [|exact Hw].
    intros code cl E. injection E as _ <-.
    apply oneRecordPerId_values. exact Hc.
Qed.

(** *** The identifier sets of the comprehensive script *)

Lemma idEqb_eq (a b : option string) :
  Comprehensive.idEqb a b = true <-> a = b.
Proof.
  destruct a as [x|], b as [y|]; simpl; try (split; congruence).
  rewrite String.eqb_eq. split; congruence.
Qed.

Lemma setHas_In (s : IdSet) (x : option string) :
  setHas s x = true <-> In x s.
Proof.
  unfold setHas. rewrite existsb_exists. split.
  - intros [y [Hy E]]. apply idEqb_eq in E. subst. exact Hy.
  - intros H. exists x. split; [exact H | apply idEqb_eq; reflexivity].
Qed.

Lemma In_setAdd (x y : option string) (s : IdSet) :
  In y (setAdd x s) <-> y = x \/ In y s.
Proof.
  unfold setAdd. destruct (setHas s x) eqn:E.
  - apply setHas_In in E. split; [tauto|]. intros [->|H]; assumption.
  - rewrite in_app_iff; simpl. split; intros H; intuition.
Qed.

Lemma NoDup_setAdd (x : option string) (s : IdSet) :
  NoDup s -> NoDup (setAdd x s).
Proof.
  intros H. unfold setAdd. destruct (setHas s x) eqn:E; [exact H|].
  apply NoDup_app; repeat split.
  - exact H.
  - constructor; [intros []|constructor].
  - intros y Hy [<-|[]]. apply setHas_In in Hy. congruence.
Qed.

Lemma NoDup_setAddAll (xs : list (option string)) (s : IdSet) :
  NoDup s -> NoDup (setAddAll xs s).
Proof.
  revert s. induction xs as [|x xs IH]; intros s H; simpl; [exact H|].
  apply IH. apply NoDup_setAdd. exact H.
Qed.

Lemma In_setAddAll (xs : list (option string)) (s : IdSet) (y : option string) :
  In y (setAddAll xs s) <-> In y xs \/ In y s.
Proof.
  revert s. induction xs as [|x xs IH]; intros s; simpl; [tauto|].
  unfold setAddAll in *. simpl. rewrite IH, In_setAdd.
  split; intros H; intuition.
Qed.

Lemma setAddAll_fixed (xs : list (option string)) (s : IdSet) :
  (forall x, In x xs -> In x s) -> setAddAll xs s = s.
Proof.
  induction xs as [|x xs IH]; intros H; [reflexivity|].
  unfold setAddAll in *. simpl.
  assert (E : setAdd x s = s).
  { unfold setAdd. assert (Hx : setHas s x = true).
    { apply setHas_In, H. left. reflexivity. }
    rewrite Hx. reflexivity. }
  rewrite E. apply IH. intros y Hy. apply H. right. exact Hy.
Qed.

(** What the aggregators do keep.  In the batch script, the map filled
    from any stream of places holds no two records with the same
    identifier, feeding it the same stream again leaves its size and its
    identifiers as they are, and every file that the collection of a state
    writes has pairwise different identifiers.  In the comprehensive
    script, the identifiers merged from the grid search and from the city
    search are pairwise different, are exactly those found by either
    strategy, and merging the same streams again changes nothing. *)
Lemma aggregators_unique_idempotent :
  (forall (places : list Place.t) (w w' : AllStates.World),
      let clinics := fst (AllStates.addPlaces places JsMap.empty w) in
      let again := fst (AllStates.addPlaces places clinics w') in
      NoDup (map AllStates.Clinic.id (JsMap.values clinics))
      /\ JsMap.size again = JsMap.size clinics
      /\ map AllStates.Clinic.id (JsMap.values again)
         = map AllStates.Clinic.id (JsMap.values clinics))
  /\ (forall (src : AllStates.Source) (stateCode : string)
             (stateInfo : AllStates.StateInfo) (w : AllStates.World),
         filesUnique w ->
         filesUnique
           (snd (AllStates.collectStateData src stateCode stateInfo w)))
  /\ (forall gridIds cityIds : IdSet,
         let allClinicIds := setAddAll cityIds (setAddAll gridIds []) in
         NoDup allClinicIds
         /\ (forall x, In x allClinicIds <-> In x gridIds \/ In x cityIds)
         /\ setAddAll cityIds (setAddAll gridIds allClinicIds) = allClinicIds).
Proof.
  split; [|split].
  - intros places w w' clinics again.
    assert (H1 : oneRecordPerId clinics).
    { apply addPlaces_oneRecordPerId. split; constructor. }
    assert (H2 : oneRecordPerId again).
    { apply addPlaces_oneRecordPerId. exact H1. }
    assert (K : JsMap.keys again = JsMap.keys clinics).
    { apply addPlaces_twice. }
    assert (V : forall m, oneRecordPerId m ->
                map AllStates.Clinic.id (JsMap.values m) = JsMap.keys m).
    { intros m [_ Hk]. unfold JsMap.values, JsMap.keys. rewrite map_map.
      apply map_ext_in. intros kv Hkv. unfold keyedById in Hk.
      rewrite Forall_forall in Hk. symmetry. apply Hk. exact Hkv. }
    split; [apply oneRecordPerId_values; exact H1|]. split.
    + unfold JsMap.size. rewrite <- (length_map fst again).
      rewrite <- (length_map fst clinics).
      change (List.length (JsMap.keys again) = List.length (JsMap.keys clinics)).
      rewrite K. reflexivity.
    + rewrite (V _ H1), (V _ H2). exact K.
  - intros src stateCode stateInfo w Hw.
    exact (proj1 (@collectStateData_keeps src stateCode stateInfo w Hw)).
  - intros gridIds cityIds allClinicIds. subst allClinicIds.
    split; [|split].
    + apply NoDup_setAddAll, NoDup_setAddAll. constructor.
    + intros x. rewrite !In_setAddAll. simpl. tauto.
    + rewrite (setAddAll_fixed gridIds).
      * apply setAddAll_fixed. intros x Hx. apply In_setAddAll. tauto.
      * intros x Hx. rewrite !In_setAddAll. tauto.
Qed.

(** The collection of Texas from a source that returns the same place
    twice in every answer writes a file with one record per identifier. *)
Lemma aggregators_unique_idempotent_witness :
  let w := snd (AllStates.collectStateData (constantSource twiceFound) "TX"
                  (AllStates.mkStateInfo "Texas" ["Austin"])
                  AllStates.initialWorld) in
  (exists clinics,
      In (AllStates.WriteFile "TX" clinics) (AllStates.trace w)
      /\ map AllStates.Clinic.id clinics = ["p-1"; "p-2"]%string)
  /\ filesUnique w.
Proof.
  intros w. split.
  - eexists. split; [left; reflexivity | reflexivity].
  - destruct aggregators_unique_idempotent as (_ & H & _).
    apply H. intros code cl [].
Defined.

(** C4. The collection of the comprehensive script can hold two records
    with the same [place_id]: the identifiers are merged in a set, but the
    records of the file come from the details calls, one per identifier
    of the set, and are pushed without a look at the identifier that the
    answer carries.  With a source that lists a practice under two
    identifiers and answers the details call of either with the current
    listing, the run for California makes one details call per
    identifier and writes a file with two records of the same
    [place_id]. *)
Theorem comprehensive_file_repeats_place_id :
  let r := main Samples.cfg mergedListingsSource workingFileSystem ["CA"]
                initialWorld in
  fst r = Ok tt
  /\ detailCalls (trace (snd r))
     = [Some "ChIJ-pasadena"; Some "ChIJ-pasadena-former"]
  /\ comprehensiveFiles (trace (snd r))
     = [("CA", [Some "ChIJ-pasadena"; Some "ChIJ-pasadena"])].
Proof. vm_compute. repeat split. Qed.

(* ===================================================================== *)
(** ** Properties of the city text search *)
(* ===================================================================== *)

Lemma isDermatologyClinic_trace (place : Place.t) (w : World) :
  trace (snd (isDermatologyClinic place w)) = trace w.
Proof.
  unfold isDermatologyClinic.
  repeat match goal with
         | |- context [if ?b then _ else _] => destruct b
         end; reflexivity.
Qed.

Lemma isDermatologyClinic_requests (place : Place.t) (w : World) :
  TOTAL_REQUESTS (snd (isDermatologyClinic place w)) = TOTAL_REQUESTS w.
Proof.
  unfold isDermatologyClinic.
  repeat match goal with
         | |- context [if ?b then _ else _] => destruct b
         end; reflexivity.
Qed.

Lemma filterDermatology_trace (l : list Place.t) (w : World) :
  trace (snd (filterDermatology l w)) = trace w.
Proof.
  revert w. induction l as [|p l IH]; intros w; simpl; [reflexivity|].
  pose proof (isDermatologyClinic_trace p w) as E.
  destruct (isDermatologyClinic p w) as [keep w1]. simpl in E.
  specialize (IH w1). destruct (filterDermatology l w1) as [rest w2].
  simpl in *. congruence.
Qed.

Lemma filterDermatology_requests (l : list Place.t) (w : World) :
  TOTAL_REQUESTS (snd (filterDermatology l w)) = TOTAL_REQUESTS w.
Proof.
  revert w. induction l as [|p l IH]; intros w; simpl; [reflexivity|].
  pose proof (isDermatologyClinic_requests p w) as E.
  destruct (isDermatologyClinic p w) as [keep w1]. simpl in E.
  specialize (IH w1). destruct (filterDermatology l w1) as [rest w2].
  simpl in *. congruence.
Qed.

(** Classifying and transforming the places of an answer touches the
    rejection counters only. *)
Lemma clinicsOf_run (cfg : Config) (body : SearchBody) (w : World) :
  exists found w',
    clinicsOf cfg body w = (Ok found, w')
    /\ trace w' = trace w
    /\ TOTAL_REQUESTS w' = TOTAL_REQUESTS w.
Proof.
  unfold clinicsOf, lift.
  pose proof (filterDermatology_trace
                (match places body with Some l => l | None => [] end) w) as E1.
  pose proof (filterDermatology_requests
                (match places body with Some l => l | None => [] end) w) as E2.
  destruct (filterDermatology _ w) as [kept w']. simpl in *.
  eexists; eexists. split; [reflexivity|]. split; assumption.
Qed.

(** One turn of the loop, written out. *)
Lemma pageLoop_step (cfg : Config) (src : Source) (query : string)
  (fuel : nat) (pageToken : option string) (pages : nat)
  (allClinics : list Clinic.t) (w : World) :
  pageLoop (S fuel) cfg src query pageToken pages allClinics w
  = if reaches (TOTAL_REQUESTS w) (MAX_REQUESTS cfg)
    then (Throw limitMessage, emit Refused w)
    else
      let w1 := emit (Sleep (rateDelay cfg)) (bumpRequests w) in
      let req := SearchText query
                   (if JS.truthyOpt pageToken then pageToken else None) in
      let w2 := emit (Fetch req) w1 in
      match search src (TOTAL_REQUESTS w1) req with
      | NetworkError e => (Throw e, w2)
      | HttpError status =>
          (Throw ("Text search failed: " ++ decimal status)%string, w2)
      | HttpOk data =>
          match clinicsOf cfg data w2 with
          | (Ok found, w3) =>
              let w4 := if JS.truthyOpt (nextPageToken data)
                        then emit (Sleep (Ms (NEXT_PAGE_DELAY_MS cfg))) w3
                        else w3 in
              if JS.truthyOpt (nextPageToken data) && (pages + 1 <? 3)
              then pageLoop fuel cfg src query (nextPageToken data)
                            (pages + 1) (allClinics ++ found) w4
              else (Ok (allClinics ++ found), w4)
          | (Throw e, w3) => (Throw e, w3)
          | (OutOfFuel, w3) => (OutOfFuel, w3)
          end
      end.
Proof.
  cbn [pageLoop]. unfold bind at 1. unfold checkRequestLimit.
  destruct (reaches (TOTAL_REQUESTS w) (MAX_REQUESTS cfg)); [reflexivity|].
  unfold bind at 1. unfold fetchSearch at 1. cbv zeta.
  destruct (search src _ _) as [e|status|data]; try reflexivity.
  unfold bind at 1.
  destruct (clinicsOf cfg data _) as [[found| |] w3]; try reflexivity.
  unfold bind at 1.
  destruct (JS.truthyOpt (nextPageToken data)); unfold effect, ret;
    cbn [andb]; destruct (pages + 1 <? 3); reflexivity.
Qed.

(** Steps beyond the cap of three pages are never used. *)
Lemma pageLoop_fuel (cfg : Config) (src : Source) (query : string)
  (fuel : nat) :
  forall (pageToken : option string) (pages : nat)
         (allClinics : list Clinic.t) (w : World),
    pages < 3 -> 3 - pages <= fuel ->
    pageLoop fuel cfg src query pageToken pages allClinics w
    = pageLoop (3 - pages) cfg src query pageToken pages allClinics w.
Proof.
  induction fuel as [|fuel IH]; intros pageToken pages allClinics w Hp Hf;
    [lia|].
  assert (E3 : 3 - pages = S (3 - (pages + 1))) by lia. rewrite E3.
  rewrite !pageLoop_step.
  destruct (reaches (TOTAL_REQUESTS w) (MAX_REQUESTS cfg)); [reflexivity|].
  cbv zeta. destruct (search src _ _) as [e|status|data]; try reflexivity.
  destruct (clinicsOf cfg data _) as [[found| |] w3]; try reflexivity.
  destruct (pages + 1 <? 3) eqn:L.
  - apply Nat.ltb_lt in L.
    destruct (JS.truthyOpt (nextPageToken data)); [|reflexivity].
    cbn [andb]. apply IH; lia.
  - rewrite andb_false_r. reflexivity.
Qed.

Lemma pageLoop_pages (cfg : Config) (src : Source) (query : string)
  (fuel : nat) :
  forall (pageToken : option string) (pages : nat)
         (allClinics : list Clinic.t) (w : World),
    pages < 3 -> 3 - pages <= fuel ->
    (JS.truthyOpt pageToken = true ->
     exists t, trace w = Sleep (Ms (NEXT_PAGE_DELAY_MS cfg)) :: t) ->
    continuationsDelayed cfg (trace w) ->
    let r := pageLoop fuel cfg src query pageToken pages allClinics w in
    fst r <> OutOfFuel
    /\ fetches (trace (snd r)) <= fetches (trace w) + (3 - pages)
    /\ continuationsDelayed cfg (trace (snd r)).
Proof.
  induction fuel as [|fuel IH]; intros pageToken pages allClinics w Hp Hf Htok Hd;
    [lia|].
  cbv zeta. rewrite pageLoop_step.
  destruct (reaches (TOTAL_REQUESTS w) (MAX_REQUESTS cfg)).
  { cbn. repeat split; try discriminate; try lia. exact Hd. }
  cbv zeta.
  set (w1 := emit (Sleep (rateDelay cfg)) (bumpRequests w)).
  set (req := SearchText query
                (if JS.truthyOpt pageToken then pageToken else None)).
  assert (Hd2 : continuationsDelayed cfg (trace (emit (Fetch req) w1))).
  { subst req w1. cbn. destruct (JS.truthyOpt pageToken) eqn:T.
    - destruct pageToken as [tok|]; [|discriminate T].
      destruct (Htok eq_refl) as [t Ht]. rewrite Ht. cbn.
      rewrite Ht in Hd. cbn in Hd. tauto.
    - exact Hd. }
  assert (Hf2 : fetches (trace (emit (Fetch req) w1)) = S (fetches (trace w))).
  { reflexivity. }
  destruct (search src (TOTAL_REQUESTS w1) req) as [e|status|data].
  { cbn [fst snd]. repeat split; try discriminate; try lia. exact Hd2. }
  { cbn [fst snd]. repeat split; try discriminate; try lia. exact Hd2. }
  destruct (clinicsOf_run cfg data (emit (Fetch req) w1))
    as (found & w2 & Ec & Et & _).
  rewrite Ec.
  destruct (JS.truthyOpt (nextPageToken data)) eqn:T.
  - cbn [andb].
    destruct (pages + 1 <? 3) eqn:L.
    + apply Nat.ltb_lt in L.
      destruct (IH (nextPageToken data) (pages + 1) (allClinics ++ found)
                   (emit (Sleep (Ms (NEXT_PAGE_DELAY_MS cfg))) w2))
        as (I1 & I3 & I4).
      * exact L.
      * lia.
      * intros _. eexists. reflexivity.
      * cbn. rewrite Et. exact Hd2.
      * split; [exact I1|]. split; [|exact I4].
        cbn [fetches trace emit] in I3. rewrite Et, Hf2 in I3. lia.
    + cbn [fst snd trace emit fetches continuationsDelayed]. rewrite Et.
      split; [discriminate|]. split; [rewrite Hf2; lia | exact Hd2].
  - cbn [andb fst snd]. rewrite Et.
    split; [discriminate|]. split; [rewrite Hf2; lia | exact Hd2].
Qed.

Lemma queries_pages (cfg : Config) (src : Source) (queries : list string) :
  forall (allClinics : list Clinic.t) (w : World),
    continuationsDelayed cfg (trace w) ->
    let r := forOf (fun query all =>
                      pageLoop pageFuel cfg src query None 0 all)
                   queries allClinics w in
    fst r <> OutOfFuel
    /\ fetches (trace (snd r)) <= fetches (trace w) + 3 * List.length queries
    /\ continuationsDelayed cfg (trace (snd r)).
Proof.
  induction queries as [|query queries IH]; intros allClinics w Hd.
  - cbn. repeat split; try discriminate; try lia. exact Hd.
  - cbv zeta. cbn [forOf]. unfold bind.
    destruct (@pageLoop_pages cfg src query pageFuel None 0 allClinics w)
      as (H1 & H2 & H3).
    + lia.
    + unfold pageFuel. lia.
    + intros T. discriminate T.
    + exact Hd.
    + destruct (pageLoop pageFuel cfg src query None 0 allClinics w)
        as [[found|e|] w1]; cbn [fst snd] in *.
      * destruct (IH found w1 H3) as (I1 & I2 & I3).
        split; [exact I1|]. split; [|exact I3].
        cbn [List.length]. lia.
      * split; [discriminate|]. split; [|exact H3].
        cbn [List.length]. lia.
      * congruence.
Qed.

(** C9. The page loop of a query ends for every source, whatever tokens
    it returns: with three steps or more it never runs out of steps, and
    gives the same run.  It makes at most three calls; the text search of
    a city, with its three queries, makes at most nine.  Every call that
    carries a page token is made right after the pacing sleep of the
    request, itself right after a sleep of [NEXT_PAGE_DELAY_MS]. *)
Theorem city_search_pagination (cfg : Config) (src : Source)
  (city stateCode query : string) (allClinics : list Clinic.t)
  (fuel : nat) (w : World) :
  3 <= fuel ->
  continuationsDelayed cfg (trace w) ->
  (let r := pageLoop fuel cfg src query None 0 allClinics w in
   fst r <> OutOfFuel
   /\ r = pageLoop pageFuel cfg src query None 0 allClinics w
   /\ fetches (trace (snd r)) <= fetches (trace w) + 3
   /\ continuationsDelayed cfg (trace (snd r)))
  /\ (let r := textSearchCity cfg src city stateCode w in
      fst r <> OutOfFuel
      /\ fetches (trace (snd r)) <= fetches (trace w) + 9
      /\ continuationsDelayed cfg (trace (snd r))).
Proof.
  intros Hf Hd. split.
  - cbv zeta.
    destruct (@pageLoop_pages cfg src query fuel None 0 allClinics w)
      as (H1 & H2 & H3); try lia; try exact Hd.
    { intros T. discriminate T. }
    split; [exact H1|]. split; [|split; [exact H2 | exact H3]].
    rewrite (@pageLoop_fuel cfg src query fuel) by lia.
    reflexivity.
  - unfold textSearchCity.
    apply (@queries_pages cfg src (queriesFor city stateCode) [] w Hd).
Qed.

(** Against a source that always announces a further page, the text
    search of a city stops after nine calls. *)
Lemma city_search_pagination_witness :
  let r := textSearchCity Samples.cfg endlessSource "Austin" "TX"
             initialWorld in
  fst r <> OutOfFuel
  /\ fetches (trace (snd r)) = 9
  /\ continuationsDelayed Samples.cfg (trace (snd r)).
Proof.
  destruct (@city_search_pagination Samples.cfg endlessSource "Austin" "TX"
              "dermatologist Austin TX" [] 5 initialWorld)
    as (_ & H1 & _ & H3).
  - lia.
  - exact I.
  - split; [exact H1|]. split; [reflexivity | exact H3].
Defined.

(* ===================================================================== *)
(** ** The request budget *)
(* ===================================================================== *)

Section Halting.

Lemma Refused_dec (t : list Event) : {In Refused t} + {~ In Refused t}.
Proof.
  induction t as [|e t IH]; [right; intros []|].
  destruct IH as [IH|IH]; [left; right; exact IH|].
  destruct e; try (right; intros [H|H]; [discriminate H | contradiction]).
  left. left. reflexivity.
Qed.

Lemma halts_ret {A} (a : A) : haltsOnLimit (ret a).
Proof.
  intros w Hw. cbn. split; [discriminate|]. intros H. contradiction.
Qed.

Lemma halts_throw {A} (e : string) : haltsOnLimit (@throw World A e).
Proof.
  intros w Hw. cbn. split; [discriminate|]. intros H. contradiction.
Qed.

Lemma halts_effect (e : Event) : e <> Refused -> haltsOnLimit (effect e).
Proof.
  intros He w Hw. cbn. split; [discriminate|].
  intros [H|H]; [congruence | contradiction].
Qed.

Lemma halts_writeFile (fs : FileSystem) (stateCode : string)
  (clinics : list Clinic.t) :
  haltsOnLimit (writeFile fs stateCode clinics).
Proof.
  intros w Hw. unfold writeFile.
  destruct (writeError fs w stateCode); cbn; (split; [discriminate|]).
  - intros H. contradiction.
  - intros [H|H]; [discriminate H | contradiction].
Qed.

Lemma halts_lift {A} (f : World -> A * World) :
  (forall w, trace (snd (f w)) = trace w) -> haltsOnLimit (lift f).
Proof.
  intros Hf w Hw. unfold lift. specialize (Hf w).
  destruct (f w) as [a w']. cbn in *. split; [discriminate|].
  rewrite Hf. intros H. contradiction.
Qed.

Lemma halts_bind {A B} (m : M A) (k : A -> M B) :
  haltsOnLimit m -> (forall a, haltsOnLimit (k a)) -> haltsOnLimit (bind m k).
Proof.
  intros Hm Hk w Hw. unfold bind. specialize (Hm w Hw).
  destruct (m w) as [[a|e|] w']; cbn [fst snd] in *.
  - apply Hk. intros H. destruct Hm as [_ Hm].
    destruct (Hm H) as [[e [E _]] _]. discriminate E.
  - split; [discriminate|]. intros H. destruct Hm as [_ Hm].
    destruct (Hm H) as [[e' [E1 E2]] Ht]. injection E1 as <-.
    split; [exists e; split; [reflexivity | exact E2] | exact Ht].
  - destruct Hm as [Hm _]. congruence.
Qed.

Lemma halts_tryCatch {A} (m : M A) (handler : string -> M A) :
  haltsOnLimit m -> rethrowsLimit handler ->
  (forall e, haltsOnLimit (handler e)) ->
  haltsOnLimit (tryCatch m handler).
Proof.
  intros Hm Hr Hh w Hw. unfold tryCatch. specialize (Hm w Hw).
  destruct (m w) as [[a|e|] w'] eqn:E; cbn [fst snd] in *.
  - exact Hm.
  - destruct Hm as [_ Hm].
    destruct (Refused_dec (trace w')) as [Hin|Hin].
    + destruct (Hm Hin) as [[e' [E1 E2]] Ht]. injection E1 as <-.
      rewrite (Hr e E2). cbn. split; [discriminate|].
      intros _. split; [exists e; split; [reflexivity | exact E2] | exact Ht].
    + apply Hh. exact Hin.
  - exact Hm.
Qed.

End Halting.

Section HaltingOfTheScript.

Variable cfg : Config.
Variable src : Source.
Variable fs : FileSystem.

Lemma halts_forOf {A S} (body : A -> S -> M S) (l : list A) :
  (forall x acc, haltsOnLimit (body x acc)) ->
  forall acc, haltsOnLimit (forOf body l acc).
Proof.
  intros Hb. induction l as [|x l IH]; intros acc; cbn [forOf].
  - apply halts_ret.
  - apply halts_bind; [apply Hb | exact IH].
Qed.

Lemma limitMessage_isRequestLimit : isRequestLimit limitMessage = true.
Proof. reflexivity. Qed.

Lemma halts_checkRequestLimit : haltsOnLimit (checkRequestLimit cfg).
Proof.
  intros w Hw. unfold checkRequestLimit.
  destruct (reaches (TOTAL_REQUESTS w) (MAX_REQUESTS cfg)); cbn [fst snd].
  - split; [discriminate|]. intros _. split.
    + exists limitMessage. split; [reflexivity|].
      apply limitMessage_isRequestLimit.
    + exists (trace w). split; [reflexivity | exact Hw].
  - split; [discriminate|].
    intros [H|H]; [discriminate H | contradiction].
Qed.

Lemma halts_fetchSearch (r : Request) : haltsOnLimit (fetchSearch src r).
Proof.
  intros w Hw. unfold fetchSearch; cbn. split; [discriminate|].
  intros [H|H]; [discriminate H | contradiction].
Qed.

Lemma halts_fetchDetails (r : Request) : haltsOnLimit (fetchDetails src r).
Proof.
  intros w Hw. unfold fetchDetails; cbn. split; [discriminate|].
  intros [H|H]; [discriminate H | contradiction].
Qed.

Lemma halts_clinicsOf (body : SearchBody) : haltsOnLimit (clinicsOf cfg body).
Proof.
  unfold clinicsOf. apply halts_lift. intros w.
  pose proof (filterDermatology_trace
                (match places body with Some l => l | None => [] end) w) as E.
  destruct (filterDermatology _ w) as [kept w']. exact E.
Qed.

Lemma rethrowsLimit_handler {A} (k : M A) :
  rethrowsLimit (fun e => if isRequestLimit e then throw e else k).
Proof. intros e He. rewrite He. reflexivity. Qed.

Lemma halts_handler {A} (k : M A) (e : string) :
  haltsOnLimit k ->
  haltsOnLimit (if isRequestLimit e then throw e else k).
Proof.
  intros Hk. destruct (isRequestLimit e); [apply halts_throw | exact Hk].
Qed.

Lemma halts_nearbySearchAtPoint (lat lng : Z) (radiusMeters : N) :
  haltsOnLimit (nearbySearchAtPoint cfg src lat lng radiusMeters).
Proof.
  unfold nearbySearchAtPoint.
  apply halts_bind; [apply halts_checkRequestLimit|]. intros _.
  apply halts_bind; [apply halts_fetchSearch|]. intros response.
  destruct response as [e|status|data];
    [apply halts_throw | apply halts_throw | apply halts_clinicsOf].
Qed.

Lemma halts_gridSearchForState (stateInfo : StateInfo) :
  haltsOnLimit (gridSearchForState cfg src stateInfo).
Proof.
  unfold gridSearchForState. apply halts_forOf. intros point clinicIds.
  apply halts_tryCatch.
  - apply halts_bind; [apply halts_nearbySearchAtPoint|].
    intros clinics. apply halts_ret.
  - apply rethrowsLimit_handler.
  - intros e. apply halts_handler, halts_ret.
Qed.

Lemma halts_pageLoop (query : string) (fuel : nat) :
  forall (pageToken : option string) (pages : nat)
         (allClinics : list Clinic.t),
    pages < 3 -> 3 - pages <= fuel ->
    haltsOnLimit (pageLoop fuel cfg src query pageToken pages allClinics).
Proof.
  induction fuel as [|fuel IH]; intros pageToken pages allClinics Hp Hf; [lia|].
  cbn [pageLoop].
  apply halts_bind; [apply halts_checkRequestLimit|]. intros _.
  apply halts_bind; [apply halts_fetchSearch|]. intros response.
  destruct response as [e|status|data];
    [apply halts_throw | apply halts_throw |].
  apply halts_bind; [apply halts_clinicsOf|]. intros found.
  apply halts_bind.
  - destruct (JS.truthyOpt (nextPageToken data));
      [apply halts_effect; discriminate | apply halts_ret].
  - intros _.
    destruct (JS.truthyOpt (nextPageToken data) && (pages + 1 <? 3)) eqn:E;
      [|apply halts_ret].
    apply andb_prop in E. destruct E as [_ E]. apply Nat.ltb_lt in E.
    apply IH; lia.
Qed.

Lemma halts_textSearchCity (city stateCode : string) :
  haltsOnLimit (textSearchCity cfg src city stateCode).
Proof.
  unfold textSearchCity. apply halts_forOf. intros query allClinics.
  apply halts_pageLoop; unfold pageFuel; lia.
Qed.

Lemma halts_citySearchForState (stateInfo : StateInfo) :
  haltsOnLimit (citySearchForState cfg src stateInfo).
Proof.
  unfold citySearchForState. apply halts_forOf. intros city clinicIds.
  apply halts_tryCatch.
  - apply halts_bind; [apply halts_textSearchCity|].
    intros clinics. apply halts_ret.
  - apply rethrowsLimit_handler.
  - intros e. apply halts_handler, halts_ret.
Qed.

Lemma halts_fetchDetailsFor (placeId : option string)
  (clinics : list Clinic.t) :
  haltsOnLimit (fetchDetailsFor cfg src placeId clinics).
Proof.
  unfold fetchDetailsFor. apply halts_tryCatch.
  - apply halts_bind; [apply halts_checkRequestLimit|]. intros _.
    apply halts_bind; [apply halts_fetchDetails|]. intros response.
    destruct response as [e|status|place];
      [apply halts_throw | apply halts_ret |].
    apply halts_bind.
    + apply halts_lift. intros w. apply isDermatologyClinic_trace.
    + intros keep. destruct keep; [|apply halts_ret].
      destruct (transformPlace cfg place); apply halts_ret.
  - apply rethrowsLimit_handler.
  - intros e. apply halts_handler, halts_ret.
Qed.

Lemma halts_collectStateData (stateCode : string) :
  haltsOnLimit (collectStateData cfg src fs stateCode).
Proof.
  unfold collectStateData.
  destruct (lookupState stateCode) as [stateInfo|]; [|apply halts_ret].
  apply halts_bind; [apply halts_effect; discriminate|]. intros _.
  apply halts_bind.
  { apply halts_tryCatch.
    - apply halts_bind; [apply halts_gridSearchForState|].
      intros gridIds. apply halts_ret.
    - apply rethrowsLimit_handler.
    - intros e. apply halts_handler, halts_ret. }
  intros allClinicIds. apply halts_bind.
  { apply halts_tryCatch.
    - apply halts_bind; [apply halts_citySearchForState|].
      intros cityIds. apply halts_ret.
    - apply rethrowsLimit_handler.
    - intros e. apply halts_handler, halts_ret. }
  intros allClinicIds'. apply halts_bind.
  { apply halts_forOf. intros placeId clinics. apply halts_fetchDetailsFor. }
  intros clinics. apply halts_writeFile.
Qed.

(** In the comprehensive script the budget error ends the run: the loop
    of [main] always returns, and a refusal of the budget is the last
    thing that happens in the run. *)
Lemma comprehensive_run_halts (statesToProcess : list string) (w : World) :
  ~ In Refused (trace w) ->
  fst (mainLoop cfg src fs statesToProcess w) = Ok tt
  /\ refusedLast (trace (snd (mainLoop cfg src fs statesToProcess w))).
Proof.
  revert w. induction statesToProcess as [|stateCode rest IH]; intros w Hw.
  - cbn. split; [reflexivity|]. intros H. contradiction.
  - cbn [mainLoop]. destruct (lookupState stateCode); [|apply IH; exact Hw].
    destruct (@halts_collectStateData stateCode w Hw) as [H1 H2].
    destruct (collectStateData cfg src fs stateCode w) as [[[]|e|] w'];
      cbn [fst snd] in *.
    + apply IH. intros H. destruct (H2 H) as [[e [E _]] _]. discriminate E.
    + destruct (isRequestLimit e) eqn:E.
      * cbn. split; [reflexivity|]. intros H. apply H2. exact H.
      * apply IH. intros H. destruct (H2 H) as [[e' [E1 E2]] _].
        injection E1 as <-. congruence.
    + congruence.
Qed.

End HaltingOfTheScript.

Section BudgetOfTheScript.

Variable cfg : Config.
Variable src : Source.
Variable fs : FileSystem.

Lemma budgetKept_same (w w' : World) :
  trace w' = trace w -> TOTAL_REQUESTS w' = TOTAL_REQUESTS w ->
  budgetKept cfg w -> budgetKept cfg w'.
Proof. unfold budgetKept. intros -> ->. tauto. Qed.

Lemma budgetKept_effect (e : Event) :
  fetches [e] = 0 ->
  keeps (budgetKept cfg) (fun _ : unit => True) (effect e).
Proof.
  intros He w [H1 H2]. cbn [fst snd effect]. split; [|exact I].
  split; [|exact H2]. cbn [trace emit TOTAL_REQUESTS].
  destruct e; cbn in *; try discriminate He; exact H1.
Qed.

Lemma budgetKept_writeFile (stateCode : string) (clinics : list Clinic.t) :
  keeps (budgetKept cfg) (fun _ : unit => True)
        (writeFile fs stateCode clinics).
Proof.
  intros w Hw. unfold writeFile.
  destruct (writeError fs w stateCode); cbn [fst snd];
    (split; [|exact I]); exact Hw.
Qed.

Lemma budgetKept_lift {A} (P : A -> Prop) (f : World -> A * World) :
  (forall w, trace (snd (f w)) = trace w
             /\ TOTAL_REQUESTS (snd (f w)) = TOTAL_REQUESTS w
             /\ P (fst (f w))) ->
  keeps (budgetKept cfg) P (lift f).
Proof.
  intros Hf w Hw. unfold lift. specialize (Hf w).
  destruct (f w) as [a w']. cbn in *. destruct Hf as (E1 & E2 & Ha).
  split; [|exact Ha]. eapply budgetKept_same; eassumption.
Qed.

(** A call to the source goes through the counter: the check, then the
    call. *)
Lemma budgetKept_request {A B} (Q : B -> Prop) (answer : World -> Response A)
  (r : Request) (k : Response A -> M B) :
  (forall response, keeps (budgetKept cfg) Q (k response)) ->
  keeps (budgetKept cfg) Q
        (checkRequestLimit cfg ;;;
         response <- (fun w => (Ok (answer w), emit (Fetch r) w)) ;;
         k response).
Proof.
  intros Hk w [H1 H2]. unfold bind, checkRequestLimit.
  destruct (reaches (TOTAL_REQUESTS w) (MAX_REQUESTS cfg)) eqn:E.
  - cbn [fst snd]. split; [|exact I]. split; assumption.
  - cbv beta iota. apply Hk.
    split; cbn [trace emit TOTAL_REQUESTS bumpRequests fetches].
    + lia.
    + right. rewrite N.pred_succ. exact E.
Qed.

Lemma budgetKept_clinicsOf (body : SearchBody) :
  keeps (budgetKept cfg) (fun _ => True) (clinicsOf cfg body).
Proof.
  intros w Hw. destruct (clinicsOf_run cfg body w) as (found & w' & E & Et & Er).
  rewrite E. cbn. split; [|exact I]. eapply budgetKept_same; eassumption.
Qed.

Lemma budgetKept_handler {A} (P : A -> Prop) (k : M A) (e : string) :
  keeps (budgetKept cfg) P k ->
  keeps (budgetKept cfg) P (if isRequestLimit e then throw e else k).
Proof.
  intros Hk. destruct (isRequestLimit e); [apply keeps_throw | exact Hk].
Qed.

Lemma budgetKept_nearbySearchAtPoint (lat lng : Z) (radiusMeters : N) :
  keeps (budgetKept cfg) (fun _ => True)
        (nearbySearchAtPoint cfg src lat lng radiusMeters).
Proof.
  unfold nearbySearchAtPoint, fetchSearch.
  apply budgetKept_request
    with (answer := fun w => search src (TOTAL_REQUESTS w)
                               (SearchNearby lat lng radiusMeters)).
  intros response. destruct response as [e|status|data];
    [apply keeps_throw | apply keeps_throw | apply budgetKept_clinicsOf].
Qed.

Lemma budgetKept_gridSearchForState (stateInfo : StateInfo) :
  keeps (budgetKept cfg) (fun _ => True)
        (gridSearchForState cfg src stateInfo).
Proof.
  unfold gridSearchForState. apply keeps_forOf; [|exact I].
  intros point clinicIds _. apply keeps_tryCatch.
  - eapply keeps_bind; [apply budgetKept_nearbySearchAtPoint|].
    intros clinics _. apply keeps_ret. exact I.
  - intros e. apply budgetKept_handler, keeps_ret. exact I.
Qed.

Lemma budgetKept_pageLoop (query : string) (fuel : nat) :
  forall (pageToken : option string) (pages : nat)
         (allClinics : list Clinic.t),
    keeps (budgetKept cfg) (fun _ => True)
          (pageLoop fuel cfg src query pageToken pages allClinics).
Proof.
  induction fuel as [|fuel IH]; intros pageToken pages allClinics.
  - intros w Hw. cbn. split; [exact Hw | exact I].
  - cbn [pageLoop]. unfold fetchSearch.
    apply budgetKept_request
      with (answer := fun w =>
                        search src (TOTAL_REQUESTS w)
                          (SearchText query
                             (if JS.truthyOpt pageToken
                              then pageToken else None))).
    intros response. destruct response as [e|status|data];
      [apply keeps_throw | apply keeps_throw |].
    eapply keeps_bind; [apply budgetKept_clinicsOf|]. intros found _.
    eapply keeps_bind with (P := fun _ => True).
    + destruct (JS.truthyOpt (nextPageToken data));
        [apply budgetKept_effect; reflexivity | apply keeps_ret; exact I].
    + intros _ _.
      destruct (JS.truthyOpt (nextPageToken data) && (pages + 1 <? 3));
        [apply IH | apply keeps_ret; exact I].
Qed.

Lemma budgetKept_citySearchForState (stateInfo : StateInfo) :
  keeps (budgetKept cfg) (fun _ => True)
        (citySearchForState cfg src stateInfo).
Proof.
  unfold citySearchForState. apply keeps_forOf; [|exact I].
  intros city clinicIds _. apply keeps_tryCatch.
  - eapply keeps_bind with (P := fun _ => True).
    + unfold textSearchCity. apply keeps_forOf; [|exact I].
      intros query allClinics _. apply budgetKept_pageLoop.
    + intros clinics _. apply keeps_ret. exact I.
  - intros e. apply budgetKept_handler, keeps_ret. exact I.
Qed.

Lemma budgetKept_fetchDetailsFor (placeId : option string)
  (clinics : list Clinic.t) :
  keeps (budgetKept cfg) (fun _ => True)
        (fetchDetailsFor cfg src placeId clinics).
Proof.
  unfold fetchDetailsFor. apply keeps_tryCatch.
  - unfold fetchDetails.
    apply budgetKept_request
      with (answer := fun w => details src (TOTAL_REQUESTS w)
                                 (PlaceDetails placeId)).
    intros response. destruct response as [e|status|place];
      [apply keeps_throw | apply keeps_ret; exact I |].
    eapply keeps_bind with (P := fun _ => True).
    + apply budgetKept_lift. intros w.
      split; [apply isDermatologyClinic_trace|].
      split; [apply isDermatologyClinic_requests | exact I].
    + intros keep _. destruct keep; [|apply keeps_ret; exact I].
      destruct (transformPlace cfg place); apply keeps_ret; exact I.
  - intros e. apply budgetKept_handler, keeps_ret. exact I.
Qed.

Lemma budgetKept_collectStateData (stateCode : string) :
  keeps (budgetKept cfg) (fun _ => True)
        (collectStateData cfg src fs stateCode).
Proof.
  unfold collectStateData.
  destruct (lookupState stateCode) as [stateInfo|];
    [|apply keeps_ret; exact I].
  eapply keeps_bind; [apply budgetKept_effect; reflexivity|]. intros _ _.
  eapply keeps_bind with (P := fun _ => True).
  { apply keeps_tryCatch.
    - eapply keeps_bind; [apply budgetKept_gridSearchForState|].
      intros gridIds _. apply keeps_ret. exact I.
    - intros e. apply budgetKept_handler, keeps_ret. exact I. }
  intros allClinicIds _. eapply keeps_bind with (P := fun _ => True).
  { apply keeps_tryCatch.
    - eapply keeps_bind; [apply budgetKept_citySearchForState|].
      intros cityIds _. apply keeps_ret. exact I.
    - intros e. apply budgetKept_handler, keeps_ret. exact I. }
  intros allClinicIds' _. eapply keeps_bind with (P := fun _ => True).
  { apply keeps_forOf; [|exact I].
    intros placeId clinics _. apply budgetKept_fetchDetailsFor. }
  intros clinics _. apply budgetKept_writeFile.
Qed.

(** In the comprehensive script every call to the source is counted, and
    the ceiling allowed each of them. *)
Lemma comprehensive_run_within_budget (statesToProcess : list string)
  (w : World) :
  budgetKept cfg w ->
  budgetKept cfg (snd (mainLoop cfg src fs statesToProcess w)).
Proof.
  revert w. induction statesToProcess as [|stateCode rest IH]; intros w Hw.
  - exact Hw.
  - cbn [mainLoop]. destruct (lookupState stateCode); [|apply IH; exact Hw].
    destruct (@budgetKept_collectStateData stateCode w Hw) as [H _].
    destruct (collectStateData cfg src fs stateCode w) as [[[]|e|] w'];
      cbn [fst snd] in *.
    + apply IH. exact H.
    + destruct (isRequestLimit e); [exact H | apply IH; exact H].
    + exact H.
Qed.

End BudgetOfTheScript.

(** A count that the ceiling allowed is within a ceiling that is a whole
    number. *)
Lemma budgetKept_whole (cfg : Config) (ceiling : N) (w : World) :
  wholeCeiling cfg ceiling -> budgetKept cfg w ->
  (TOTAL_REQUESTS w <= ceiling)%N.
Proof.
  intros (q & Eq & Hq) [_ [H|H]]; [lia|].
  rewrite Eq in H. cbn [reaches] in H.
  destruct (Qle_bool q (inject_Z (Z.of_N (N.pred (TOTAL_REQUESTS w)))))
    eqn:E; [discriminate H|].
  assert (Hlt : ~ (q <= inject_Z (Z.of_N (N.pred (TOTAL_REQUESTS w))))%Q).
  { intros Hle. apply Qle_bool_iff in Hle. congruence. }
  rewrite Hq in Hlt. rewrite <- Zle_Qle in Hlt. lia.
Qed.

(** X4. A run of [main] of the comprehensive script from its initial
    state. When [fs.mkdir] fails, [main] throws that error before anything
    else happens. Otherwise [main] returns; every call to the source is
    counted; the ceiling allowed the last call counted (the count before
    it had not reached [MAX_REQUESTS]), so the count stays within a
    [MAX_REQUESTS] that is a whole number; a refusal of the budget, if
    there is one, is the last thing that happens. *)
Theorem comprehensive_run (cfg : Config) (src : Source) (fs : FileSystem)
  (statesToProcess : list string) :
  let r := main cfg src fs statesToProcess initialWorld in
  match mkdirError fs with
  | Some e => r = (Throw e, initialWorld)
  | None =>
      fst r = Ok tt
      /\ N.of_nat (fetches (trace (snd r))) = TOTAL_REQUESTS (snd r)
      /\ (TOTAL_REQUESTS (snd r) = 0%N
          \/ reaches (N.pred (TOTAL_REQUESTS (snd r))) (MAX_REQUESTS cfg)
             = false)
      /\ (forall ceiling, wholeCeiling cfg ceiling ->
          (TOTAL_REQUESTS (snd r) <= ceiling)%N)
      /\ refusedLast (trace (snd r))
  end.
Proof.
  cbv zeta. unfold main. destruct (mkdirError fs) as [e|]; [reflexivity|].
  destruct (@comprehensive_run_halts cfg src fs statesToProcess initialWorld)
    as [H1 H2]; [intros []|].
  assert (H : budgetKept cfg
                (snd (mainLoop cfg src fs statesToProcess initialWorld))).
  { apply comprehensive_run_within_budget.
    split; [reflexivity | left; reflexivity]. }
  split; [exact H1|]. split; [apply H|]. split; [apply H|].
  split; [|exact H2].
  intros ceiling Hc. exact (budgetKept_whole Hc H).
Qed.

(** *** The batch script *)

(** Once the counter of the batch script is at the ceiling, [main] does
    not stop: it starts the next state, which fails on its first request,
    and goes on with the states that remain. *)
Lemma batch_run_goes_on (src : AllStates.Source) (stateCode : string)
  (stateInfo : AllStates.StateInfo) (rest : list string)
  (w : AllStates.World) :
  AllStates.lookupState stateCode = Some stateInfo ->
  AllStates.cities stateInfo <> [] ->
  (AllStates.MAX_REQUESTS - 1 <= AllStates.totalRequests w)%N ->
  AllStates.mainLoop src (stateCode :: rest) w
  = AllStates.mainLoop src rest
      (AllStates.pushFailed stateCode
         (AllStates.emit AllStates.Refused
            (AllStates.bumpRequests
               (AllStates.emit (AllStates.Collecting stateCode) w)))).
Proof.
  intros Hl Hc Hn. cbn [AllStates.mainLoop]. rewrite Hl.
  unfold AllStates.collectStateData.
  destruct (AllStates.cities stateInfo) as [|city cities]; [congruence|].
  unfold AllStates.queries. cbn [forOf]. unfold AllStates.runQuery.
  unfold bind, tryCatch, AllStates.effect, AllStates.makeRequest.
  cbn [AllStates.totalRequests AllStates.bumpRequests AllStates.emit].
  assert (E : (AllStates.MAX_REQUESTS
               <=? N.succ (AllStates.totalRequests w))%N = true).
  { apply N.leb_le. lia. }
  rewrite E. reflexivity.
Qed.

(** C3. Once the ceiling is reached the whole run should halt, with no
    remaining state processed.  The batch script, run on the command line
    [--states=CA,...,CA,AL] ("CA" 667 times) against a source that is
    down, is refused its request number 50000 in the last "CA"; [main]
    then starts the collection of "AL", which is refused in turn. *)
Theorem batch_run_continues_after_limit :
  let w := snd (AllStates.mainLoop downSource californiaThenAlabama
                  AllStates.initialWorld) in
  firstn 3 (AllStates.trace w)
  = [AllStates.Refused; AllStates.Collecting "AL"; AllStates.Refused]
  /\ AllStates.totalRequests w = 50001%N
  /\ skipn 666 (AllStates.statesFailed w) = ["CA"; "AL"]%string.
Proof. vm_compute. repeat split. Qed.

(* ===================================================================== *)
(** ** The lattice of the grid search *)
(* ===================================================================== *)

(** The steps given to [sweep] are enough: the values it lists are all
    the values [x + k * step] up to the bound. *)
Lemma sweep_complete (step hi : Z) (fuel : nat) :
  (0 < step)%Z ->
  forall x y : Z,
    Z.to_nat (hi - x + 1) <= fuel ->
    (In y (sweep fuel x hi step)
     <-> exists k : nat, y = (x + Z.of_nat k * step)%Z /\ (y <= hi)%Z).
Proof.
  intros Hs.
  assert (Hpast : forall x y : Z, (hi < x)%Z ->
            ~ exists k : nat, y = (x + Z.of_nat k * step)%Z /\ (y <= hi)%Z).
  { intros x y Hx [k [-> Hk]].
    assert (0 <= Z.of_nat k * step)%Z by (apply Z.mul_nonneg_nonneg; lia).
    lia. }
  induction fuel as [|fuel IH]; intros x y Hf.
  - cbn [sweep In]. split; [intros [] | intros H].
    apply (Hpast x y); [lia | exact H].
  - cbn [sweep]. destruct (x <=? hi)%Z eqn:E.
    + apply Z.leb_le in E. cbn [In].
      assert (Hf' : Z.to_nat (hi - (x + step) + 1) <= fuel) by lia.
      rewrite (IH (x + step)%Z y Hf'). split.
      * intros [<-|[k [-> Hk]]].
        -- exists 0%nat. split; lia.
        -- exists (S k). split; lia.
      * intros [[|k] [-> Hk]].
        -- left. lia.
        -- right. exists k. split; lia.
    + apply Z.leb_gt in E. split; [intros [] | intros H].
      apply (Hpast x y); [lia | exact H].
Qed.

Lemma axis_complete (lo hi step y : Z) :
  (0 < step)%Z ->
  In y (axis lo hi step)
  <-> exists k : nat, y = (lo + Z.of_nat k * step)%Z /\ (y <= hi)%Z.
Proof.
  intros Hs. unfold axis. apply sweep_complete; [exact Hs | lia].
Qed.

(* ===================================================================== *)
(** ** Further properties: strings *)
(* ===================================================================== *)

Lemma prefix_app (t s : string) :
  String.prefix t s = true <-> exists b, s = (t ++ b)%string.
Proof.
  revert t. induction s as [|d s IH]; intros t; destruct t as [|c t]; simpl.
  - split; [intros _; exists ""%string; reflexivity | reflexivity].
  - split; [discriminate | intros [b H]; discriminate H].
  - split; [intros _; exists (String d s); reflexivity | reflexivity].
  - destruct (ascii_dec c d) as [->|N].
    + rewrite IH. split; intros [b H]; exists b; congruence.
    + split; [discriminate | intros [b H]; congruence].
Qed.

Lemma includes_iff (s t : string) :
  JS.includes s t = true <-> exists a b, s = (a ++ t ++ b)%string.
Proof.
  induction s as [|c s IH].
  - cbn [JS.includes]. rewrite orb_false_r, prefix_app. split.
    + intros [b H]. exists ""%string, b. exact H.
    + intros [a [b H]]. destruct a; [exists b; exact H | discriminate H].
  - cbn [JS.includes]. rewrite orb_true_iff, prefix_app, IH. split.
    + intros [[b H]|[a [b H]]].
      * exists ""%string, b. exact H.
      * exists (String c a), b. simpl. congruence.
    + intros [[|d a] [b H]].
      * left. exists b. exact H.
      * right. exists a, b. simpl in H. congruence.
Qed.

Lemma append_assoc (a b c : string) :
  ((a ++ b) ++ c = a ++ (b ++ c))%string.
Proof. induction a as [|x a IH]; simpl; [reflexivity | rewrite IH; reflexivity]. Qed.

Lemma includes_within (a s b t : string) :
  JS.includes s t = true -> JS.includes (a ++ s ++ b)%string t = true.
Proof.
  rewrite !includes_iff. intros [x [y ->]].
  exists (a ++ x)%string, (y ++ b)%string.
  rewrite !append_assoc. reflexivity.
Qed.

Lemma includes_trans (s t u : string) :
  JS.includes s t = true -> JS.includes t u = true -> JS.includes s u = true.
Proof.
  intros Hs Ht. apply includes_iff in Hs. destruct Hs as [a [b ->]].
  apply includes_within. exact Ht.
Qed.

Lemma toLowerCase_app (a b : string) :
  JS.toLowerCase (a ++ b) = (JS.toLowerCase a ++ JS.toLowerCase b)%string.
Proof. induction a as [|x a IH]; simpl; [reflexivity | rewrite IH; reflexivity]. Qed.

Lemma allChars_app (p : ascii -> bool) (a b : string) :
  JS.allChars p (a ++ b) = JS.allChars p a && JS.allChars p b.
Proof.
  induction a as [|x a IH]; cbn [append JS.allChars]; [reflexivity|].
  rewrite IH, andb_assoc. reflexivity.
Qed.

(* ===================================================================== *)
(** ** Further properties: the comprehensive script *)
(* ===================================================================== *)

Lemma get_first (type : string) (pre post : list AddressComponent)
  (c : AddressComponent) :
  (forall x, In x pre -> JS.arrayIncludes (ac_types x) type = false) ->
  JS.arrayIncludes (ac_types c) type = true ->
  get (pre ++ c :: post) type = Some c.
Proof.
  intros Hpre Hc. unfold get. induction pre as [|x pre IH]; simpl.
  - rewrite Hc. reflexivity.
  - rewrite (Hpre x) by (left; reflexivity).
    apply IH. intros y Hy. apply Hpre. right. exact Hy.
Qed.

(** X1. The address parser reads each field from the first component that
    carries the tag, whatever comes after it: the state and country codes
    are its short text, the postal code its long text (missing if that
    component has none), and the city is the long text of the first
    locality that has one. *)
Theorem address_first_component_wins (type : string)
  (pre post : list AddressComponent) (c : AddressComponent) :
  (forall x, In x pre -> JS.arrayIncludes (ac_types x) type = false) ->
  JS.arrayIncludes (ac_types c) type = true ->
  let pa := parseAddressComponents (pre ++ c :: post) in
  (type = "administrative_area_level_1"%string -> pa_state_code pa = shortText c)
  /\ (type = "country"%string -> pa_country_code pa = shortText c)
  /\ (type = "postal_code"%string -> pa_postal_code pa = longText c)
  /\ (type = "locality"%string -> longText c <> None ->
      pa_city pa = longText c).
Proof.
  intros Hpre Hc pa. subst pa. unfold parseAddressComponents; simpl.
  repeat split; intros ->; unfold getShort, getLong;
    rewrite (get_first _ pre post c Hpre Hc); try reflexivity.
  intros Hl. destruct (longText c); [reflexivity | congruence].
Qed.

(** Of two components tagged as first-level area the first gives the
    state; a locality without long text leaves the city to the postal
    town. *)
Lemma address_first_component_wins_witness :
  pa_state_code (parseAddressComponents twoAreas) = Some "CA"%string
  /\ pa_city (parseAddressComponents twoAreas) = Some "Los Angeles"%string.
Proof.
  split; [|reflexivity].
  destruct (@address_first_component_wins "administrative_area_level_1"
              (firstn 2 twoAreas) (skipn 3 twoAreas)
              (mkAddressComponent ["administrative_area_level_1"; "political"]
                 (Some "CA") (Some "California"))%string) as [H _].
  - intros x [<-|[<-|[]]]; reflexivity.
  - reflexivity.
  - apply H. reflexivity.
Defined.

Lemma isDermatologyClinic_decision (place : Place.t) (w : World) :
  fst (isDermatologyClinic place w) = accepts place.
Proof.
  unfold accepts, isDermatologyClinic.
  repeat match goal with
         | |- context [if ?b then _ else _] => destruct b
         end; reflexivity.
Qed.

Lemma isDermatologyClinic_counts (place : Place.t) (w : World) :
  let w' := snd (isDermatologyClinic place w) in
  (REJECTED_NON_US w <= REJECTED_NON_US w')%N
  /\ (REJECTED_NON_DERM w <= REJECTED_NON_DERM w')%N
  /\ (REJECTED_NON_US w' + REJECTED_NON_DERM w'
      = REJECTED_NON_US w + REJECTED_NON_DERM w
        + (if accepts place then 0 else 1))%N.
Proof.
  rewrite <- (isDermatologyClinic_decision place w).
  unfold isDermatologyClinic.
  repeat (cbn [fst snd];
          match goal with
          | |- context [if ?b then _ else _] =>
              lazymatch b with
              | context [if _ then _ else _] => fail
              | _ => destruct b
              end
          end); cbn; lia.
Qed.

Lemma filterDermatology_filter (l : list Place.t) (w : World) :
  fst (filterDermatology l w) = filter accepts l.
Proof.
  revert w. induction l as [|p l IH]; intros w; cbn [filterDermatology];
    [reflexivity|].
  pose proof (isDermatologyClinic_decision p w) as Hd.
  destruct (isDermatologyClinic p w) as [keep w1]. cbn [fst] in Hd.
  specialize (IH w1). destruct (filterDermatology l w1) as [rest w2].
  cbn [fst filter] in *. rewrite <- Hd, IH. destruct keep; reflexivity.
Qed.

(** X2. Filtering the places of an answer keeps, in their order, exactly
    the places that the classifier accepts, whatever the counters are;
    every place that is dropped adds one to exactly one of the two
    rejection counters, and no counter ever goes down. *)
Theorem classifier_accounting (l : list Place.t) (w : World) :
  let r := filterDermatology l w in
  fst r = filter accepts l
  /\ (REJECTED_NON_US w <= REJECTED_NON_US (snd r))%N
  /\ (REJECTED_NON_DERM w <= REJECTED_NON_DERM (snd r))%N
  /\ (REJECTED_NON_US (snd r) + REJECTED_NON_DERM (snd r)
      + N.of_nat (List.length (fst r))
      = REJECTED_NON_US w + REJECTED_NON_DERM w + N.of_nat (List.length l))%N.
Proof.
  revert w. induction l as [|p l IH]; intros w; cbn [filterDermatology].
  - cbn. repeat split; lia.
  - pose proof (isDermatologyClinic_decision p w) as Hd.
    pose proof (isDermatologyClinic_counts p w) as Hc.
    destruct (isDermatologyClinic p w) as [keep w1]. cbn [fst snd] in *.
    specialize (IH w1). destruct (filterDermatology l w1) as [rest w2].
    cbn [fst snd filter List.length] in *.
    destruct IH as (I1 & I2 & I3 & I4). destruct Hc as (C1 & C2 & C3).
    rewrite <- Hd in *. subst rest.
    destruct keep; cbn [fst snd List.length];
      (split; [reflexivity|]); repeat split; lia.
Qed.

Lemma accepts_valid (place : Place.t) :
  accepts place = true ->
  foreignCountry (parseAddressComponents (componentsOf place)) = false
  /\ invalidState (parseAddressComponents (componentsOf place)) = false.
Proof.
  unfold accepts, isDermatologyClinic.
  destruct (foreignCountry _); [discriminate|].
  destruct (invalidState _); [discriminate|]. tauto.
Qed.

Lemma invalidState_false (ac : ParsedAddress) :
  invalidState ac = false ->
  exists s, pa_state_code ac = Some s /\ In s VALID_US_STATES.
Proof.
  unfold invalidState. destruct (pa_state_code ac) as [s|]; [|discriminate].
  intros H. apply orb_false_elim in H. destruct H as [_ H].
  apply negb_false_iff in H. exists s. split; [reflexivity|].
  unfold JS.arrayIncludes in H. apply existsb_exists in H.
  destruct H as [x [Hx E]]. apply String.eqb_eq in E. subst. exact Hx.
Qed.

Lemma accepted_transforms (cfg : Config) (place : Place.t) :
  accepts place = true ->
  exists c, transformPlace cfg place = Some c
            /\ Clinic.place_id c = Place.id place
            /\ exists s, Clinic.state_code c = Some s /\ In s VALID_US_STATES.
Proof.
  intros E. destruct (accepts_valid place E) as [Hc Hs].
  unfold transformPlace. rewrite Hc, Hs. eexists. split; [reflexivity|].
  cbn [Clinic.place_id Clinic.state_code]. split; [reflexivity|].
  apply invalidState_false. exact Hs.
Qed.


(** X3. The null check of the transformer never drops a place that the
    classifier accepted: the places kept from an answer give one record
    each, in order, with the identifier of the place and a state code of
    the table of the script. *)
Theorem accepted_places_all_transform (cfg : Config) (l : list Place.t)
  (w : World) :
  let kept := fst (filterDermatology l w) in
  map Clinic.place_id (transformAll cfg kept) = map Place.id kept
  /\ Forall (fun c => exists s, Clinic.state_code c = Some s
                                /\ In s VALID_US_STATES)
            (transformAll cfg kept).
Proof.
  cbv zeta. rewrite filterDermatology_filter.
  induction l as [|p l [IH1 IH2]]; cbn [filter]; [split; constructor|].
  destruct (accepts p) eqn:E; [|split; assumption].
  destruct (accepted_transforms cfg p E) as (c & Ec & Eid & Es).
  cbn [transformAll map]. rewrite Ec. cbn [map].
  split; [rewrite IH1, Eid; reflexivity|].
  constructor; assumption.
Qed.

Section OnlyTheBudgetErrorEscapes.

Variable cfg : Config.
Variable src : Source.
Variable fs : FileSystem.

Lemma only_ret {A} (a : A) : throwsOnlyLimit (@ret World A a).
Proof. intros w. exact I. Qed.

Lemma only_bind {A B} (m : M A) (k : A -> M B) :
  throwsOnlyLimit m -> (forall a, throwsOnlyLimit (k a)) ->
  throwsOnlyLimit (bind m k).
Proof.
  intros Hm Hk w. unfold bind. specialize (Hm w).
  destruct (m w) as [[a|e|] w']; cbn [fst] in *;
    [apply Hk | exact Hm | exact I].
Qed.

(** A handler that swallows every error but the budget error. *)
Lemma only_tryCatch {A} (m : M A) (k : M A) :
  throwsOnlyLimit k ->
  throwsOnlyLimit
    (tryCatch m (fun e => if isRequestLimit e then throw e else k)).
Proof.
  intros Hk w. unfold tryCatch.
  destruct (m w) as [[a|e|] w']; cbn [fst]; try exact I.
  destruct (isRequestLimit e) eqn:E; [cbn; exact E | apply Hk].
Qed.

Lemma only_forOf {A S} (body : A -> S -> M S) (l : list A) :
  (forall x acc, throwsOnlyLimit (body x acc)) ->
  forall acc, throwsOnlyLimit (forOf body l acc).
Proof.
  intros Hb. induction l as [|x l IH]; intros acc; cbn [forOf].
  - apply only_ret.
  - apply only_bind; [apply Hb | exact IH].
Qed.

Lemma only_effect (e : Event) : throwsOnlyLimit (effect e).
Proof. intros w. exact I. Qed.

Lemma bind_Ok {A B} (m : M A) (k : A -> M B) (w : World) (b : B) :
  fst (bind m k w) = Ok b ->
  exists a, fst (m w) = Ok a /\ bind m k w = k a (snd (m w)).
Proof.
  unfold bind. destruct (m w) as [[a|e|] w']; cbn [fst snd]; intros H;
    try discriminate H.
  exists a. split; reflexivity.
Qed.

(** What escapes a script that throws nothing but the budget error and
    then goes on. *)
Lemma limitOrWrite_bind {A B} (stateCode : string) (m : M A)
  (k : A -> M B) :
  throwsOnlyLimit m -> (forall a, throwsLimitOrWrite fs stateCode (k a)) ->
  throwsLimitOrWrite fs stateCode (bind m k).
Proof.
  intros Hm Hk w. unfold bind. specialize (Hm w).
  destruct (m w) as [[a|e|] w']; cbn [fst snd] in *;
    [apply Hk | left; exact Hm | exact I].
Qed.

Lemma limitOrWrite_writeFile (stateCode : string) (clinics : list Clinic.t) :
  throwsLimitOrWrite fs stateCode (writeFile fs stateCode clinics).
Proof.
  intros w. unfold writeFile.
  destruct (writeError fs w stateCode) as [e|] eqn:E; cbn [fst snd];
    [right; exact E | exact I].
Qed.

(** X5. An error at one grid point, in one city search or in one detail
    call does not end the collection of a state: the grid search and the
    city search throw nothing but the budget error (an error whose
    message contains "Request limit"), and the collection of a state
    throws nothing but the budget error or the error of the write of its
    file, which no handler of the function catches. When the collection
    of a state of the table returns, the write of its file is the last
    thing that happened. *)
Theorem only_budget_error_escapes (stateInfo : StateInfo)
  (stateCode : string) :
  throwsOnlyLimit (gridSearchForState cfg src stateInfo)
  /\ throwsOnlyLimit (citySearchForState cfg src stateInfo)
  /\ throwsLimitOrWrite fs stateCode (collectStateData cfg src fs stateCode)
  /\ (forall w,
        fst (collectStateData cfg src fs stateCode w) = Ok tt ->
        lookupState stateCode = None
        \/ exists clinics t,
             trace (snd (collectStateData cfg src fs stateCode w))
             = WriteFile stateCode clinics :: t).
Proof.
  assert (G : forall info, throwsOnlyLimit (gridSearchForState cfg src info)).
  { intros info. unfold gridSearchForState. apply only_forOf.
    intros point ids. apply only_tryCatch, only_ret. }
  assert (C : forall info, throwsOnlyLimit (citySearchForState cfg src info)).
  { intros info. unfold citySearchForState. apply only_forOf.
    intros city ids. apply only_tryCatch, only_ret. }
  split; [apply G|]. split; [apply C|]. split.
  - unfold collectStateData.
    destruct (lookupState stateCode) as [info|]; [|intros w; exact I].
    apply limitOrWrite_bind; [apply only_effect|]. intros _.
    apply limitOrWrite_bind; [apply only_tryCatch, only_ret|]. intros ids.
    apply limitOrWrite_bind; [apply only_tryCatch, only_ret|]. intros ids'.
    apply limitOrWrite_bind; [|intros clinics; apply limitOrWrite_writeFile].
    apply only_forOf. intros placeId clinics. unfold fetchDetailsFor.
    apply only_tryCatch, only_ret.
  - intros w. unfold collectStateData.
    destruct (lookupState stateCode) as [info|]; [|left; reflexivity].
    intros H. right.
    destruct (bind_Ok _ _ _ H) as (a1 & _ & E1). rewrite E1 in H |- *.
    destruct (bind_Ok _ _ _ H) as (a2 & _ & E2). rewrite E2 in H |- *.
    destruct (bind_Ok _ _ _ H) as (a3 & _ & E3). rewrite E3 in H |- *.
    destruct (bind_Ok _ _ _ H) as (a4 & _ & E4). rewrite E4 in H |- *.
    unfold writeFile in *.
    destruct (writeError fs _ stateCode); cbn [fst snd] in *;
      [discriminate H|].
    eexists; eexists. reflexivity.
Qed.

End OnlyTheBudgetErrorEscapes.

(** X6. The grid of a state is the lattice of its bounding box: the
    points [(minLat + 0.25 i, minLng + 0.35 j)] that lie within the upper
    bounds, and no other point (coordinates in hundredths of a degree). *)
Theorem gridOf_lattice (b : Bounds) (lat lng : Z) :
  In (lat, lng) (gridOf b)
  <-> exists i j : nat,
        lat = (minLat b + Z.of_nat i * 25)%Z /\ (lat <= maxLat b)%Z
        /\ lng = (minLng b + Z.of_nat j * 35)%Z /\ (lng <= maxLng b)%Z.
Proof.
  unfold gridOf. rewrite in_flat_map. split.
  - intros [x [Hx Hin]]. apply in_map_iff in Hin.
    destruct Hin as [y [E Hy]]. injection E as <- <-.
    apply axis_complete in Hx; [|reflexivity].
    apply axis_complete in Hy; [|reflexivity].
    destruct Hx as [i [Hi Hi']]. destruct Hy as [j [Hj Hj']].
    exists i, j. unfold latStep, lngStep in *. tauto.
  - intros (i & j & Hi & Hi' & Hj & Hj'). exists lat. split.
    + apply axis_complete; [reflexivity|]. exists i. split; assumption.
    + apply in_map_iff. exists lng. split; [reflexivity|].
      apply axis_complete; [reflexivity|]. exists j. split; assumption.
Qed.

(* ===================================================================== *)
(** ** Further properties: the batch script *)
(* ===================================================================== *)

Lemma parseClinicFromPlace_requests (place : Place.t) (w : AllStates.World) :
  AllStates.totalRequests (snd (AllStates.parseClinicFromPlace place w))
  = AllStates.totalRequests w
  /\ AllStates.statesCompleted (snd (AllStates.parseClinicFromPlace place w))
     = AllStates.statesCompleted w
  /\ AllStates.statesFailed (snd (AllStates.parseClinicFromPlace place w))
     = AllStates.statesFailed w.
Proof.
  unfold AllStates.parseClinicFromPlace.
  repeat match goal with
         | |- context [match ?x with _ => _ end] => destruct x
         end; repeat split.
Qed.

Lemma addPlaces_requests (places : list Place.t)
  (m : JsMap.t AllStates.Clinic.t) (w : AllStates.World) :
  AllStates.totalRequests (snd (AllStates.addPlaces places m w))
  = AllStates.totalRequests w
  /\ AllStates.statesCompleted (snd (AllStates.addPlaces places m w))
     = AllStates.statesCompleted w
  /\ AllStates.statesFailed (snd (AllStates.addPlaces places m w))
     = AllStates.statesFailed w.
Proof.
  revert m w. induction places as [|p ps IH]; intros m w; simpl;
    [repeat split|].
  pose proof (parseClinicFromPlace_requests p w) as E.
  destruct (AllStates.parseClinicFromPlace p w) as [[c|] w1]; simpl in E;
    destruct E as (E1 & E2 & E3); rewrite <- E1, <- E2, <- E3; apply IH.
Qed.

(** What one query does to the world: a refusal, or a pacing sleep and a
    call, after which only the rejection counters move. *)
Lemma runQuery_world (src : AllStates.Source) (stateCode city query : string)
  (clinics : JsMap.t AllStates.Clinic.t) (w : AllStates.World) :
  let r := AllStates.runQuery src stateCode city query clinics w in
  AllStates.statesCompleted (snd r) = AllStates.statesCompleted w
  /\ AllStates.statesFailed (snd r) = AllStates.statesFailed w
  /\ AllStates.totalRequests (snd r) = N.succ (AllStates.totalRequests w)
  /\ ((AllStates.MAX_REQUESTS <= N.succ (AllStates.totalRequests w))%N
      /\ AllStates.trace (snd r) = AllStates.Refused :: AllStates.trace w
      \/ (N.succ (AllStates.totalRequests w) < AllStates.MAX_REQUESTS)%N
         /\ exists q,
              AllStates.trace (snd r)
              = AllStates.Fetch q :: AllStates.Sleep AllStates.REQUEST_DELAY_MS
                  :: AllStates.trace w).
Proof.
  cbv zeta. unfold AllStates.runQuery, bind, AllStates.makeRequest.
  cbn [AllStates.totalRequests AllStates.bumpRequests].
  destruct (AllStates.MAX_REQUESTS <=? N.succ (AllStates.totalRequests w))%N
    eqn:E.
  - apply N.leb_le in E. cbn. repeat split. left. split; [exact E|reflexivity].
  - apply N.leb_gt in E. unfold tryCatch, bind, AllStates.fetchSearch.
    cbn [AllStates.totalRequests AllStates.emit].
    match goal with
    | |- context [src ?n ?q] => destruct (src n q) as [e|status|data]
    end; cbn [throw ret fst snd];
      try (cbn; repeat split; right; split; [exact E | eexists; reflexivity]).
    unfold lift.
    match goal with
    | |- context [AllStates.addPlaces ?ps ?m ?w0] =>
        pose proof (addPlaces_trace ps m w0) as Et;
        pose proof (addPlaces_requests ps m w0) as (E1 & E2 & E3);
        destruct (AllStates.addPlaces ps m w0) as [m' w']
    end.
    cbn [fst snd] in *. rewrite E1, E2, E3, Et. cbn.
    repeat split. right. split; [exact E | eexists; reflexivity].
Qed.

Lemma runQuery_budget (src : AllStates.Source) (stateCode city query : string)
  (clinics : JsMap.t AllStates.Clinic.t) :
  keeps batchBudget (fun _ => True)
        (AllStates.runQuery src stateCode city query clinics).
Proof.
  intros w [H1 H2]. split; [|destruct (fst _); exact I].
  destruct (runQuery_world src stateCode city query clinics w)
    as (_ & _ & Et & [[_ Etr]|[Hlt [q Etr]]]);
    unfold batchBudget; rewrite Et, Etr; cbn [batchFetches batchRefusals];
    split; lia.
Qed.

Lemma collectStateData_budget (src : AllStates.Source) (stateCode : string)
  (stateInfo : AllStates.StateInfo) :
  keeps batchBudget (fun _ => True)
        (AllStates.collectStateData src stateCode stateInfo).
Proof.
  unfold AllStates.collectStateData.
  eapply keeps_bind with (P := fun _ => True).
  { intros w Hw. split; [exact Hw | exact I]. }
  intros _ _. eapply keeps_bind with (P := fun _ => True).
  { apply keeps_forOf; [|exact I]. intros city acc _.
    apply keeps_forOf; [|exact I]. intros query acc' _.
    apply runQuery_budget. }
  intros clinics _.
  destruct (List.length (JsMap.values clinics) =? 0)%nat.
  - apply keeps_ret. exact I.
  - eapply keeps_bind with (P := fun _ => True);
      [|intros; apply keeps_ret; exact I].
    intros w Hw. split; [exact Hw | exact I].
Qed.

Lemma mainLoop_budget (src : AllStates.Source) (statesToProcess : list string) :
  keeps batchBudget (fun _ => True) (AllStates.mainLoop src statesToProcess).
Proof.
  induction statesToProcess as [|stateCode rest IH]; cbn [AllStates.mainLoop].
  - apply keeps_ret. exact I.
  - destruct (AllStates.lookupState stateCode) as [info|].
    + eapply keeps_bind with (P := fun _ => True); [|intros; exact IH].
      apply keeps_tryCatch.
      * eapply keeps_bind; [apply collectStateData_budget|].
        intros success _. destruct success;
          intros w Hw; (split; [exact Hw | exact I]).
      * intros e w Hw. split; [exact Hw | exact I].
    + eapply keeps_bind with (P := fun _ => True); [|intros; exact IH].
      intros w Hw. split; [exact Hw | exact I].
Qed.

(** X7. The batch script counts a request before it checks the ceiling:
    in every run the counter is the number of calls made plus the number
    of calls refused, and fewer than [MAX_REQUESTS] calls (at most 49999)
    reach the source. *)
Theorem batch_run_budget (src : AllStates.Source)
  (statesToProcess : list string) :
  let w := snd (AllStates.mainLoop src statesToProcess AllStates.initialWorld) in
  N.of_nat (batchFetches (AllStates.trace w)
            + batchRefusals (AllStates.trace w))
  = AllStates.totalRequests w
  /\ (N.of_nat (batchFetches (AllStates.trace w)) <= 49999)%N.
Proof.
  cbv zeta.
  destruct (@mainLoop_budget src statesToProcess AllStates.initialWorld)
    as [[H1 H2] _].
  { split; [reflexivity | reflexivity]. }
  split; [exact H1|]. unfold AllStates.MAX_REQUESTS in H2. lia.
Qed.

Lemma usPhrases_nonempty (phrase : string) :
  In phrase usPhrases -> phrase <> ""%string.
Proof.
  assert (H : forallb (fun p => negb (String.eqb p "")) usPhrases = true)
    by (vm_compute; reflexivity).
  rewrite forallb_forall in H. intros Hin E. specialize (H _ Hin).
  rewrite E in H. discriminate H.
Qed.

Lemma isUSAddress_phrase (address phrase : string) :
  address <> ""%string ->
  In phrase usPhrases ->
  JS.includes (JS.toLowerCase address) phrase = true ->
  AllStates.isUSAddress (Some address) = true.
Proof.
  intros Hne Hin Hinc. unfold AllStates.isUSAddress.
  assert (Ht : JS.truthy address = true).
  { unfold JS.truthy. destruct (String.eqb_spec address ""); [contradiction|].
    reflexivity. }
  rewrite Ht. cbn [negb]. cbv zeta.
  destruct Hin as [<- | [<- | Hin]].
  - rewrite Hinc. reflexivity.
  - rewrite Hinc, orb_true_r. reflexivity.
  - apply orb_true_iff. right. apply existsb_exists.
    exists phrase. split; [exact Hin | exact Hinc].
Qed.

(** X8. The address test of the batch script accepts every address that
    contains, in any letter case and anywhere in the text, "usa",
    "united states" or the name of a state of its table: also inside a
    longer word, and also in an address abroad.  A missing or empty
    address is refused. *)
Theorem isUSAddress_accepts_phrase (before word after phrase : string) :
  In phrase usPhrases ->
  JS.toLowerCase word = phrase ->
  AllStates.isUSAddress (Some (before ++ word ++ after)%string) = true
  /\ AllStates.isUSAddress None = false
  /\ AllStates.isUSAddress (Some ""%string) = false.
Proof.
  intros Hin Hw. split; [|split; reflexivity].
  apply isUSAddress_phrase with (phrase := phrase); [|exact Hin|].
  - intros E. apply (usPhrases_nonempty Hin). rewrite <- Hw.
    destruct before; [|discriminate E]. destruct word; [reflexivity|].
    discriminate E.
  - rewrite !toLowerCase_app, Hw. apply includes_iff.
    exists (JS.toLowerCase before), (JS.toLowerCase after). reflexivity.
Qed.

Lemma isUSAddress_accepts_phrase_witness :
  AllStates.isUSAddress (Some "12 Rustaveli Ave, Tbilisi 0108, GEORGIA"%string)
  = true.
Proof.
  apply (@isUSAddress_accepts_phrase
           "12 Rustaveli Ave, Tbilisi 0108, "%string "GEORGIA"%string
           ""%string "georgia"%string).
  - vm_compute. tauto.
  - reflexivity.
Defined.

(** X9. The third test of the batch classifier never decides: a name is
    taken for a dermatology practice exactly when its lower-case form
    contains "derm" or "skin", whatever else it says. *)
Theorem batch_classifier_two_terms (name : string) :
  AllStates.isDermatologyClinic name
  = JS.includes (JS.toLowerCase name) "derm"
    || JS.includes (JS.toLowerCase name) "skin".
Proof.
  unfold AllStates.isDermatologyClinic. cbv zeta.
  destruct (JS.includes (JS.toLowerCase name) "derma") eqn:E;
    [|rewrite orb_false_r; reflexivity].
  assert (H : JS.includes (JS.toLowerCase name) "derm" = true).
  { apply includes_trans with (t := "derma"%string); [exact E | reflexivity]. }
  rewrite H. reflexivity.
Qed.

Lemma mapGet_set {V} (m : JsMap.t V) (k' k : string) (v : V) :
  mapGet (JsMap.set k' v m) k
  = if String.eqb k' k then Some v else mapGet m k.
Proof.
  induction m as [|[k0 v0] m IH]; simpl.
  - reflexivity.
  - destruct (String.eqb_spec k0 k') as [->|Hne]; simpl.
    + destruct (String.eqb k' k); reflexivity.
    + rewrite IH. destruct (String.eqb_spec k0 k) as [->|Hne'];
        [|reflexivity].
      destruct (String.eqb_spec k' k) as [->|_]; [contradiction|reflexivity].
Qed.

Lemma addPlaces_get (places : list Place.t)
  (m : JsMap.t AllStates.Clinic.t) (w : AllStates.World) (k : string) :
  mapGet (fst (AllStates.addPlaces places m w)) k
  = match lastRecord k places with
    | Some c => Some c
    | None => mapGet m k
    end.
Proof.
  revert m w. induction places as [|p ps IH]; intros m w; simpl;
    [reflexivity|].
  unfold recordOf.
  rewrite (parseClinicFromPlace_fst p AllStates.initialWorld w).
  destruct (AllStates.parseClinicFromPlace p w) as [[c|] w1]; cbn [fst];
    rewrite IH; destruct (lastRecord k ps); try reflexivity.
  rewrite mapGet_set. destruct (String.eqb (AllStates.Clinic.id c) k);
    reflexivity.
Qed.

(** X10. The aggregator of the batch script keeps, for every identifier,
    the record of the last accepted place of the stream that carries it:
    a later result overwrites an earlier one with the same identifier,
    and an identifier carried by no accepted place is not in the map. *)
Theorem aggregator_last_write_wins (places : list Place.t)
  (w : AllStates.World) (k : string) :
  mapGet (fst (AllStates.addPlaces places JsMap.empty w)) k
  = lastRecord k places.
Proof.
  rewrite addPlaces_get. destruct (lastRecord k places); reflexivity.
Qed.

Lemma runQuery_lists (src : AllStates.Source) (stateCode city query : string)
  (clinics : JsMap.t AllStates.Clinic.t) (completed failed written : list string) :
  keeps (batchLists completed failed written) (fun _ => True)
        (AllStates.runQuery src stateCode city query clinics).
Proof.
  intros w (H1 & H2 & H3). split; [|destruct (fst _); exact I].
  destruct (runQuery_world src stateCode city query clinics w)
    as (E1 & E2 & _ & [[_ Etr]|[_ [q Etr]]]);
    unfold batchLists; rewrite E1, E2, Etr; cbn [writtenStates];
    repeat split; assumption.
Qed.

(** The run of [collectStateData], one step at a time. *)
Lemma collectStateData_step (src : AllStates.Source) (stateCode : string)
  (stateInfo : AllStates.StateInfo) (w : AllStates.World) :
  AllStates.collectStateData src stateCode stateInfo w
  = match forOf (fun city clinics =>
                   forOf (AllStates.runQuery src stateCode city)
                         AllStates.queries clinics)
                (AllStates.cities stateInfo) JsMap.empty
                (AllStates.emit (AllStates.Collecting stateCode) w) with
    | (Ok clinics, w1) =>
        if (List.length (JsMap.values clinics) =? 0)%nat then (Ok false, w1)
        else (Ok true,
              AllStates.emit
                (AllStates.WriteFile stateCode (JsMap.values clinics)) w1)
    | (Throw e, w1) => (Throw e, w1)
    | (OutOfFuel, w1) => (OutOfFuel, w1)
    end.
Proof.
  unfold AllStates.collectStateData, bind, AllStates.effect.
  destruct (forOf _ _ _ _) as [[clinics|e|] w1]; try reflexivity.
  destruct (List.length (JsMap.values clinics) =? 0)%nat; reflexivity.
Qed.

(** A state's collection leaves the two lists of [stats] alone and writes
    a file exactly when it answers [true]. *)
Lemma collectStateData_lists (src : AllStates.Source) (stateCode : string)
  (stateInfo : AllStates.StateInfo) (w : AllStates.World) :
  let r := AllStates.collectStateData src stateCode stateInfo w in
  AllStates.statesCompleted (snd r) = AllStates.statesCompleted w
  /\ AllStates.statesFailed (snd r) = AllStates.statesFailed w
  /\ writtenStates (AllStates.trace (snd r))
     = writtenStates (AllStates.trace w)
       ++ match fst r with Ok true => [stateCode] | _ => [] end.
Proof.
  cbv zeta. rewrite collectStateData_step.
  match goal with
  | |- context [forOf ?body ?l ?acc ?w0] =>
      assert (K : keeps (batchLists (AllStates.statesCompleted w)
                                    (AllStates.statesFailed w)
                                    (writtenStates (AllStates.trace w)))
                        (fun _ => True) (forOf body l acc));
      [| destruct (@K w0) as [(K1 & K2 & K3) _];
         [ repeat split |
           destruct (forOf body l acc w0) as [[clinics|e|] w1] ] ]
  end.
  { apply keeps_forOf; [|exact I]. intros city acc _.
    apply keeps_forOf; [|exact I]. intros query acc' _.
    apply runQuery_lists. }
  - cbn [fst snd] in *.
    destruct (List.length (JsMap.values clinics) =? 0)%nat; cbn;
      rewrite K1, K2, K3, ?app_nil_r; repeat split.
  - cbn [fst snd] in *. rewrite K1, K2, K3, app_nil_r. repeat split.
  - cbn [fst snd] in *. rewrite K1, K2, K3, app_nil_r. repeat split.
Qed.

Lemma forOf_returns {W A S} (body : A -> S -> Script.M W S) (l : list A) :
  (forall x acc w, fst (body x acc w) <> OutOfFuel) ->
  forall acc w, fst (forOf body l acc w) <> OutOfFuel.
Proof.
  intros Hb. induction l as [|x l IH]; intros acc w; cbn [forOf].
  - discriminate.
  - unfold bind. specialize (Hb x acc w).
    destruct (body x acc w) as [[acc'|e|] w']; cbn [fst] in *;
      [apply IH | discriminate | contradiction].
Qed.

Lemma runQuery_returns (src : AllStates.Source) (stateCode city query : string)
  (clinics : JsMap.t AllStates.Clinic.t) (w : AllStates.World) :
  fst (AllStates.runQuery src stateCode city query clinics w) <> OutOfFuel.
Proof.
  unfold AllStates.runQuery, bind, AllStates.makeRequest.
  match goal with |- context [if ?b then _ else _] => destruct b end;
    [discriminate|].
  unfold tryCatch, bind, AllStates.fetchSearch.
  match goal with
  | |- context [src ?n ?q] => destruct (src n q) as [e|status|data]
  end; cbn [throw ret fst snd]; try discriminate.
  unfold lift.
  match goal with
  | |- context [AllStates.addPlaces ?ps ?m ?w0] =>
      destruct (AllStates.addPlaces ps m w0) as [m' w']
  end. discriminate.
Qed.

Lemma collectStateData_returns (src : AllStates.Source) (stateCode : string)
  (stateInfo : AllStates.StateInfo) (w : AllStates.World) :
  fst (AllStates.collectStateData src stateCode stateInfo w) <> OutOfFuel.
Proof.
  rewrite collectStateData_step.
  match goal with
  | |- context [forOf ?body ?l ?acc ?w0] =>
      assert (K : fst (forOf body l acc w0) <> OutOfFuel);
      [| destruct (forOf body l acc w0) as [[clinics|e|] w1] ]
  end.
  { apply forOf_returns. intros city acc w0.
    apply forOf_returns. intros query acc' w1. apply runQuery_returns. }
  - destruct (List.length (JsMap.values clinics) =? 0)%nat; discriminate.
  - discriminate.
  - contradiction.
Qed.

(** The loop of [main], one state at a time. *)
Lemma mainLoop_step (src : AllStates.Source) (stateCode : string)
  (rest : list string) (w : AllStates.World) :
  AllStates.mainLoop src (stateCode :: rest) w
  = match AllStates.lookupState stateCode with
    | None => AllStates.mainLoop src rest (AllStates.pushFailed stateCode w)
    | Some stateInfo =>
        match AllStates.collectStateData src stateCode stateInfo w with
        | (Ok true, w1) =>
            AllStates.mainLoop src rest (AllStates.pushCompleted stateCode w1)
        | (Ok false, w1) | (Throw _, w1) =>
            AllStates.mainLoop src rest (AllStates.pushFailed stateCode w1)
        | (OutOfFuel, w1) => (OutOfFuel, w1)
        end
    end.
Proof.
  cbn [AllStates.mainLoop].
  destruct (AllStates.lookupState stateCode) as [info|]; [|reflexivity].
  unfold bind at 1, tryCatch, bind at 1.
  destruct (AllStates.collectStateData src stateCode info w)
    as [[[|]|e|] w1]; reflexivity.
Qed.

Lemma mainLoop_lists (src : AllStates.Source) (statesToProcess : list string)
  (w : AllStates.World) :
  let w' := snd (AllStates.mainLoop src statesToProcess w) in
  exists completed failed,
    AllStates.statesCompleted w' = AllStates.statesCompleted w ++ completed
    /\ AllStates.statesFailed w' = AllStates.statesFailed w ++ failed
    /\ writtenStates (AllStates.trace w')
       = writtenStates (AllStates.trace w) ++ completed
    /\ Permutation (completed ++ failed) statesToProcess.
Proof.
  cbv zeta. revert w.
  induction statesToProcess as [|stateCode rest IH]; intros w.
  - exists [], []. cbn. rewrite !app_nil_r. repeat split. constructor.
  - rewrite mainLoop_step.
    destruct (AllStates.lookupState stateCode) as [info|].
    + pose proof (collectStateData_lists src stateCode info w) as L.
      pose proof (collectStateData_returns src stateCode info w) as R.
      cbv zeta in L.
      destruct (AllStates.collectStateData src stateCode info w)
        as [[success|e|] w1]; cbn [fst snd] in L, R;
        destruct L as (L1 & L2 & L3); [destruct success| |contradiction].
      * destruct (IH (AllStates.pushCompleted stateCode w1))
          as (c & f & E1 & E2 & E3 & P).
        exists (stateCode :: c), f. cbn in E1, E2, E3.
        rewrite E1, E2, E3, L1, L2, L3, <- !app_assoc. cbn.
        repeat split. constructor. exact P.
      * destruct (IH (AllStates.pushFailed stateCode w1))
          as (c & f & E1 & E2 & E3 & P).
        exists c, (stateCode :: f). cbn in E1, E2, E3.
        rewrite E1, E2, E3, L1, L2, L3, app_nil_r, <- !app_assoc. cbn.
        repeat split. apply Permutation_sym, Permutation_cons_app,
          Permutation_sym, P.
      * destruct (IH (AllStates.pushFailed stateCode w1))
          as (c & f & E1 & E2 & E3 & P).
        exists c, (stateCode :: f). cbn in E1, E2, E3.
        rewrite E1, E2, E3, L1, L2, L3, app_nil_r, <- !app_assoc. cbn.
        repeat split. apply Permutation_sym, Permutation_cons_app,
          Permutation_sym, P.
    + destruct (IH (AllStates.pushFailed stateCode w))
        as (c & f & E1 & E2 & E3 & P).
      exists c, (stateCode :: f). cbn in E1, E2, E3.
      rewrite E1, E2, E3, <- !app_assoc. cbn.
      repeat split. apply Permutation_sym, Permutation_cons_app,
        Permutation_sym, P.
Qed.

Lemma mainLoop_returns (src : AllStates.Source) (statesToProcess : list string)
  (w : AllStates.World) :
  fst (AllStates.mainLoop src statesToProcess w) = Ok tt.
Proof.
  revert w. induction statesToProcess as [|stateCode rest IH]; intros w.
  - reflexivity.
  - rewrite mainLoop_step.
    destruct (AllStates.lookupState stateCode) as [info|]; [|apply IH].
    pose proof (collectStateData_returns src stateCode info w) as R.
    destruct (AllStates.collectStateData src stateCode info w)
      as [[[|]|e|] w1]; cbn [fst] in R; try apply IH. contradiction.
Qed.

(** X11. Whatever the source answers, the loop of the batch [main] goes
    through every requested state and files it once: the states pushed on
    [statesCompleted] are, in order, the states whose file was written,
    and [statesCompleted] together with [statesFailed] is a rearrangement
    of the requested list (an unknown code, an empty result and any
    error, the budget error included, count as failed). *)
Theorem batch_main_files_every_state (src : AllStates.Source)
  (statesToProcess : list string) :
  let w := snd (AllStates.mainLoop src statesToProcess AllStates.initialWorld) in
  AllStates.statesCompleted w = writtenStates (AllStates.trace w)
  /\ Permutation (AllStates.statesCompleted w ++ AllStates.statesFailed w)
                 statesToProcess
  /\ fst (AllStates.mainLoop src statesToProcess AllStates.initialWorld)
     = Ok tt.
Proof.
  cbv zeta.
  destruct (mainLoop_lists src statesToProcess AllStates.initialWorld)
    as (c & f & E1 & E2 & E3 & P).
  cbn in E1, E2, E3. rewrite E1, E2, E3.
  repeat split; [exact P | apply mainLoop_returns].
Qed.

(* ===================================================================== *)
(** ** Further properties: the clinic list page *)
(* ===================================================================== *)

Section FilterPanel.

Variable toLowerCase : string -> string.
Variable calculateDistance :
  Client.Clinic.Location -> Client.Clinic.Location -> Q.

Lemma sameLists_react (g : Gesture) (st1 st2 : Client.State) :
  sameLists st1 st2 ->
  sameLists (react toLowerCase calculateDistance st1 g)
            (react toLowerCase calculateDistance st2 g).
Proof.
  destruct st1 as [h1 c1 f1 x1], st2 as [h2 c2 f2 x2].
  unfold sameLists. cbn [Client.heap Client.clinics Client.filteredClinics].
  intros (<- & <- & <-).
  destruct g as [query|lat lng|filters|loadedClinics]; cbn [react].
  - unfold Client.handleSearch, Client.arrayFilter, Client.alloc,
      Client.setFilteredClinics.
    cbn [Client.heap Client.clinics Client.filteredClinics].
    destruct (negb (JS.truthy query) || String.eqb (JS.trim query) "");
      repeat split.
  - unfold Client.handleLocationSearch, Client.arraySort, Client.alloc,
      Client.setFilteredClinics.
    cbn [Client.heap Client.clinics Client.filteredClinics].
    destruct (Client.withDistances calculateDistance lat lng
                (Client.read h1 c1)); repeat split.
  - repeat split.
  - unfold Client.loadClinics, Client.alloc. repeat split.
Qed.

Lemma sameLists_setFilters (filters : Client.FilterOptions)
  (st1 st2 : Client.State) :
  sameLists st1 st2 -> sameLists (Client.setFilters filters st1) st2.
Proof. intros H. exact H. Qed.

Lemma sameLists_runs (gestures : list Gesture) :
  forall st1 st2,
    sameLists st1 st2 ->
    sameLists
      (fold_left (react toLowerCase calculateDistance) gestures st1)
      (fold_left (react toLowerCase calculateDistance)
                 (filter (fun g => negb (isFilterChange g)) gestures) st2).
Proof.
  induction gestures as [|g gestures IH]; intros st1 st2 H; [exact H|].
  cbn [fold_left filter].
  destruct g as [query|lat lng|filters|loadedClinics];
    cbn [isFilterChange negb fold_left];
    try (apply IH, sameLists_react; exact H).
  apply IH. cbn [react]. apply sameLists_setFilters. exact H.
Qed.

(** X12. The filters of the panel are never applied: the two panels set
    the state variable [filters], which no handler of the page and no
    effect reads.  Whatever the visitor types, locates, loads and sets in
    the panels, in any order, the list on display and the loaded list are
    the ones that the same gestures give without the changes of the
    filters. *)
Theorem filter_panel_changes_nothing (gestures : list Gesture)
  (st : Client.State) :
  let st1 := fold_left (react toLowerCase calculateDistance) gestures st in
  let st2 := fold_left (react toLowerCase calculateDistance)
               (filter (fun g => negb (isFilterChange g)) gestures) st in
  Client.displayed st1 = Client.displayed st2
  /\ Client.source st1 = Client.source st2
  /\ forall filters,
       Client.displayed (Client.setFilters filters st)
       = Client.displayed st.
Proof.
  cbv zeta.
  destruct (@sameLists_runs gestures st st) as (H1 & H2 & H3);
    [repeat split|].
  unfold Client.displayed, Client.source. rewrite H1, H2, H3.
  repeat split.
Qed.

End FilterPanel.

Lemma includes_app_l (s t q : string) :
  JS.includes s q = true -> JS.includes (s ++ t)%string q = true.
Proof.
  intros H. apply (includes_within ""%string s t) in H. exact H.
Qed.

Lemma includes_app_r (s t q : string) :
  JS.includes t q = true -> JS.includes (s ++ t)%string q = true.
Proof.
  rewrite !includes_iff. intros [a [b ->]].
  exists (s ++ a)%string, b. rewrite append_assoc. reflexivity.
Qed.

Lemma displayed_handleSearch (toLowerCase : string -> string)
  (query : string) (st : Client.State) :
  JS.trim query <> ""%string ->
  Client.displayed (Client.handleSearch toLowerCase query st)
  = filter (fun clinic =>
              if JS.isFiveDigits (JS.trim query)
              then Client.strictEq (Client.Clinic.postal_code clinic)
                                   (JS.trim query)
              else JS.includes (Client.searchableText toLowerCase clinic)
                               (toLowerCase (JS.trim query)))
           (Client.source st).
Proof.
  intros H. unfold Client.handleSearch.
  assert (T : JS.truthy query = true).
  { destruct query; [exfalso; apply H; reflexivity | reflexivity]. }
  apply String.eqb_neq in H. rewrite T, H. cbn [negb orb]. cbv zeta.
  unfold Client.arrayFilter.
  match goal with
  | |- context [Client.alloc ?l ?h] =>
      pose proof (read_alloc h l) as R; destruct (Client.alloc l h) as [r h']
  end.
  exact R.
Qed.

Lemma isAscii_app (a b : string) :
  isAscii (a ++ b) = isAscii a && isAscii b.
Proof. apply allChars_app. Qed.

(** The text that the search looks into is ASCII when the six texts of
    the clinic are. *)
Lemma searchableText_ascii (toLowerCase : string -> string)
  (c : Client.Clinic.t) :
  (forall s, isAscii s = true -> toLowerCase s = JS.toLowerCase s) ->
  Forall (fun text => isAscii text = true) (textFields c) ->
  exists template,
    Client.searchableText toLowerCase c = JS.toLowerCase template
    /\ Client.searchableText JS.toLowerCase c = JS.toLowerCase template.
Proof.
  intros Hfold Hf. unfold Client.searchableText.
  eexists. split; [|reflexivity]. apply Hfold.
  unfold textFields in Hf.
  repeat match goal with
         | H : Forall _ (_ :: _) |- _ =>
             let H1 := fresh "A" in
             inversion H as [|? ? H1 ?]; subst; clear H
         end.
  rewrite !isAscii_app.
  repeat match goal with
         | H : isAscii _ = true |- _ => rewrite H; clear H
         end.
  reflexivity.
Qed.

(** X15. A text search whose trimmed query is neither empty nor five
    digits displays every loaded clinic one of whose searched texts (the
    name, the address, the city, the state code, the category tags joined
    by spaces, the primary type) contains the trimmed query, the case of
    the letters A to Z ignored, when the query and the six texts of that
    clinic are ASCII; the displayed clinics keep their loaded order.  The
    case folding is the platform's, of which only its action on ASCII
    text is used. *)
Theorem text_search_finds_field_matches (toLowerCase : string -> string)
  (st : Client.State) (query field : string) (c : Client.Clinic.t) :
  (forall s, isAscii s = true -> toLowerCase s = JS.toLowerCase s) ->
  JS.trim query <> ""%string ->
  JS.isFiveDigits (JS.trim query) = false ->
  isAscii (JS.trim query) = true ->
  Forall (fun text => isAscii text = true) (textFields c) ->
  In c (Client.source st) ->
  In field (textFields c) ->
  JS.includes (JS.toLowerCase field) (JS.toLowerCase (JS.trim query)) = true ->
  In c (Client.displayed (Client.handleSearch toLowerCase query st))
  /\ exists keep,
       Client.displayed (Client.handleSearch toLowerCase query st)
       = filter keep (Client.source st).
Proof.
  intros Hfold Hq Hz Haq Hac Hc Hf Hi.
  rewrite (@displayed_handleSearch toLowerCase query st Hq), Hz.
  split; [|eexists; reflexivity].
  apply filter_In. split; [exact Hc|].
  destruct (@searchableText_ascii toLowerCase c Hfold Hac)
    as (template & E1 & E2).
  rewrite E1, <- E2, (Hfold _ Haq). clear E1 E2 template.
  unfold Client.searchableText. rewrite !toLowerCase_app.
  unfold textFields in Hf. cbn [In] in Hf.
  destruct Hf as [<-|[<-|[<-|[<-|[<-|[<-|[]]]]]]].
  - do 2 apply includes_app_r. apply includes_app_l. exact Hi.
  - do 6 apply includes_app_r. apply includes_app_l. exact Hi.
  - do 10 apply includes_app_r. apply includes_app_l. exact Hi.
  - do 13 apply includes_app_r. apply includes_app_l. exact Hi.
  - do 16 apply includes_app_r. apply includes_app_l. exact Hi.
  - do 19 apply includes_app_r. apply includes_app_l. exact Hi.
Qed.

Lemma text_search_finds_field_matches_witness :
  In ClientSamples.beverlyHills
     (Client.displayed
        (Client.handleSearch JS.toLowerCase (nbsp ++ "BEVERLY hills ")
                             ClientSamples.page)).
Proof.
  apply (@text_search_finds_field_matches JS.toLowerCase ClientSamples.page
           (nbsp ++ "BEVERLY hills ")%string
           "Beverly Hills Dermatology"%string ClientSamples.beverlyHills).
  - intros s _. reflexivity.
  - discriminate.
  - reflexivity.
  - reflexivity.
  - repeat constructor.
  - vm_compute. tauto.
  - vm_compute. tauto.
  - reflexivity.
Defined.

(* ===================================================================== *)
(** ** Further properties: the cleanup script and the statistics route *)
(* ===================================================================== *)

Lemma comprehensive_states_valid :
  forall s, In s Comprehensive.VALID_US_STATES ->
            JS.arrayIncludes Cleanup.VALID_US_STATES s = true.
Proof.
  assert (H : forallb (JS.arrayIncludes Cleanup.VALID_US_STATES)
                      Comprehensive.VALID_US_STATES = true)
    by (vm_compute; reflexivity).
  rewrite forallb_forall in H. exact H.
Qed.

Lemma transformPlace_state (cfg : Config) (place : Place.t) (c : Clinic.t) :
  transformPlace cfg place = Some c ->
  exists s, Clinic.state_code c = Some s
            /\ JS.truthy s = true /\ In s VALID_US_STATES.
Proof.
  unfold transformPlace.
  destruct (foreignCountry _); [discriminate|].
  destruct (invalidState _) eqn:E; [discriminate|].
  intros H. injection H as <-. cbn [Clinic.state_code].
  unfold invalidState in E. cbn [pa_state_code parseAddressComponents] in E.
  destruct (getShort _ _) as [s|]; [|discriminate E].
  apply orb_false_elim in E. destruct E as [E1 E2].
  apply negb_false_iff in E1, E2. exists s.
  split; [reflexivity|]. split; [exact E1|].
  unfold JS.arrayIncludes in E2. apply existsb_exists in E2.
  destruct E2 as [x [Hx E]]. apply String.eqb_eq in E. subst. exact Hx.
Qed.

(** X16. The cleanup script selects for deletion none of the records that
    the transformer of the comprehensive script makes: every such record
    carries a state code of that script's table, and the table lies
    within the 51 codes of the cleanup. *)
Theorem cleanup_keeps_transformed_records (cfg : Config)
  (places : list Place.t) :
  Cleanup.nonUSClinics (Some (map rowOf (transformAll cfg places))) = []
  /\ Cleanup.placeIds (Some (map rowOf (transformAll cfg places))) = [].
Proof.
  assert (H : Cleanup.nonUSClinics (Some (map rowOf (transformAll cfg places)))
              = []).
  { cbn [Cleanup.nonUSClinics].
    induction places as [|p ps IH]; cbn [transformAll]; [reflexivity|].
    destruct (transformPlace cfg p) as [c|] eqn:E; [|exact IH].
    cbn [map filter]. destruct (@transformPlace_state cfg p c E)
      as (s & Es & Ht & Hin).
    unfold Cleanup.nonUS at 1. unfold rowOf at 1. cbn [Cleanup.state_code].
    rewrite Es, Ht, (@comprehensive_states_valid s Hin). exact IH. }
  split; [exact H|]. unfold Cleanup.placeIds. rewrite H. reflexivity.
Qed.

Lemma mapGet_In {V} (m : JsMap.t V) (k : string) (v : V) :
  NoDup (JsMap.keys m) -> In (k, v) m -> mapGet m k = Some v.
Proof.
  induction m as [|[k0 v0] m IH]; intros Hn Hin; [destruct Hin|].
  inversion Hn as [|? ? Hk Hn']; subst. cbn [mapGet].
  destruct Hin as [E|Hin].
  - injection E as -> ->. rewrite String.eqb_refl. reflexivity.
  - destruct (String.eqb_spec k0 k) as [->|_]; [|apply IH; assumption].
    exfalso. apply Hk. change (In (fst (k, v)) (map fst m)).
    apply in_map. exact Hin.
Qed.

Lemma countOf_set (m : JsMap.t nat) (k' k : string) (v : nat) :
  Stats.countOf (JsMap.set k' v m) k
  = if String.eqb k' k then v else Stats.countOf m k.
Proof.
  unfold Stats.countOf. rewrite mapGet_set.
  destruct (String.eqb k' k); reflexivity.
Qed.

Lemma sum_values_set (m : JsMap.t nat) (k : string) :
  list_sum (JsMap.values (JsMap.set k (Stats.countOf m k + 1) m))
  = list_sum (JsMap.values m) + 1.
Proof.
  induction m as [|[k0 v0] m IH].
  - reflexivity.
  - unfold Stats.countOf in *. cbn [JsMap.set mapGet].
    destruct (String.eqb k0 k); cbn [JsMap.values map list_sum fold_right snd].
    + lia.
    + fold (JsMap.values (JsMap.set k (match mapGet m k with
                                        | Some n => n | None => 0 end + 1) m)).
      fold (list_sum (JsMap.values (JsMap.set k (match mapGet m k with
                                        | Some n => n | None => 0 end + 1) m))).
      rewrite IH. fold (JsMap.values m). fold (list_sum (JsMap.values m)). lia.
Qed.

Lemma countRow_facts (m : JsMap.t nat) (row : option string) :
  NoDup (JsMap.keys m) ->
  NoDup (JsMap.keys (Stats.countRow m row))
  /\ (forall k, Stats.countOf (Stats.countRow m row) k
                = Stats.countOf m k
                  + count_occ string_dec (countedCodes [row]) k)
  /\ (forall k, In k (JsMap.keys (Stats.countRow m row))
                <-> In k (JsMap.keys m) \/ In k (countedCodes [row]))
  /\ list_sum (JsMap.values (Stats.countRow m row))
     = list_sum (JsMap.values m) + List.length (countedCodes [row]).
Proof.
  intros Hn. unfold Stats.countRow, countedCodes. cbn [flat_map].
  rewrite app_nil_r.
  destruct row as [s|]; [destruct (JS.truthy s)|].
  - split; [apply NoDup_keys_set; exact Hn|]. split; [|split].
    + intros k. rewrite countOf_set. cbn [count_occ].
      destruct (String.eqb_spec s k) as [Heq|Hne];
        destruct (string_dec s k) as [E|E]; try congruence; try lia.
    + intros k. rewrite In_keys_set. cbn [In]. intuition congruence.
    + rewrite sum_values_set. reflexivity.
  - cbn. repeat split; try assumption; try lia; tauto.
  - cbn. repeat split; try assumption; try lia; tauto.
Qed.

Lemma countStates_facts (rows : list (option string)) (m : JsMap.t nat) :
  NoDup (JsMap.keys m) ->
  NoDup (JsMap.keys (fold_left Stats.countRow rows m))
  /\ (forall k, Stats.countOf (fold_left Stats.countRow rows m) k
                = Stats.countOf m k
                  + count_occ string_dec (countedCodes rows) k)
  /\ (forall k, In k (JsMap.keys (fold_left Stats.countRow rows m))
                <-> In k (JsMap.keys m) \/ In k (countedCodes rows))
  /\ list_sum (JsMap.values (fold_left Stats.countRow rows m))
     = list_sum (JsMap.values m) + List.length (countedCodes rows).
Proof.
  revert m. induction rows as [|row rows IH]; intros m Hn.
  - cbn [fold_left countedCodes flat_map count_occ In List.length].
    repeat split; try assumption; try lia; tauto.
  - destruct (@countRow_facts m row Hn) as (R1 & R2 & R3 & R4).
    destruct (IH _ R1) as (I1 & I2 & I3 & I4).
    assert (E : countedCodes (row :: rows)
                = countedCodes [row] ++ countedCodes rows).
    { unfold countedCodes. cbn [flat_map]. rewrite app_nil_r. reflexivity. }
    rewrite E.
    cbn [fold_left]. split; [exact I1|]. split; [|split].
    + intros k. rewrite I2, R2, count_occ_app. lia.
    + intros k. rewrite I3, R3, in_app_iff. tauto.
    + rewrite I4, R4, length_app. lia.
Qed.

Lemma fold_left_sum (l : list nat) (a : nat) :
  fold_left (fun sum count => sum + count) l a = a + list_sum l.
Proof.
  revert a. induction l as [|x l IH]; intros a; cbn [fold_left].
  - cbn. lia.
  - rewrite IH. unfold list_sum. cbn [fold_right]. lia.
Qed.

Lemma byCount_decides (x y : Stats.StateEntry) :
  if Client.isPositive (Stats.byCount x y)
  then countOrder y x else countOrder x y.
Proof.
  unfold Client.isPositive, Stats.byCount, countOrder. cbn [Qnum inject_Z].
  destruct (0 <? Z.of_nat (Stats.clinicCount y)
                 - Z.of_nat (Stats.clinicCount x))%Z eqn:E.
  - apply Z.ltb_lt in E. lia.
  - apply Z.ltb_ge in E. lia.
Qed.

(** X17. The statistics route, for every answer of the database: the row
    of a state holds the number of rows that carry its code, which is at
    least 1; every code that occurs has one row and no code has two; the
    rows come with the larger counts first; [totalClinics] is the number
    of rows with a code, rows without one being skipped; a missing answer
    gives an empty list and a total of 0. *)
Theorem stats_route_counts (rows : list (option string)) :
  let listed := Stats.states (Some rows) in
  NoDup (map Stats.code listed)
  /\ (forall k, In k (map Stats.code listed) <-> In k (countedCodes rows))
  /\ (forall e, In e listed ->
                Stats.clinicCount e
                = count_occ string_dec (countedCodes rows) (Stats.code e)
                /\ 1 <= Stats.clinicCount e)
  /\ StronglySorted countOrder listed
  /\ Stats.totalClinics (Some rows) = List.length (countedCodes rows)
  /\ Stats.totalClinics (Some rows)
     = list_sum (map Stats.clinicCount listed)
  /\ Stats.states None = [] /\ Stats.totalClinics None = O.
Proof.
  cbv zeta.
  destruct (@countStates_facts rows JsMap.empty) as (F1 & F2 & F3 & F4);
    [constructor|].
  fold (Stats.countStates (Some rows)) in F1, F2, F3, F4.
  set (entry := fun kv : string * nat =>
                  Stats.mkStateEntry (fst kv) (Stats.nameOf (fst kv)) (snd kv)).
  assert (P : Permutation (Stats.states (Some rows))
                          (map entry (Stats.countStates (Some rows))))
    by apply jsSort_perm.
  assert (K : map Stats.code (map entry (Stats.countStates (Some rows)))
              = JsMap.keys (Stats.countStates (Some rows))).
  { rewrite map_map. reflexivity. }
  assert (C : map Stats.clinicCount
                  (map entry (Stats.countStates (Some rows)))
              = JsMap.values (Stats.countStates (Some rows))).
  { rewrite map_map. reflexivity. }
  assert (T : Stats.totalClinics (Some rows) = List.length (countedCodes rows)).
  { unfold Stats.totalClinics. rewrite fold_left_sum, F4. reflexivity. }
  repeat split.
  - apply (Permutation_NoDup (Permutation_sym (Permutation_map Stats.code P))).
    rewrite K. exact F1.
  - intros H. apply (Permutation_in _ (Permutation_map Stats.code P)) in H.
    rewrite K in H. apply F3 in H. destruct H as [[]|H]. exact H.
  - intros H.
    apply (Permutation_in _ (Permutation_sym (Permutation_map Stats.code P))).
    rewrite K. apply F3. right. exact H.
  - apply (Permutation_in _ P) in H. apply in_map_iff in H.
    destruct H as [[k v] [<- Hin]]. cbn [entry Stats.clinicCount Stats.code fst snd].
    pose proof (F2 k) as E. unfold Stats.countOf at 1 in E.
    rewrite (@mapGet_In _ _ _ _ F1 Hin) in E. exact E.
  - apply (Permutation_in _ P) in H. apply in_map_iff in H.
    destruct H as [[k v] [<- Hin]]. cbn [entry Stats.clinicCount fst snd].
    pose proof (F2 k) as E. unfold Stats.countOf at 1 in E.
    rewrite (@mapGet_In _ _ _ _ F1 Hin) in E. rewrite E.
    assert (Hk : In k (countedCodes rows)).
    { assert (Hk : In k (JsMap.keys (Stats.countStates (Some rows)))).
      { change (In (fst (k, v)) (map fst (Stats.countStates (Some rows)))).
        apply in_map. exact Hin. }
      apply F3 in Hk. destruct Hk as [[]|Hk]. exact Hk. }
    apply (count_occ_In string_dec) in Hk. cbn. lia.
  - apply jsSort_sorted with (P := fun _ => True).
    + intros x y _ _. apply byCount_decides.
    + intros x y z A B. unfold countOrder in *. lia.
    + apply Forall_forall. intros; exact I.
  - exact T.
  - rewrite T, (Permutation_list_sum (Permutation_map Stats.clinicCount P)), C, F4.
    reflexivity.
Qed.

(* ===================================================================== *)
(** ** Further properties: the featuring script and the city page *)
(* ===================================================================== *)

Lemma includes_separator (a b : string) :
  JS.includes (a ++ "|" ++ b)%string "|" = true.
Proof. apply includes_iff. exists a, b. reflexivity. Qed.

(** The key of a city tells the city and the state apart when the state
    code does not hold the separator. *)
Lemma key_inj (c1 c2 s1 s2 : string) :
  JS.includes s1 "|" = false -> JS.includes s2 "|" = false ->
  (c1 ++ "|" ++ s1 = c2 ++ "|" ++ s2)%string -> c1 = c2 /\ s1 = s2.
Proof.
  intros H1 H2. revert c2.
  induction c1 as [|a c1 IH]; intros [|b c2] E; cbn in E.
  - injection E as E. split; [reflexivity | exact E].
  - injection E as _ E.
    assert (T : JS.includes s1 "|" = true)
      by (apply includes_iff; exists c2, s2; exact E).
    congruence.
  - injection E as _ E.
    assert (T : JS.includes s2 "|" = true)
      by (apply includes_iff; exists c1, s1; symmetry; exact E).
    congruence.
  - injection E as -> E. destruct (IH _ E) as [-> ->]. split; reflexivity.
Qed.

Lemma arrayIncludes_In (l : list string) (x : string) :
  JS.arrayIncludes l x = true <-> In x l.
Proof.
  unfold JS.arrayIncludes. rewrite existsb_exists. split.
  - intros [y [Hy E]]. apply String.eqb_eq in E. subst. exact Hy.
  - intros H. exists x. split; [exact H | apply String.eqb_refl].
Qed.

Lemma collectCities_spec (data : list AutoFeature.Row)
  (cityStateList : list AutoFeature.CityState) :
  plainStates data ->
  Forall (fun p => JS.includes (AutoFeature.state p) "|" = false)
         cityStateList ->
  NoDup cityStateList ->
  let keys := map (fun p => (AutoFeature.cs_city p ++ "|"
                             ++ AutoFeature.state p)%string) cityStateList in
  NoDup (AutoFeature.collectCities data keys cityStateList)
  /\ forall p, In p (AutoFeature.collectCities data keys cityStateList)
               <-> In p cityStateList \/ In p (map pairOf data).
Proof.
  cbv zeta. revert cityStateList.
  induction data as [|clinic rest IH]; intros l Hd Hl Hn.
  - cbn. split; [exact Hn | intros p; tauto].
  - assert (Hrest : plainStates rest).
    { intros row Hrow. apply Hd. right. exact Hrow. }
    assert (Hc : JS.includes (AutoFeature.state_code clinic) "|" = false).
    { apply Hd. left. reflexivity. }
    cbn [AutoFeature.collectCities].
    destruct (JS.arrayIncludes _ (AutoFeature.key clinic)) eqn:E.
    + apply arrayIncludes_In, in_map_iff in E. destruct E as [q [Eq Hq]].
      assert (Hp : q = pairOf clinic).
      { pose proof (proj1 (Forall_forall _ _) Hl q Hq) as Hs.
        unfold AutoFeature.key in Eq.
        destruct (@key_inj _ _ _ _ Hs Hc Eq) as [E1 E2].
        destruct q as [qc qs]. cbn in E1, E2. subst. reflexivity. }
      subst q. destruct (IH l Hrest Hl Hn) as [I1 I2].
      split; [exact I1|]. intros p. rewrite I2. cbn [map In].
      split; [tauto|]. intros [H|[<-|H]]; tauto.
    + assert (Hp : ~ In (pairOf clinic) l).
      { intros Hin. apply Bool.not_true_iff_false in E. apply E.
        apply arrayIncludes_In, in_map_iff.
        exists (pairOf clinic). split; [reflexivity | exact Hin]. }
      assert (Hl' : Forall (fun p => JS.includes (AutoFeature.state p) "|"
                                     = false)
                           (l ++ [AutoFeature.mkCityState
                                    (AutoFeature.city clinic)
                                    (AutoFeature.state_code clinic)])).
      { apply Forall_app. split; [exact Hl|]. constructor; [exact Hc|constructor]. }
      assert (Hn' : NoDup (l ++ [AutoFeature.mkCityState
                                   (AutoFeature.city clinic)
                                   (AutoFeature.state_code clinic)])).
      { apply NoDup_app; [exact Hn | repeat constructor; intros [] |].
        intros x Hx [<-|[]]. exact (Hp Hx). }
      destruct (IH _ Hrest Hl' Hn') as [I1 I2].
      rewrite map_app in I1, I2. cbn [map] in I1, I2.
      split; [exact I1|]. intros p. rewrite I2, in_app_iff. cbn [map In].
      unfold pairOf. tauto.
Qed.

(** X18. When no state code holds the separator "|" of the key, the list
    of cities of the featuring script holds every (city, state) pair of
    the rows, and holds it once. *)
Theorem getAllCitiesWithClinics_unique (data : list AutoFeature.Row) :
  plainStates data ->
  NoDup (AutoFeature.getAllCitiesWithClinics (Some data))
  /\ forall p, In p (AutoFeature.getAllCitiesWithClinics (Some data))
               <-> In p (map pairOf data).
Proof.
  intros Hd.
  destruct (@collectCities_spec data [] Hd (Forall_nil _) (NoDup_nil _))
    as [H1 H2].
  split; [exact H1|]. intros p. unfold AutoFeature.getAllCitiesWithClinics.
  cbn [map] in H2. rewrite H2. cbn [In]. tauto.
Qed.

Lemma getAllCitiesWithClinics_unique_witness :
  NoDup (AutoFeature.getAllCitiesWithClinics (Some threeRows)).
Proof.
  apply (@getAllCitiesWithClinics_unique threeRows).
  intros row Hrow. cbn in Hrow.
  destruct Hrow as [<-|[<-|[<-|[]]]]; reflexivity.
Defined.

Lemma markLoop_spec (update : nat -> list string -> bool)
  (placeIds : list string) (fuel : nat) :
  forall i successCount errorCount sent,
    List.length placeIds - i <= fuel ->
    exists counts sent',
      AutoFeature.markLoop fuel update placeIds i successCount errorCount sent
      = Some (counts, (sent ++ sent')%list)
      /\ AutoFeature.success counts + AutoFeature.errors counts
         = successCount + errorCount + (List.length placeIds - i)
      /\ List.concat sent' = skipn i placeIds
      /\ Forall batchSized sent'.
Proof.
  induction fuel as [|fuel IH]; intros i s e sent Hf.
  - exists (AutoFeature.mkCounts s e), [].
    assert (E : (i <? List.length placeIds) = false)
      by (apply Nat.ltb_ge; lia).
    cbn [AutoFeature.markLoop]. rewrite E, app_nil_r.
    cbn [AutoFeature.success AutoFeature.errors List.concat].
    rewrite skipn_all2 by lia. repeat split; [lia | constructor].
  - cbn [AutoFeature.markLoop].
    destruct (i <? List.length placeIds) eqn:E.
    + apply Nat.ltb_lt in E.
      set (batch := AutoFeature.slice i (i + AutoFeature.BATCH_SIZE) placeIds).
      assert (Hb : List.length batch
                   = Nat.min AutoFeature.BATCH_SIZE (List.length placeIds - i)).
      { unfold batch, AutoFeature.slice.
        rewrite length_firstn, length_skipn. f_equal. lia. }
      assert (Hc : (batch ++ skipn (i + AutoFeature.BATCH_SIZE) placeIds)%list
                   = skipn i placeIds).
      { unfold batch, AutoFeature.slice.
        replace (i + AutoFeature.BATCH_SIZE - i) with AutoFeature.BATCH_SIZE
          by lia.
        rewrite (Nat.add_comm i), <- skipn_skipn. apply firstn_skipn. }
      assert (Hs : batchSized batch).
      { unfold batchSized. rewrite Hb. unfold AutoFeature.BATCH_SIZE. lia. }
      unfold AutoFeature.BATCH_SIZE in Hb.
      cbv zeta. fold batch.
      destruct (update (List.length sent) batch).
      * destruct (IH (i + AutoFeature.BATCH_SIZE) s
                     (e + List.length batch) (sent ++ [batch])%list)
          as (counts & sent' & R & A & C & F);
          [unfold AutoFeature.BATCH_SIZE; lia|].
        exists counts, (batch :: sent'). rewrite R, <- app_assoc.
        cbn [app List.concat]. rewrite C, Hc.
        unfold AutoFeature.BATCH_SIZE in A.
        repeat split; [lia | constructor; assumption].
      * destruct (IH (i + AutoFeature.BATCH_SIZE)
                     (s + List.length batch) e (sent ++ [batch])%list)
          as (counts & sent' & R & A & C & F);
          [unfold AutoFeature.BATCH_SIZE; lia|].
        exists counts, (batch :: sent'). rewrite R, <- app_assoc.
        cbn [app List.concat]. rewrite C, Hc.
        unfold AutoFeature.BATCH_SIZE in A.
        repeat split; [lia | constructor; assumption].
    + apply Nat.ltb_ge in E. exists (AutoFeature.mkCounts s e), [].
      rewrite app_nil_r. cbn [AutoFeature.success AutoFeature.errors List.concat].
      rewrite skipn_all2 by lia. repeat split; [lia | constructor].
Qed.

(** X19. Whatever the database answers, [markClinicsAsFeatured] ends, and
    the batches it sends are the identifiers cut in order into pieces of
    1 to 100: each identifier is sent once, and the two counts it returns
    add up to the number of identifiers. *)
Theorem markClinicsAsFeatured_batches (update : nat -> list string -> bool)
  (placeIds : list string) :
  exists counts sent,
    AutoFeature.markClinicsAsFeatured update placeIds = Some (counts, sent)
    /\ AutoFeature.success counts + AutoFeature.errors counts
       = List.length placeIds
    /\ List.concat sent = placeIds
    /\ Forall batchSized sent.
Proof.
  unfold AutoFeature.markClinicsAsFeatured.
  destruct (List.length placeIds =? 0)%nat eqn:E.
  - apply Nat.eqb_eq in E. exists (AutoFeature.mkCounts 0 0), [].
    destruct placeIds; [|discriminate E].
    repeat split. constructor.
  - destruct (@markLoop_spec update placeIds (List.length placeIds) 0 0 0 [])
      as (counts & sent & R & A & C & F); [lia|].
    exists counts, sent. cbn [app skipn] in R, C.
    repeat split; [exact R | lia | exact C | exact F].
Qed.

Lemma upperChar_notHyphen (c : ascii) :
  notHyphen c = true -> notHyphen (CityPage.upperChar c) = true.
Proof.
  destruct c as [[] [] [] [] [] [] [] []]; intros H;
    solve [reflexivity | discriminate H].
Qed.

Lemma split_notHyphen (s : string) :
  Forall (fun word => JS.allChars notHyphen word = true) (CityPage.split s).
Proof.
  induction s as [|c s IH]; cbn [CityPage.split].
  - repeat constructor.
  - destruct (Ascii.eqb c CityPage.hyphen) eqn:E.
    + constructor; [reflexivity | exact IH].
    + destruct (CityPage.split s) as [|word words].
      * repeat constructor. cbn [JS.allChars]. unfold notHyphen.
        rewrite E. reflexivity.
      * inversion IH as [|? ? Hw Hws]; subst. constructor; [|exact Hws].
        cbn [JS.allChars]. unfold notHyphen at 1. rewrite E. exact Hw.
Qed.

Lemma capitalize_notHyphen (word : string) :
  JS.allChars notHyphen word = true ->
  JS.allChars notHyphen (CityPage.capitalize word) = true.
Proof.
  destruct word as [|c rest]; [reflexivity|]. cbn [CityPage.capitalize JS.allChars].
  intros H. apply andb_true_iff in H. destruct H as [H1 H2].
  rewrite (upperChar_notHyphen c H1), H2. reflexivity.
Qed.

Lemma join_notHyphen (words : list string) :
  Forall (fun word => JS.allChars notHyphen word = true) words ->
  JS.allChars notHyphen (JS.join " " words) = true.
Proof.
  unfold JS.join. induction 1 as [|word words Hw Hws IH]; [reflexivity|].
  cbn [String.concat]. destruct words as [|word' words']; [exact Hw|].
  rewrite !allChars_app, Hw, IH. reflexivity.
Qed.

Lemma notHyphen_includes (s : string) :
  JS.allChars notHyphen s = true -> JS.includes s "-" = false.
Proof.
  induction s as [|c s IH]; [reflexivity|]. cbn [JS.allChars JS.includes].
  intros H. apply andb_true_iff in H. destruct H as [H1 H2].
  rewrite (IH H2), orb_false_r. cbn [String.prefix].
  unfold notHyphen, CityPage.hyphen in H1. apply negb_true_iff in H1.
  destruct (ascii_dec "-"%char c) as [<-|Hne]; [discriminate H1 | reflexivity].
Qed.

Lemma cityName_notHyphen (slug : string) :
  JS.includes (CityPage.cityName slug) "-" = false.
Proof.
  apply notHyphen_includes. unfold CityPage.cityName. apply join_notHyphen.
  apply Forall_forall. intros word Hw. apply in_map_iff in Hw.
  destruct Hw as [w [<- Hw]]. apply capitalize_notHyphen.
  pose proof (split_notHyphen slug) as F. rewrite Forall_forall in F.
  apply F. exact Hw.
Qed.

(** X20. The city page turns every hyphen of the slug into a space, so
    the name it hands to the clinic list never holds a hyphen: no slug
    leads to a city whose name is written with one. *)
Theorem city_page_never_reaches_hyphenated_city (slug city : string) :
  JS.includes city "-" = true -> CityPage.cityName slug <> city.
Proof.
  intros H E. rewrite <- E, cityName_notHyphen in H. discriminate H.
Qed.

Lemma city_page_never_reaches_hyphenated_city_witness :
  CityPage.cityName "wilkes-barre" <> "Wilkes-Barre"%string.
Proof.
  apply (@city_page_never_reaches_hyphenated_city
           "wilkes-barre"%string "Wilkes-Barre"%string).
  reflexivity.
Defined.

(* ===================================================================== *)
(** ** Further properties: the fast script *)
(* ===================================================================== *)

Lemma fast_parseClinicFromPlace_world (place : Place.t) (w : Fast.World) :
  Fast.trace (snd (Fast.parseClinicFromPlace place w)) = Fast.trace w
  /\ Fast.totalRequests (snd (Fast.parseClinicFromPlace place w))
     = Fast.totalRequests w.
Proof.
  unfold Fast.parseClinicFromPlace.
  repeat match goal with
         | |- context [match ?x with _ => _ end] => destruct x
         end; split; reflexivity.
Qed.

Lemma fast_addPlaces_world (places : list Place.t)
  (m : JsMap.t AllStates.Clinic.t) (w : Fast.World) :
  Fast.trace (snd (Fast.addPlaces places m w)) = Fast.trace w
  /\ Fast.totalRequests (snd (Fast.addPlaces places m w))
     = Fast.totalRequests w.
Proof.
  revert m w. induction places as [|p ps IH]; intros m w; cbn [Fast.addPlaces];
    [split; reflexivity|].
  pose proof (fast_parseClinicFromPlace_world p w) as E.
  destruct (Fast.parseClinicFromPlace p w) as [[c|] w1]; cbn [snd] in E;
    destruct E as [E1 E2]; rewrite <- E1, <- E2; apply IH.
Qed.

Lemma fastStep_ret {A} (a : A) : fastStep (@ret Fast.World A a).
Proof. intros w Hw. split; [reflexivity | exact Hw]. Qed.

Lemma fastStep_bind {A B} (m : Fast.M A) (k : A -> Fast.M B) :
  fastStep m -> (forall a, fastStep (k a)) -> fastStep (bind m k).
Proof.
  intros Hm Hk w Hw. unfold bind. destruct (Hm w Hw) as [E H].
  destruct (m w) as [[a|e|] w']; cbn [fst snd] in *.
  - destruct (Hk a w' H) as [E' H']. split; [congruence | exact H'].
  - split; [exact E | exact H].
  - destruct H.
Qed.

Lemma fastStep_forOf {A S} (body : A -> S -> Fast.M S) (l : list A) :
  (forall x acc, fastStep (body x acc)) ->
  forall acc, fastStep (forOf body l acc).
Proof.
  intros Hb. induction l as [|x l IH]; intros acc; cbn [forOf].
  - apply fastStep_ret.
  - apply fastStep_bind; [apply Hb | exact IH].
Qed.

Lemma fastStep_runQuery (src : Fast.Source) (query : string)
  (clinics : JsMap.t AllStates.Clinic.t) :
  fastStep (Fast.runQuery src query clinics).
Proof.
  intros w (H1 & H2 & H3).
  unfold Fast.runQuery, bind, Fast.makeRequest.
  cbn [Fast.totalRequests Fast.bumpRequests].
  destruct (Fast.MAX_REQUESTS <=? N.succ (Fast.totalRequests w))%N eqn:E.
  - apply N.leb_le in E. cbn [fst snd Fast.emit Fast.trace fastWritten].
    split; [reflexivity|]. exists (Fast.trace w).
    unfold Fast.MAX_REQUESTS in *.
    repeat split; [exact H1 | lia | cbn; lia].
  - apply N.leb_gt in E. unfold tryCatch, bind, Fast.fetchSearch.
    cbn [Fast.totalRequests Fast.emit].
    assert (R : forall w',
               Fast.trace w' = Fast.Fetch query
                                 :: Fast.Sleep Fast.REQUEST_DELAY_MS
                                 :: Fast.trace w ->
               Fast.totalRequests w' = N.succ (Fast.totalRequests w) ->
               fastWritten (Fast.trace w') = fastWritten (Fast.trace w)
               /\ fastRunning w').
    { intros w' Et En. unfold fastRunning. rewrite Et, En.
      cbn [fastWritten fastFetches In]. repeat split; [|lia|exact E].
      intros [F|[F|F]]; [discriminate F | discriminate F | exact (H1 F)]. }
    match goal with
    | |- context [src ?n ?q] => destruct (src n q) as [e|status|data]
    end; cbn [throw ret fst snd]; try (apply R; reflexivity).
    unfold lift.
    match goal with
    | |- context [Fast.addPlaces ?ps ?m ?w0] =>
        pose proof (fast_addPlaces_world ps m w0) as [Et En];
        destruct (Fast.addPlaces ps m w0) as [m' w']
    end.
    cbn [fst snd] in *. apply R; [rewrite Et | rewrite En]; reflexivity.
Qed.

Lemma fastStep_citySearch (src : Fast.Source) (stateCode : string)
  (cities : list string) (clinics : JsMap.t AllStates.Clinic.t) :
  fastStep (Fast.citySearch src stateCode cities clinics).
Proof.
  unfold Fast.citySearch. apply fastStep_forOf. intros city acc.
  apply fastStep_forOf. intros query acc'. apply fastStep_runQuery.
Qed.

(** One state of the fast script: an unknown code does nothing; a known
    one gets its file when its searches return and the file system lets
    it be saved, and none when the budget stops the searches or the save
    fails. *)
Lemma fast_collectStateData_run (src : Fast.Source) (fs : Fast.FileSystem)
  (stateCode : string) (w : Fast.World) :
  fastRunning w ->
  match Fast.collectStateData src fs stateCode w with
  | (Ok _, w') =>
      fastRunning w'
      /\ fastWritten (Fast.trace w')
         = fastWritten (Fast.trace w)
           ++ (if fastKnown stateCode then [stateCode] else [])
  | (Throw e, w') =>
      (fastStopped w' \/ fastSaveFailed fs stateCode e w')
      /\ fastKnown stateCode = true
      /\ fastWritten (Fast.trace w') = fastWritten (Fast.trace w)
  | (OutOfFuel, _) => False
  end.
Proof.
  intros Hw. unfold Fast.collectStateData, fastKnown.
  destruct (Fast.lookupState stateCode) as [info|].
  - unfold bind.
    destruct (@fastStep_citySearch src stateCode (Fast.cities info)
                JsMap.empty w Hw) as [E H].
    destruct (Fast.citySearch src stateCode (Fast.cities info) JsMap.empty w)
      as [[clinics|e|] w']; cbn [fst snd] in *.
    + unfold Fast.saveFile.
      destruct (Fast.existsSync fs w') eqn:Ex; cbn [negb].
      * destruct (Fast.writeError fs w' stateCode) as [e|] eqn:Ew.
        -- split; [right; split; [exact H | right; exact Ew]|].
           split; [reflexivity | exact E].
        -- cbn [Fast.emit Fast.trace fastWritten]. rewrite E.
           split; [|reflexivity]. destruct H as (H1 & H2 & H3).
           unfold fastRunning. cbn [Fast.trace Fast.emit Fast.totalRequests
                                    fastFetches In].
           repeat split; [|exact H2|exact H3].
           intros [F|F]; [discriminate F | exact (H1 F)].
      * destruct (Fast.mkdirError fs w') as [e|] eqn:Em.
        -- split; [right; split; [exact H | left; split; [exact Ex|exact Em]]|].
           split; [reflexivity | exact E].
        -- destruct (Fast.writeError fs w' stateCode) as [e|] eqn:Ew.
           ++ split; [right; split; [exact H | right; exact Ew]|].
              split; [reflexivity | exact E].
           ++ cbn [Fast.emit Fast.trace fastWritten]. rewrite E.
              split; [|reflexivity]. destruct H as (H1 & H2 & H3).
              unfold fastRunning. cbn [Fast.trace Fast.emit Fast.totalRequests
                                       fastFetches In].
              repeat split; [|exact H2|exact H3].
              intros [F|F]; [discriminate F | exact (H1 F)].
    + split; [left; exact H|]. split; [reflexivity | exact E].
    + exact H.
  - cbn. rewrite app_nil_r. split; [exact Hw | reflexivity].
Qed.

Lemma fast_mainLoop_run (src : Fast.Source) (fs : Fast.FileSystem)
  (statesToProcess : list string) :
  forall w, fastRunning w ->
    exists done rest,
      filter fastKnown statesToProcess = (done ++ rest)%list
      /\ match Fast.mainLoop src fs statesToProcess w with
         | (Ok _, w') =>
             rest = [] /\ fastRunning w'
             /\ fastWritten (Fast.trace w')
                = (fastWritten (Fast.trace w) ++ done)%list
         | (Throw e, w') =>
             (exists stateCode rest',
                 rest = stateCode :: rest'
                 /\ (fastStopped w' \/ fastSaveFailed fs stateCode e w'))
             /\ fastWritten (Fast.trace w')
                = (fastWritten (Fast.trace w) ++ done)%list
         | (OutOfFuel, _) => False
         end.
Proof.
  unfold Fast.mainLoop.
  induction statesToProcess as [|stateCode states IH]; intros w Hw.
  - exists [], []. split; [reflexivity|]. cbn [forOf ret].
    rewrite app_nil_r. split; [reflexivity|]. split; [exact Hw | reflexivity].
  - cbn [forOf filter]. unfold bind.
    pose proof (@fast_collectStateData_run src fs stateCode w Hw) as C.
    destruct (Fast.collectStateData src fs stateCode w) as [[[]|e|] w1].
    + destruct C as [C1 C2]. destruct (IH w1 C1) as (done & rest & E & R).
      exists ((if fastKnown stateCode then [stateCode] else []) ++ done)%list,
             rest.
      split.
      * rewrite <- app_assoc, <- E. destruct (fastKnown stateCode); reflexivity.
      * destruct (forOf _ states tt w1) as [[[]|e|] w2];
          [ | |exact R]; destruct R as (R1 & R2);
          [destruct R2 as (R2 & R3)|];
          [rewrite R3, C2, <- app_assoc | rewrite R2, C2, <- app_assoc];
          [split; [exact R1|]; split; [exact R2 | reflexivity]
          |split; [exact R1 | reflexivity]].
    + destruct C as (C1 & C2 & C3).
      exists [], (stateCode :: filter fastKnown states).
      rewrite C2, app_nil_r. cbn [app].
      split; [reflexivity|].
      split; [|exact C3].
      exists stateCode, (filter fastKnown states).
      split; [reflexivity | exact C1].
    + destruct C.
Qed.

(** X21. The fast script has no handler around its states, so the budget
    error and an error of the file system end the run: for every source,
    every file system and every list of states, the files written are
    those of a first part of the known states of the list, in order;
    either the run returns, with a file for every known state (an empty
    one when nothing was found) and fewer than 8000 calls, or it throws
    while a state is in progress, and that state and the states after it
    get no file: right after the refusal of the budget and after 7999
    calls, or with the error of the directory or of the file of that
    state, after fewer than 8000 calls and no refusal. *)
Theorem fast_run_stops_at_limit (src : Fast.Source) (fs : Fast.FileSystem)
  (statesToProcess : list string) :
  let r := Fast.mainLoop src fs statesToProcess Fast.initialWorld in
  exists done rest,
    filter fastKnown statesToProcess = (done ++ rest)%list
    /\ fastWritten (Fast.trace (snd r)) = done
    /\ match fst r with
       | Ok _ => rest = [] /\ fastRunning (snd r)
       | Throw e =>
           exists stateCode rest',
             rest = stateCode :: rest'
             /\ (fastStopped (snd r) \/ fastSaveFailed fs stateCode e (snd r))
       | OutOfFuel => False
       end.
Proof.
  cbv zeta.
  assert (H0 : fastRunning Fast.initialWorld).
  { unfold fastRunning. cbn. split; [tauto|]. split; reflexivity. }
  destruct (@fast_mainLoop_run src fs statesToProcess Fast.initialWorld H0)
    as (done & rest & E & R).
  exists done, rest. split; [exact E|].
  destruct (Fast.mainLoop src fs statesToProcess Fast.initialWorld)
    as [[[]|e|] w']; cbn [fst snd] in *.
  - destruct R as (R1 & R2 & R3). split; [exact R3|]. split; assumption.
  - destruct R as (R1 & R2). split; [exact R2 | exact R1].
  - destruct R.
Qed.

(* ===================================================================== *)
(** ** Further properties: the files of the comprehensive script *)
(* ===================================================================== *)

Section FilesOfTheScript.

Variable cfg : Config.
Variable src : Source.
Variable fs : FileSystem.

Lemma filesValid_same (w w' : World) :
  trace w' = trace w -> filesValid w -> filesValid w'.
Proof. unfold filesValid. intros ->. tauto. Qed.

Lemma filesValid_effect (e : Event) :
  fileValid e -> keeps filesValid (fun _ : unit => True) (effect e).
Proof.
  intros He w Hw. cbn [fst snd effect]. split; [|exact I].
  constructor; assumption.
Qed.

Lemma filesValid_writeFile (stateCode : string) (clinics : list Clinic.t) :
  fileValid (WriteFile stateCode clinics) ->
  keeps filesValid (fun _ : unit => True) (writeFile fs stateCode clinics).
Proof.
  intros He w Hw. unfold writeFile.
  destruct (writeError fs w stateCode); cbn [fst snd];
    (split; [|exact I]); [exact Hw | constructor; assumption].
Qed.

Lemma filesValid_lift {A} (P : A -> Prop) (f : World -> A * World) :
  (forall w, trace (snd (f w)) = trace w /\ P (fst (f w))) ->
  keeps filesValid P (lift f).
Proof.
  intros Hf w Hw. unfold lift. specialize (Hf w).
  destruct (f w) as [a w']. cbn in *. destruct Hf as (E1 & Ha).
  split; [|exact Ha]. eapply filesValid_same; eassumption.
Qed.

Lemma filesValid_request {A B} (Q : B -> Prop) (answer : World -> Response A)
  (r : Request) (k : Response A -> M B) :
  (forall response, keeps filesValid Q (k response)) ->
  keeps filesValid Q
        (checkRequestLimit cfg ;;;
         response <- (fun w => (Ok (answer w), emit (Fetch r) w)) ;;
         k response).
Proof.
  intros Hk w Hw. unfold bind, checkRequestLimit.
  destruct (reaches (TOTAL_REQUESTS w) (MAX_REQUESTS cfg)).
  - cbn [fst snd]. split; [|exact I]. constructor; [exact I | exact Hw].
  - cbv beta iota. apply Hk. repeat (constructor; [exact I|]). exact Hw.
Qed.

Lemma filesValid_clinicsOf (body : SearchBody) :
  keeps filesValid (fun _ => True) (clinicsOf cfg body).
Proof.
  intros w Hw. destruct (clinicsOf_run cfg body w) as (found & w' & E & Et & Er).
  rewrite E. cbn. split; [|exact I]. eapply filesValid_same; eassumption.
Qed.

Lemma filesValid_handler {A} (P : A -> Prop) (k : M A) (e : string) :
  keeps filesValid P k ->
  keeps filesValid P (if isRequestLimit e then throw e else k).
Proof.
  intros Hk. destruct (isRequestLimit e); [apply keeps_throw | exact Hk].
Qed.

Lemma filesValid_gridSearchForState (stateInfo : StateInfo) :
  keeps filesValid (fun _ => True) (gridSearchForState cfg src stateInfo).
Proof.
  unfold gridSearchForState. apply keeps_forOf; [|exact I].
  intros point clinicIds _. apply keeps_tryCatch.
  - eapply keeps_bind with (P := fun _ => True).
    + unfold nearbySearchAtPoint, fetchSearch.
      match goal with
      | |- context [SearchNearby ?lat ?lng ?radius] =>
          apply filesValid_request
            with (answer := fun w => search src (TOTAL_REQUESTS w)
                                       (SearchNearby lat lng radius))
      end.
      intros response. destruct response as [e|status|data];
        [apply keeps_throw | apply keeps_throw | apply filesValid_clinicsOf].
    + intros clinics _. apply keeps_ret. exact I.
  - intros e. apply filesValid_handler, keeps_ret. exact I.
Qed.

Lemma filesValid_pageLoop (query : string) (fuel : nat) :
  forall (pageToken : option string) (pages : nat)
         (allClinics : list Clinic.t),
    keeps filesValid (fun _ => True)
          (pageLoop fuel cfg src query pageToken pages allClinics).
Proof.
  induction fuel as [|fuel IH]; intros pageToken pages allClinics.
  - intros w Hw. cbn. split; [exact Hw | exact I].
  - cbn [pageLoop]. unfold fetchSearch.
    apply filesValid_request
      with (answer := fun w =>
                        search src (TOTAL_REQUESTS w)
                          (SearchText query
                             (if JS.truthyOpt pageToken
                              then pageToken else None))).
    intros response. destruct response as [e|status|data];
      [apply keeps_throw | apply keeps_throw |].
    eapply keeps_bind; [apply filesValid_clinicsOf|]. intros found _.
    eapply keeps_bind with (P := fun _ => True).
    + destruct (JS.truthyOpt (nextPageToken data));
        [apply filesValid_effect; exact I | apply keeps_ret; exact I].
    + intros _ _.
      destruct (JS.truthyOpt (nextPageToken data) && (pages + 1 <? 3));
        [apply IH | apply keeps_ret; exact I].
Qed.

Lemma filesValid_citySearchForState (stateInfo : StateInfo) :
  keeps filesValid (fun _ => True) (citySearchForState cfg src stateInfo).
Proof.
  unfold citySearchForState. apply keeps_forOf; [|exact I].
  intros city clinicIds _. apply keeps_tryCatch.
  - eapply keeps_bind with (P := fun _ => True).
    + unfold textSearchCity. apply keeps_forOf; [|exact I].
      intros query allClinics _. apply filesValid_pageLoop.
    + intros clinics _. apply keeps_ret. exact I.
  - intros e. apply filesValid_handler, keeps_ret. exact I.
Qed.

Lemma filesValid_fetchDetailsFor (placeId : option string)
  (clinics : list Clinic.t) :
  Forall validRecord clinics ->
  keeps filesValid (Forall validRecord)
        (fetchDetailsFor cfg src placeId clinics).
Proof.
  intros Hc. unfold fetchDetailsFor. apply keeps_tryCatch.
  - unfold fetchDetails.
    apply filesValid_request
      with (answer := fun w => details src (TOTAL_REQUESTS w)
                                 (PlaceDetails placeId)).
    intros response. destruct response as [e|status|place];
      [apply keeps_throw | apply keeps_ret; exact Hc |].
    eapply keeps_bind with (P := fun _ => True).
    + apply filesValid_lift. intros w.
      split; [apply isDermatologyClinic_trace | exact I].
    + intros keep _. destruct keep; [|apply keeps_ret; exact Hc].
      destruct (transformPlace cfg place) as [c|] eqn:E;
        apply keeps_ret; [|exact Hc].
      apply Forall_app. split; [exact Hc|]. constructor; [|constructor].
      exact (@transformPlace_state cfg place c E).
  - intros e. apply filesValid_handler, keeps_ret. exact Hc.
Qed.

Lemma filesValid_collectStateData (stateCode : string) :
  keeps filesValid (fun _ => True) (collectStateData cfg src fs stateCode).
Proof.
  unfold collectStateData.
  destruct (lookupState stateCode) as [stateInfo|] eqn:El;
    [|apply keeps_ret; exact I].
  eapply keeps_bind; [apply filesValid_effect; exact I|]. intros _ _.
  eapply keeps_bind with (P := fun _ => True).
  { apply keeps_tryCatch.
    - eapply keeps_bind; [apply filesValid_gridSearchForState|].
      intros gridIds _. apply keeps_ret. exact I.
    - intros e. apply filesValid_handler, keeps_ret. exact I. }
  intros allClinicIds _. eapply keeps_bind with (P := fun _ => True).
  { apply keeps_tryCatch.
    - eapply keeps_bind; [apply filesValid_citySearchForState|].
      intros cityIds _. apply keeps_ret. exact I.
    - intros e. apply filesValid_handler, keeps_ret. exact I. }
  intros allClinicIds' _. eapply keeps_bind with (P := Forall validRecord).
  { apply keeps_forOf; [|constructor].
    intros placeId clinics Hc. apply filesValid_fetchDetailsFor. exact Hc. }
  intros clinics Hc. apply filesValid_writeFile. split; [|exact Hc].
  rewrite El. discriminate.
Qed.

(** X22. Every file that a run of the comprehensive script writes is the
    file of a state of its table, and every record in it carries a
    non-empty state code of that table, whatever the source answers: the
    state of a record is checked, though not against the state of the
    file. *)
Theorem comprehensive_files_hold_valid_records
  (statesToProcess : list string) :
  filesValid (snd (mainLoop cfg src fs statesToProcess initialWorld))
  /\ filesValid (snd (main cfg src fs statesToProcess initialWorld)).
Proof.
  assert (H : forall w,
             filesValid w ->
             filesValid (snd (mainLoop cfg src fs statesToProcess w))).
  { induction statesToProcess as [|stateCode rest IH]; intros w Hw.
    - exact Hw.
    - cbn [mainLoop]. destruct (lookupState stateCode); [|apply IH; exact Hw].
      destruct (@filesValid_collectStateData stateCode w Hw) as [H _].
      destruct (collectStateData cfg src fs stateCode w) as [[[]|e|] w'];
        cbn [fst snd] in *.
      + apply IH. exact H.
      + destruct (isRequestLimit e); [exact H | apply IH; exact H].
      + exact H. }
  split; [apply H; constructor|].
  unfold main. destruct (mkdirError fs); [constructor | apply H; constructor].
Qed.

End FilesOfTheScript.

(* ===================================================================== *)
(** ** Further properties: the home page *)
(* ===================================================================== *)

Lemma states_codes (rows : list (option string)) :
  NoDup (map Stats.code (Stats.states (Some rows)))
  /\ forall k, In k (map Stats.code (Stats.states (Some rows)))
               <-> In k (countedCodes rows).
Proof.
  destruct (@countStates_facts rows JsMap.empty) as (F1 & _ & F3 & _);
    [constructor|].
  fold (Stats.countStates (Some rows)) in F1, F3.
  assert (P : Permutation
                (map Stats.code (Stats.states (Some rows)))
                (JsMap.keys (Stats.countStates (Some rows)))).
  { unfold Stats.states.
    eapply perm_trans; [apply Permutation_map, jsSort_perm|].
    rewrite map_map. apply Permutation_refl. }
  split.
  - apply (Permutation_NoDup (Permutation_sym P)). exact F1.
  - intros k. split; intros H.
    + apply (Permutation_in _ P), F3 in H. destruct H as [[]|H]. exact H.
    + apply (Permutation_in _ (Permutation_sym P)), F3. right. exact H.
Qed.

Lemma totalStates_distinct (rows : list (option string)) :
  Stats.totalStates (Some rows)
  = List.length (nodup string_dec (countedCodes rows)).
Proof.
  destruct (states_codes rows) as [N E]. unfold Stats.totalStates.
  rewrite <- (length_map Stats.code). apply Permutation_length.
  apply NoDup_Permutation; [exact N | apply NoDup_nodup|].
  intros k. rewrite E, nodup_In. reflexivity.
Qed.

Lemma totalClinics_rows (rows : list (option string)) :
  Stats.totalClinics (Some rows) = List.length (countedCodes rows).
Proof.
  destruct (@countStates_facts rows JsMap.empty) as (_ & _ & _ & F4);
    [constructor|].
  unfold Stats.totalClinics, Stats.countStates. rewrite fold_left_sum, F4.
  reflexivity.
Qed.

(** X23. What the home page shows of the statistics route.  When the
    route fails (status 500) the page shows 0 clinics and 50 states, the
    same as for a database without a single clinic that has a state code:
    the status of the reply is not looked at and a count of 0 states is
    replaced by 50.  Otherwise it shows the number of rows that carry a
    code and the number of different codes.  When the request itself
    fails, the initial 0 clinics and 0 states stay. *)
Theorem home_page_statistics (rows : list (option string))
  (message : string) :
  shownFor (Stats.DbError message) = Home.mkShown 0 50 false
  /\ shownFor (Stats.DbData (Some rows))
     = Home.mkShown
         (List.length (countedCodes rows))
         (match countedCodes rows with
          | [] => 50
          | _ => List.length (nodup string_dec (countedCodes rows))
          end)
         false
  /\ Home.loadStats None Home.initial = Home.mkShown 0 0 false.
Proof.
  split; [reflexivity|]. split; [|reflexivity].
  unfold shownFor, Home.loadStats, Stats.GET.
  cbn [Home.replyClinics Home.replyStates].
  rewrite totalClinics_rows, totalStates_distinct.
  assert (E : forall n, Home.orElse (Some n) 0 = n) by (intros []; reflexivity).
  rewrite E. f_equal.
  destruct (countedCodes rows) as [|k l]; [reflexivity|].
  cbn [nodup]. destruct (in_dec string_dec k l) as [Hin|Hin].
  - destruct (nodup string_dec l) as [|k' l'] eqn:El; [|reflexivity].
    exfalso. apply (nodup_In string_dec) in Hin. rewrite El in Hin. exact Hin.
  - reflexivity.
Qed.

(** X24. A search typed on the home page is lost on the way: the home
    page sends the query as the parameter [q], the clinic list page reads
    only the parameters [state] and [city], so whatever the query it
    fetches the unfiltered address, and what it displays after loading is
    every clinic loaded, in order. *)
Theorem home_search_query_is_dropped
  (encodeURIComponent : string -> string) (query : string)
  (loadedClinics : list Client.Clinic.t) (st : Client.State) :
  listUrl encodeURIComponent (Home.handleSearch query)
  = "/api/clinics?per_page=5000"%string
  /\ Client.displayed (Client.loadClinics loadedClinics st) = loadedClinics.
Proof.
  split; [reflexivity|].
  unfold Client.loadClinics, Client.displayed.
  pose proof (read_alloc (Client.heap st) loadedClinics) as R.
  destruct (Client.alloc loadedClinics (Client.heap st)) as [r h].
  exact R.
Qed.

(* ===================================================================== *)
(** ** Further properties: the clinic page *)
(* ===================================================================== *)

Lemma flagOf_normalized_absent (keys : list (string * string)) (g : Flags)
  (name : string) :
  ~ In name (map fst keys) ->
  Client.flagOf name
    (flat_map (fun k => match DetailPage.pick g (fst k) (snd k) with
                        | Some v => [(fst k, v)]
                        | None => []
                        end) keys) = None.
Proof.
  induction keys as [|[s c] keys IH]; intros H; [reflexivity|].
  cbn [flat_map fst snd]. cbn [map fst In] in H.
  destruct (DetailPage.pick g s c) as [v|]; cbn [app Client.flagOf].
  - destruct (String.eqb_spec s name) as [E|_]; [exfalso; tauto|].
    apply IH. tauto.
  - apply IH. tauto.
Qed.

Lemma flagOf_normalized (keys : list (string * string)) (g : Flags)
  (snake camel : string) :
  NoDup (map fst keys) -> In (snake, camel) keys ->
  Client.flagOf snake
    (flat_map (fun k => match DetailPage.pick g (fst k) (snd k) with
                        | Some v => [(fst k, v)]
                        | None => []
                        end) keys)
  = DetailPage.pick g snake camel.
Proof.
  induction keys as [|[s c] keys IH]; intros Hn Hin; [destruct Hin|].
  cbn [map fst] in Hn. inversion Hn as [|? ? Hs Hn']; subst.
  cbn [flat_map fst snd]. destruct Hin as [E|Hin].
  - injection E as -> ->.
    destruct (DetailPage.pick g snake camel) as [v|]; cbn [app Client.flagOf].
    + rewrite String.eqb_refl. reflexivity.
    + apply flagOf_normalized_absent. exact Hs.
  - assert (Hne : s <> snake).
    { intros ->. apply Hs. change (In (fst (snake, camel)) (map fst keys)).
      apply in_map. exact Hin. }
    destruct (DetailPage.pick g s c) as [v|]; cbn [app Client.flagOf].
    + destruct (String.eqb_spec s snake) as [E|_]; [contradiction|].
      apply IH; assumption.
    + apply IH; assumption.
Qed.

Lemma flat_map_ext_In {A B} (f g : A -> list B) (l : list A) :
  (forall x, In x l -> f x = g x) -> flat_map f l = flat_map g l.
Proof.
  induction l as [|x l IH]; intros H; [reflexivity|]. cbn [flat_map].
  rewrite (H x (or_introl eq_refl)), IH; [reflexivity|].
  intros y Hy. apply H. right. exact Hy.
Qed.

Lemma normalizeGroup_idempotent (keys : list (string * string))
  (group : option Flags) :
  keysWellFormed keys ->
  DetailPage.normalizeGroup keys (DetailPage.normalizeGroup keys group)
  = DetailPage.normalizeGroup keys group.
Proof.
  intros [Hn Hc]. destruct group as [g|]; [|reflexivity].
  cbn [DetailPage.normalizeGroup]. f_equal. apply flat_map_ext_In.
  intros [s c] Hk. cbn [fst snd]. unfold DetailPage.pick at 1.
  rewrite (@flagOf_normalized keys g s c Hn Hk).
  destruct (DetailPage.pick g s c) as [v|]; [reflexivity|].
  rewrite (@flagOf_normalized_absent keys g c (Hc _ Hk)). reflexivity.
Qed.

Lemma flagIsTrue_normalized (keys : list (string * string))
  (group : option Flags) (snake camel : string) :
  NoDup (map fst keys) -> In (snake, camel) keys ->
  Client.flagIsTrue (DetailPage.normalizeGroup keys group) snake
  = flagSet group snake camel.
Proof.
  intros Hn Hin. destruct group as [g|]; [|reflexivity].
  cbn [DetailPage.normalizeGroup Client.flagIsTrue flagSet].
  rewrite (@flagOf_normalized keys g snake camel Hn Hin). reflexivity.
Qed.

Lemma keys_wellFormed :
  keysWellFormed DetailPage.accessibilityKeys
  /\ keysWellFormed DetailPage.paymentKeys
  /\ keysWellFormed DetailPage.parkingKeys.
Proof.
  repeat split;
    try (repeat constructor; cbn; intuition discriminate);
    intros k Hk; cbn in Hk;
    repeat (destruct Hk as [<-|Hk]; [cbn; intuition discriminate|]);
    destruct Hk.
Qed.

(** X25. The clinic page normalises the three option groups of a row
    before it builds the amenity chips.  Normalising twice is the same as
    normalising once, and the chips of a normalised row are those of the
    flags that the raw row sets under either name, the snake_case name
    taking precedence: a flag stored under the camelCase name of the
    external source gets its chip, and a snake_case [false] hides a
    camelCase [true]. *)
Theorem clinic_page_chips_after_normalising (raw : DetailPage.Raw) :
  DetailPage.normalizeClinicForUI (DetailPage.normalizeClinicForUI raw)
  = DetailPage.normalizeClinicForUI raw
  /\ DetailPage.buildAmenityChips (DetailPage.normalizeClinicForUI raw)
     = chipsUnderEitherName raw.
Proof.
  destruct keys_wellFormed as (Ka & Kp & Kk).
  split.
  - unfold DetailPage.normalizeClinicForUI.
    cbn [DetailPage.accessibility_options DetailPage.payment_options
         DetailPage.parking_options].
    rewrite !normalizeGroup_idempotent by assumption. reflexivity.
  - unfold DetailPage.buildAmenityChips, DetailPage.normalizeClinicForUI,
      DetailPage.chipWhen, chipsUnderEitherName, amenityTable.
    cbn [DetailPage.accessibility_options DetailPage.payment_options
         DetailPage.parking_options flat_map fst snd].
    rewrite app_nil_r.
    repeat match goal with
           | |- context [Client.flagIsTrue
                           (DetailPage.normalizeGroup ?keys ?group) ?snake] =>
               erewrite (@flagIsTrue_normalized keys group snake);
               [ | first [apply Ka | apply Kp | apply Kk]
                 | cbn; tauto ]
           end.
    reflexivity.
Qed.
